(** * link_fallback.c: an LD_PRELOAD shim for cross-device link and rename

    Shallow embedding of [scripts/link_fallback.c] and verification of its
    specification.  The C code is a sequence of libc calls glued together by
    tests on their return values and on [errno]; it is embedded in a small
    state monad whose state holds [errno], the five function-static pointers,
    the operating system and the log of the calls made so far.  The operating
    system itself is a parameter: a theorem proved in [Section Shim] holds
    for every behaviour of the kernel and of the genuine libc functions. *)

From Stdlib Require Import ZArith List Bool Lia Ascii String.
From stdpp Require Import gmap strings list.

Local Open Scope Z_scope.

(** ** Platform constants

    The shim takes these from the system headers; the values are those of
    Linux (asm-generic). *)

Definition ENOENT : Z := 2.
Definition EIO : Z := 5.
Definition EBADF : Z := 9.
Definition EFAULT : Z := 14.
Definition EEXIST : Z := 17.
Definition EXDEV : Z := 18.
Definition ENOTDIR : Z := 20.
Definition EINVAL : Z := 22.
Definition EMFILE : Z := 24.
Definition ENOSPC : Z := 28.
Definition ENOSYS : Z := 38.

Definition O_RDONLY : Z := 0.
Definition O_WRONLY : Z := 1.
Definition O_CREAT : Z := 64.
Definition O_EXCL : Z := 128.
Definition O_TRUNC : Z := 512.
Definition O_CLOEXEC : Z := 524288.
Definition AT_FDCWD : Z := -100.
Definition AT_EMPTY_PATH : Z := 4096.

(** The flag words the shim passes to [open] and [openat]. *)
Definition excl_flags : Z :=
  Z.lor (Z.lor (Z.lor O_WRONLY O_CREAT) O_EXCL) O_CLOEXEC.

Definition trunc_flags : Z :=
  Z.lor (Z.lor (Z.lor O_WRONLY O_CREAT) O_TRUNC) O_CLOEXEC.

Definition rd_flags : Z := Z.lor O_RDONLY O_CLOEXEC.

(** A [const char *]: [None] is the null pointer. *)
Definition cstr : Type := option string.

(** ** The calls the shim makes

    [Dlsym name] is [dlsym(RTLD_NEXT, name)]; the [Real*] calls are calls
    through a resolved, non-null function pointer, that is, the genuine libc
    implementations.  [Sendfile] carries the value of [*offset] on entry. *)

Inductive syscall : Type :=
| Dlsym (name : string)
| Open (path : cstr) (flags mode : Z)
| Openat (dirfd : Z) (path : cstr) (flags mode : Z)
| Dup (fd : Z)
| Fstat (fd : Z)
| Sendfile (out_fd in_fd offset count : Z)
| Close (fd : Z)
| Unlink (path : cstr)
| Unlinkat (dirfd : Z) (path : cstr) (flags : Z)
| RealLink (oldpath newpath : cstr)
| RealLinkat (olddirfd : Z) (oldpath : cstr) (newdirfd : Z) (newpath : cstr) (flags : Z)
| RealRename (oldpath newpath : cstr)
| RealRenameat (olddirfd : Z) (oldpath : cstr) (newdirfd : Z) (newpath : cstr)
| RealRenameat2 (olddirfd : Z) (oldpath : cstr) (newdirfd : Z) (newpath : cstr) (flags : Z).

(** The part of [struct stat] the shim reads. *)
Record stat : Type := Stat { st_size : Z; st_mode : Z }.

(** What a call hands back: its return value, the value of [errno] when it
    returns, and its out-parameters ([struct stat] for [fstat], [*offset]
    for [sendfile]; ignored for the other calls). *)
Record reply : Type := Reply {
  r_ret : Z;
  r_errno : Z;
  r_stat : stat;
  r_off : Z
}.

Definition event : Type := (syscall * reply)%type.

(** An operating system: a type of worlds and the effect of each call, given
    the value of [errno] on entry. *)
Record OS : Type := MkOS {
  world : Type;
  exec : syscall -> Z -> world -> reply * world
}.

Inductive sym : Type := Slink | Slinkat | Srename | Srenameat | Srenameat2.

Definition sym_name (f : sym) : string :=
  match f with
  | Slink => "link"
  | Slinkat => "linkat"
  | Srename => "rename"
  | Srenameat => "renameat"
  | Srenameat2 => "renameat2"
  end.

(** ** Logs of calls *)

Definition is_close (ev : event) : bool :=
  match fst ev with Close _ => true | _ => false end.

Definition is_fstat (ev : event) : bool :=
  match fst ev with Fstat _ => true | _ => false end.

Definition is_sendfile (ev : event) : bool :=
  match fst ev with Sendfile _ _ _ _ => true | _ => false end.

Definition is_dlsym (f : sym) (ev : event) : bool :=
  match fst ev with Dlsym n => String.eqb n (sym_name f) | _ => false end.

Definition is_real (ev : event) : bool :=
  match fst ev with
  | RealLink _ _ | RealLinkat _ _ _ _ _ | RealRename _ _
  | RealRenameat _ _ _ _ | RealRenameat2 _ _ _ _ _ => true
  | _ => false
  end.

Definition is_loader (ev : event) : bool :=
  match fst ev with Dlsym _ => true | _ => false end.

(** The last call of a log that is not a [close]. *)
Definition last_step (evs : list event) : option event :=
  List.find (fun ev => negb (is_close ev)) (rev evs).

(** The call failed, as the shim tests it: a negative return value for the
    calls that return a descriptor or a count, a non-zero one otherwise. *)
Definition failed (ev : event) : bool :=
  match fst ev with
  | Open _ _ _ | Openat _ _ _ _ | Dup _ | Sendfile _ _ _ _ => r_ret (snd ev) <? 0
  | _ => negb (r_ret (snd ev) =? 0)
  end.

(** [errno] after the calls of [evs], when it was [e] before. *)
Definition errno_after (evs : list event) (e : Z) : Z :=
  List.last (List.map (fun ev => r_errno (snd ev)) evs) e.

(** The mode a call passes when it creates a file. *)
Definition creates (c : syscall) : option (Z * Z) :=
  match c with
  | Open _ fl m | Openat _ _ fl m =>
      if Z.land fl O_CREAT =? 0 then None else Some (fl, m)
  | _ => None
  end.

(** The call removes a name. *)
Definition is_unlink (ev : event) : bool :=
  match fst ev with Unlink _ | Unlinkat _ _ _ => true | _ => false end.

(** The call may create a file. *)
Definition is_create (ev : event) : bool :=
  match creates (fst ev) with Some _ => true | None => false end.

(** The descriptors a log closes, in order. *)
Definition closed_fds (evs : list event) : list Z :=
  flat_map (fun ev => match fst ev with Close fd => [fd] | _ => [] end) evs.

(** The descriptors a log obtains, in order: the results of the calls to
    [open], [openat] and [dup] that succeeded. *)
Definition opened_fds (evs : list event) : list Z :=
  flat_map (fun ev =>
              match fst ev with
              | Open _ _ _ | Openat _ _ _ _ | Dup _ =>
                  if r_ret (snd ev) <? 0 then [] else [r_ret (snd ev)]
              | _ => []
              end) evs.

(** The transfers of a copy that has [rem] bytes left at offset [off],
    answered by [rs]: each asks for what is left, at the offset the one
    before it reported. *)
Fixpoint transfers (dst src off rem : Z) (rs : list reply) : list event :=
  match rs with
  | [] => []
  | r :: rs' =>
      (Sendfile dst src off rem, r) :: transfers dst src (r_off r) (rem - r_ret r) rs'
  end.

(** What the calls of a log returned in total. *)
Definition returned (evs : list event) : Z :=
  fold_right Z.add 0 (List.map (fun ev => r_ret (snd ev)) evs).

(** *** Runs of the copy loop

    [copy_run src dst off rem evs res]: started with [offset = off] and
    [remaining = rem], the loop of [copy_fd] can make the calls [evs] and
    then return [res]; [None] is a loop still running when the fuel ends. *)
Inductive copy_run (src dst : Z) : Z -> Z -> list event -> option Z -> Prop :=
| copy_done off rem :
    rem <= 0 -> copy_run src dst off rem [] (Some 0)
| copy_unfinished off rem :
    0 < rem -> copy_run src dst off rem [] None
| copy_error off rem r :
    0 < rem -> r_ret r < 0 ->
    copy_run src dst off rem [(Sendfile dst src off rem, r)] (Some (-1))
| copy_more off rem r evs res :
    0 < rem -> 0 <= r_ret r ->
    copy_run src dst (r_off r) (rem - r_ret r) evs res ->
    copy_run src dst off rem ((Sendfile dst src off rem, r) :: evs) res.

Inductive copy_fd_run (src dst : Z) : list event -> option Z -> Prop :=
| stat_failed st :
    r_ret st <> 0 -> copy_fd_run src dst [(Fstat src, st)] (Some (-1))
| stat_ok st evs res :
    r_ret st = 0 ->
    copy_run src dst 0 (st_size (r_stat st)) evs res ->
    copy_fd_run src dst ((Fstat src, st) :: evs) res.

(** *** Runs of a copying path

    [skeleton_run ... evs res e]: the path can make the calls [evs] and then
    return [res] with [errno = e]. *)
Section Runs.

Variables (open_src : syscall) (removal : option syscall)
          (open_dst : Z -> syscall) (cleanup : option syscall).

(** The removal of the destination, and whether the path goes on after it. *)
Inductive removal_run : list event -> Prop :=
| removal_none : removal = None -> removal_run []
| removal_done c u :
    removal = Some c -> r_ret u = 0 \/ r_errno u = ENOENT -> removal_run [(c, u)].

(** The calls after [copy_fd] returned [res] with [errno = e]. *)
Inductive finish_run (src dst : Z) (e : Z) : option Z -> list event -> option Z -> Z -> Prop :=
| finish_unfinished : finish_run src dst e None [] None e
| finish_copy_failed r c1 c2 :
    r <> 0 ->
    finish_run src dst e (Some r) [(Close src, c1); (Close dst, c2)] (Some (-1)) e
| finish_plain c1 c2 :
    cleanup = None ->
    finish_run src dst e (Some 0) [(Close src, c1); (Close dst, c2)] (Some 0) (r_errno c2)
| finish_cleanup c c1 c2 u :
    cleanup = Some c ->
    finish_run src dst e (Some 0) [(Close src, c1); (Close dst, c2); (c, u)]
      (Some (if r_ret u =? 0 then 0 else -1)) (r_errno u).

Inductive skeleton_run : list event -> option Z -> Z -> Prop :=
| run_no_source o :
    r_ret o < 0 ->
    skeleton_run [(open_src, o)] (Some (-1)) (r_errno o)
| run_no_status o st cl :
    0 <= r_ret o -> r_ret st <> 0 ->
    skeleton_run [(open_src, o); (Fstat (r_ret o), st); (Close (r_ret o), cl)]
      (Some (-1)) (r_errno st)
| run_no_removal o st c u cl :
    0 <= r_ret o -> r_ret st = 0 ->
    removal = Some c -> r_ret u <> 0 -> r_errno u <> ENOENT ->
    skeleton_run [(open_src, o); (Fstat (r_ret o), st); (c, u); (Close (r_ret o), cl)]
      (Some (-1)) (r_errno u)
| run_no_dest o st rm d cl :
    0 <= r_ret o -> r_ret st = 0 -> removal_run rm -> r_ret d < 0 ->
    skeleton_run
      ([(open_src, o); (Fstat (r_ret o), st)] ++ rm
         ++ [(open_dst (Z.land (st_mode (r_stat st)) 511), d); (Close (r_ret o), cl)])
      (Some (-1)) (r_errno d)
| run_copy o st rm d cevs cres tl res e :
    0 <= r_ret o -> r_ret st = 0 -> removal_run rm -> 0 <= r_ret d ->
    copy_fd_run (r_ret o) (r_ret d) cevs cres ->
    finish_run (r_ret o) (r_ret d) (errno_after cevs (r_errno d)) cres tl res e ->
    skeleton_run
      ([(open_src, o); (Fstat (r_ret o), st)] ++ rm
         ++ [(open_dst (Z.land (st_mode (r_stat st)) 511), d)] ++ cevs ++ tl)
      res e.

End Runs.

(** The five copying paths: the four fallback functions and the copy in the
    body of [linkat]. *)
Inductive path : Type :=
| CopyFromPath (oldpath newpath : cstr)
| CopyFromFd (src_fd_in newdirfd : Z) (newpath : cstr)
| CopyAt (olddirfd : Z) (oldpath : cstr) (newdirfd : Z) (newpath : cstr)
| MoveFromPath (oldpath newpath : cstr)
| MoveAt (olddirfd : Z) (oldpath : cstr) (newdirfd : Z) (newpath : cstr).

(** The calls that make up a copying path: how it opens the source, how it
    removes the destination first (if it does), how it creates the
    destination given a mode, and how it removes the source at the end (if
    it does). *)
Definition opens_source (p : path) : syscall :=
  match p with
  | CopyFromPath o _ | MoveFromPath o _ => Open o rd_flags 0
  | CopyFromFd fd _ _ => Dup fd
  | CopyAt od o _ _ | MoveAt od o _ _ => Openat od o rd_flags 0
  end.

Definition removes_dest (p : path) : option syscall :=
  match p with
  | MoveFromPath _ n => Some (Unlink n)
  | MoveAt _ _ nd n => Some (Unlinkat nd n 0)
  | _ => None
  end.

Definition opens_dest (p : path) : Z -> syscall :=
  match p with
  | CopyFromPath _ n => Open n excl_flags
  | CopyFromFd _ nd n | CopyAt _ _ nd n => Openat nd n excl_flags
  | MoveFromPath _ n => Open n trunc_flags
  | MoveAt _ _ nd n => Openat nd n trunc_flags
  end.

Definition removes_source (p : path) : option syscall :=
  match p with
  | MoveFromPath o _ => Some (Unlink o)
  | MoveAt od o _ _ => Some (Unlinkat od o 0)
  | _ => None
  end.

(** The runs of the path [p]. *)
Definition path_run (p : path) : list event -> option Z -> Z -> Prop :=
  skeleton_run (opens_source p) (removes_dest p) (opens_dest p) (removes_source p).

Declare Scope shim_scope.
Delimit Scope shim_scope with shim.

Section Shim.

Context (K : OS).

(** ** Process state

    [real_link] ... [real_renameat2] are the function-static pointers of the
    five entry points (0 is NULL); [trace] logs every call with its reply,
    oldest first. *)
Record state : Type := State {
  errno : Z;
  kernel : world K;
  trace : list event;
  real_link : Z;
  real_linkat : Z;
  real_rename : Z;
  real_renameat : Z;
  real_renameat2 : Z
}.

(** A run either returns, attempts the call [c] through a null function
    pointer (undefined behaviour), or exhausts the fuel given to the copy
    loop; each outcome carries the state reached. *)
Inductive outcome (A : Type) : Type :=
| Ret (a : A) (s : state)
| Fault (c : syscall) (s : state)
| Timeout (s : state).

Arguments Ret {A} a s.
Arguments Fault {A} c s.
Arguments Timeout {A} s.

Definition M (A : Type) : Type := state -> outcome A.

Definition ret {A} (a : A) : M A := fun s => Ret a s.

Definition bind {A B} (m : M A) (k : A -> M B) : M B :=
  fun s =>
    match m s with
    | Ret a s' => k a s'
    | Fault c s' => Fault c s'
    | Timeout s' => Timeout s'
    end.

Notation "x <- m ;; k" := (bind m (fun x => k))
  (at level 100, m at next level, right associativity) : shim_scope.
Notation "m ;; k" := (bind m (fun _ => k))
  (at level 100, right associativity) : shim_scope.
Local Open Scope shim_scope.

Definition get_errno : M Z := fun s => Ret (errno s) s.

Definition with_errno (e : Z) (s : state) : state :=
  State e (kernel s) (trace s) (real_link s) (real_linkat s) (real_rename s)
        (real_renameat s) (real_renameat2 s).

Definition set_errno (e : Z) : M unit := fun s => Ret tt (with_errno e s).

(** One libc call: run it in the kernel, store the [errno] it leaves and log
    it. *)
Definition after_call (c : syscall) (s : state) : reply * state :=
  let (r, w) := exec K c (errno s) (kernel s) in
  (r, State (r_errno r) w (trace s ++ [(c, r)]) (real_link s) (real_linkat s)
            (real_rename s) (real_renameat s) (real_renameat2 s)).

Definition libc (c : syscall) : M reply :=
  fun s => let (r, s') := after_call c s in Ret r s'.

Definition static (f : sym) (s : state) : Z :=
  match f with
  | Slink => real_link s
  | Slinkat => real_linkat s
  | Srename => real_rename s
  | Srenameat => real_renameat s
  | Srenameat2 => real_renameat2 s
  end.

Definition with_static (f : sym) (p : Z) (s : state) : state :=
  match f with
  | Slink => State (errno s) (kernel s) (trace s) p (real_linkat s) (real_rename s) (real_renameat s) (real_renameat2 s)
  | Slinkat => State (errno s) (kernel s) (trace s) (real_link s) p (real_rename s) (real_renameat s) (real_renameat2 s)
  | Srename => State (errno s) (kernel s) (trace s) (real_link s) (real_linkat s) p (real_renameat s) (real_renameat2 s)
  | Srenameat => State (errno s) (kernel s) (trace s) (real_link s) (real_linkat s) (real_rename s) p (real_renameat2 s)
  | Srenameat2 => State (errno s) (kernel s) (trace s) (real_link s) (real_linkat s) (real_rename s) (real_renameat s) p
  end.

(** [if (!real_f) { real_f = dlsym(RTLD_NEXT, "f"); }], yielding [real_f]. *)
Definition resolve (f : sym) : M Z :=
  fun s =>
    if static f s =? 0 then
      let (r, s') := after_call (Dlsym (sym_name f)) s in
      Ret (r_ret r) (with_static f (r_ret r) s')
    else Ret (static f s) s.

(** [real_f(args)]: a call through the pointer [p]. *)
Definition call_real (p : Z) (c : syscall) : M Z :=
  if p =? 0 then (fun s => Fault c s) else (r <- libc c ;; ret (r_ret r)).

(** ** copy_fd *)

(** The [while (remaining > 0)] loop; [offset] is the local the kernel
    updates through [&offset].  Each iteration uses one unit of fuel. *)
Fixpoint copy_loop (fuel : nat) (src_fd dst_fd offset remaining : Z) : M Z :=
  if remaining >? 0 then
    match fuel with
    | O => fun s => Timeout s
    | S fuel' =>
        r <- libc (Sendfile dst_fd src_fd offset remaining) ;;
        let sent := r_ret r in
        if sent <? 0 then ret (-1)
        else copy_loop fuel' src_fd dst_fd (r_off r) (remaining - sent)
    end
  else ret 0.

Definition copy_fd (fuel : nat) (src_fd dst_fd : Z) : M Z :=
  st <- libc (Fstat src_fd) ;;
  if negb (r_ret st =? 0) then ret (-1)
  else copy_loop fuel src_fd dst_fd 0 (st_size (r_stat st)).

(** [int saved = errno; close(fd); errno = saved; return -1;] *)
Definition close_keeping_errno (fd : Z) : M Z :=
  saved <- get_errno ;;
  libc (Close fd) ;;
  set_errno saved ;;
  ret (-1).

(** The common tail of the four copying paths:
    [result = copy_fd(..); saved = errno; close(src); close(dst);
     if (result != 0) { errno = saved; return -1; }], continuing with [k]. *)
Definition copy_and_close (fuel : nat) (src_fd dst_fd : Z) (k : M Z) : M Z :=
  result <- copy_fd fuel src_fd dst_fd ;;
  saved <- get_errno ;;
  libc (Close src_fd) ;;
  libc (Close dst_fd) ;;
  if negb (result =? 0) then set_errno saved ;; ret (-1)
  else k.

(** ** The fallbacks *)

Definition fallback_copy_from_path (fuel : nat) (oldpath newpath : cstr) : M Z :=
  o <- libc (Open oldpath rd_flags 0) ;;
  let src_fd := r_ret o in
  if src_fd <? 0 then ret (-1) else
  st <- libc (Fstat src_fd) ;;
  if negb (r_ret st =? 0) then close_keeping_errno src_fd else
  d <- libc (Open newpath excl_flags (Z.land (st_mode (r_stat st)) 511)) ;;
  let dst_fd := r_ret d in
  if dst_fd <? 0 then close_keeping_errno src_fd else
  copy_and_close fuel src_fd dst_fd (ret 0).

Definition fallback_copy_from_fd (fuel : nat) (src_fd_in newdirfd : Z) (newpath : cstr) : M Z :=
  o <- libc (Dup src_fd_in) ;;
  let src_fd := r_ret o in
  if src_fd <? 0 then ret (-1) else
  st <- libc (Fstat src_fd) ;;
  if negb (r_ret st =? 0) then close_keeping_errno src_fd else
  d <- libc (Openat newdirfd newpath excl_flags (Z.land (st_mode (r_stat st)) 511)) ;;
  let dst_fd := r_ret d in
  if dst_fd <? 0 then close_keeping_errno src_fd else
  copy_and_close fuel src_fd dst_fd (ret 0).

Definition fallback_move_from_path (fuel : nat) (oldpath newpath : cstr) : M Z :=
  o <- libc (Open oldpath rd_flags 0) ;;
  let src_fd := r_ret o in
  if src_fd <? 0 then ret (-1) else
  st <- libc (Fstat src_fd) ;;
  if negb (r_ret st =? 0) then close_keeping_errno src_fd else
  u <- libc (Unlink newpath) ;;
  e <- get_errno ;;
  if negb (r_ret u =? 0) && negb (e =? ENOENT) then close_keeping_errno src_fd else
  d <- libc (Open newpath trunc_flags (Z.land (st_mode (r_stat st)) 511)) ;;
  let dst_fd := r_ret d in
  if dst_fd <? 0 then close_keeping_errno src_fd else
  copy_and_close fuel src_fd dst_fd
    (u' <- libc (Unlink oldpath) ;;
     if negb (r_ret u' =? 0) then ret (-1) else ret 0).

Definition fallback_move_at (fuel : nat) (olddirfd : Z) (oldpath : cstr)
    (newdirfd : Z) (newpath : cstr) : M Z :=
  o <- libc (Openat olddirfd oldpath rd_flags 0) ;;
  let src_fd := r_ret o in
  if src_fd <? 0 then ret (-1) else
  st <- libc (Fstat src_fd) ;;
  if negb (r_ret st =? 0) then close_keeping_errno src_fd else
  u <- libc (Unlinkat newdirfd newpath 0) ;;
  e <- get_errno ;;
  if negb (r_ret u =? 0) && negb (e =? ENOENT) then close_keeping_errno src_fd else
  d <- libc (Openat newdirfd newpath trunc_flags (Z.land (st_mode (r_stat st)) 511)) ;;
  let dst_fd := r_ret d in
  if dst_fd <? 0 then close_keeping_errno src_fd else
  copy_and_close fuel src_fd dst_fd
    (u' <- libc (Unlinkat olddirfd oldpath 0) ;;
     if negb (r_ret u' =? 0) then ret (-1) else ret 0).

(** ** The entry points *)

(** The genuine implementation of [f], called as the entry points call it:
    resolve the pointer, then call through it. *)
Definition genuine (f : sym) (c : syscall) : M Z :=
  p <- resolve f ;;
  call_real p c.

(** [result == 0 || errno != EXDEV] *)
Definition passes_through (result e : Z) : bool :=
  (result =? 0) || negb (e =? EXDEV).

(** [!oldpath || oldpath[0] == '\0'] *)
Definition null_or_empty (p : cstr) : bool :=
  match p with
  | None => true
  | Some EmptyString => true
  | Some (String _ _) => false
  end.

Definition link (fuel : nat) (oldpath newpath : cstr) : M Z :=
  p <- resolve Slink ;;
  result <- call_real p (RealLink oldpath newpath) ;;
  e <- get_errno ;;
  if passes_through result e then ret result
  else fallback_copy_from_path fuel oldpath newpath.

(** The rest of [linkat] once the descriptor-direct case is ruled out: the
    copy written out in the body of [linkat] itself, with both paths taken
    relative to their directory descriptors. *)
Definition linkat_copy (fuel : nat) (olddirfd : Z) (oldpath : cstr) (newdirfd : Z)
    (newpath : cstr) : M Z :=
  o <- libc (Openat olddirfd oldpath rd_flags 0) ;;
  let src_fd := r_ret o in
  if src_fd <? 0 then ret (-1) else
  st <- libc (Fstat src_fd) ;;
  if negb (r_ret st =? 0) then close_keeping_errno src_fd else
  d <- libc (Openat newdirfd newpath excl_flags (Z.land (st_mode (r_stat st)) 511)) ;;
  let dst_fd := r_ret d in
  if dst_fd <? 0 then close_keeping_errno src_fd else
  copy_and_close fuel src_fd dst_fd (ret 0).

Definition linkat (fuel : nat) (olddirfd : Z) (oldpath : cstr) (newdirfd : Z)
    (newpath : cstr) (flags : Z) : M Z :=
  p <- resolve Slinkat ;;
  result <- call_real p (RealLinkat olddirfd oldpath newdirfd newpath flags) ;;
  e <- get_errno ;;
  if passes_through result e then ret result else
  if negb (Z.land flags AT_EMPTY_PATH =? 0) && null_or_empty oldpath
  then fallback_copy_from_fd fuel olddirfd newdirfd newpath
  else linkat_copy fuel olddirfd oldpath newdirfd newpath.

Definition rename (fuel : nat) (oldpath newpath : cstr) : M Z :=
  p <- resolve Srename ;;
  result <- call_real p (RealRename oldpath newpath) ;;
  e <- get_errno ;;
  if passes_through result e then ret result
  else fallback_move_from_path fuel oldpath newpath.

Definition renameat (fuel : nat) (olddirfd : Z) (oldpath : cstr) (newdirfd : Z)
    (newpath : cstr) : M Z :=
  p <- resolve Srenameat ;;
  result <- call_real p (RealRenameat olddirfd oldpath newdirfd newpath) ;;
  e <- get_errno ;;
  if passes_through result e then ret result
  else fallback_move_at fuel olddirfd oldpath newdirfd newpath.

Definition renameat2 (fuel : nat) (olddirfd : Z) (oldpath : cstr) (newdirfd : Z)
    (newpath : cstr) (flags : Z) : M Z :=
  p <- resolve Srenameat2 ;;
  if p =? 0 then
    if flags =? 0 then renameat fuel olddirfd oldpath newdirfd newpath
    else set_errno ENOSYS ;; ret (-1)
  else
  result <- call_real p (RealRenameat2 olddirfd oldpath newdirfd newpath flags) ;;
  e <- get_errno ;;
  if passes_through result e then ret result else
  if negb (flags =? 0) then ret result
  else fallback_move_at fuel olddirfd oldpath newdirfd newpath.

(** An invocation of one of the five overridden names. *)
Inductive invocation : Type :=
| CallLink (oldpath newpath : cstr)
| CallLinkat (olddirfd : Z) (oldpath : cstr) (newdirfd : Z) (newpath : cstr) (flags : Z)
| CallRename (oldpath newpath : cstr)
| CallRenameat (olddirfd : Z) (oldpath : cstr) (newdirfd : Z) (newpath : cstr)
| CallRenameat2 (olddirfd : Z) (oldpath : cstr) (newdirfd : Z) (newpath : cstr) (flags : Z).

Definition entry_of (c : invocation) : sym :=
  match c with
  | CallLink _ _ => Slink
  | CallLinkat _ _ _ _ _ => Slinkat
  | CallRename _ _ => Srename
  | CallRenameat _ _ _ _ => Srenameat
  | CallRenameat2 _ _ _ _ _ => Srenameat2
  end.

(** The call to the genuine implementation an invocation stands for. *)
Definition real_of (c : invocation) : syscall :=
  match c with
  | CallLink o n => RealLink o n
  | CallLinkat od o nd n fl => RealLinkat od o nd n fl
  | CallRename o n => RealRename o n
  | CallRenameat od o nd n => RealRenameat od o nd n
  | CallRenameat2 od o nd n fl => RealRenameat2 od o nd n fl
  end.

(** The copying path an invocation falls back to when its genuine call
    fails with [EXDEV]; [renameat2] with flags has none. *)
Definition fallback_of (c : invocation) : option path :=
  match c with
  | CallLink o n => Some (CopyFromPath o n)
  | CallLinkat od o nd n fl =>
      if negb (Z.land fl AT_EMPTY_PATH =? 0) && null_or_empty o
      then Some (CopyFromFd od nd n)
      else Some (CopyAt od o nd n)
  | CallRename o n => Some (MoveFromPath o n)
  | CallRenameat od o nd n => Some (MoveAt od o nd n)
  | CallRenameat2 od o nd n fl =>
      if negb (fl =? 0) then None else Some (MoveAt od o nd n)
  end.

Definition invoke (fuel : nat) (c : invocation) : M Z :=
  match c with
  | CallLink o n => link fuel o n
  | CallLinkat od o nd n fl => linkat fuel od o nd n fl
  | CallRename o n => rename fuel o n
  | CallRenameat od o nd n => renameat fuel od o nd n
  | CallRenameat2 od o nd n fl => renameat2 fuel od o nd n fl
  end.

(** The state an outcome ends in. *)
Definition final {A} (o : outcome A) : state :=
  match o with
  | Ret _ s => s
  | Fault _ s => s
  | Timeout s => s
  end.

(** What a run returned, if it did. *)
Definition result {A} (o : outcome A) : option A :=
  match o with
  | Ret a _ => Some a
  | _ => None
  end.

(** ** The shape shared by the five copying paths

    [fallback_copy_from_path], [fallback_copy_from_fd], [fallback_move_from_path],
    [fallback_move_at] and the copy in [linkat] are one sequence of steps
    that differs in the call that opens the source, in whether the
    destination is removed first, in the call that creates the destination,
    and in whether the source is removed at the end. *)
Definition copy_skeleton (fuel : nat) (open_src : syscall) (removal : option syscall)
    (open_dst : Z -> syscall) (cleanup : option syscall) : M Z :=
  o <- libc open_src ;;
  let src_fd := r_ret o in
  if src_fd <? 0 then ret (-1) else
  st <- libc (Fstat src_fd) ;;
  if negb (r_ret st =? 0) then close_keeping_errno src_fd else
  let create :=
    d <- libc (open_dst (Z.land (st_mode (r_stat st)) 511)) ;;
    let dst_fd := r_ret d in
    if dst_fd <? 0 then close_keeping_errno src_fd else
    copy_and_close fuel src_fd dst_fd
      match cleanup with
      | Some c => u' <- libc c ;; if negb (r_ret u' =? 0) then ret (-1) else ret 0
      | None => ret 0
      end in
  match removal with
  | Some c =>
      u <- libc c ;;
      e <- get_errno ;;
      if negb (r_ret u =? 0) && negb (e =? ENOENT) then close_keeping_errno src_fd
      else create
  | None => create
  end.

Definition run_path (fuel : nat) (p : path) : M Z :=
  match p with
  | CopyFromPath o n => fallback_copy_from_path fuel o n
  | CopyFromFd fd nd n => fallback_copy_from_fd fuel fd nd n
  | CopyAt od o nd n => linkat_copy fuel od o nd n
  | MoveFromPath o n => fallback_move_from_path fuel o n
  | MoveAt od o nd n => fallback_move_at fuel od o nd n
  end.

(** The reply to the call [c] made in state [s], and the state after it. *)
Definition reply_of (c : syscall) (s : state) : reply := fst (after_call c s).
Definition next (c : syscall) (s : state) : state := snd (after_call c s).

(** An outcome that is not a call through a null pointer. *)
Definition no_fault {A} (o : outcome A) : Prop :=
  match o with Fault _ _ => False | _ => True end.

(** The outcome [o] of a copying path started in [s] follows [skeleton_run]:
    it logged a run of the path after the log of [s], returned what the run
    returns with the [errno] of the run, and left the static pointers alone. *)
Definition follows (open_src : syscall) (removal : option syscall)
    (open_dst : Z -> syscall) (cleanup : option syscall) (s : state)
    (o : outcome Z) : Prop :=
  exists evs,
    skeleton_run open_src removal open_dst cleanup evs (result o) (errno (final o)) /\
    trace (final o) = trace s ++ evs /\
    (forall f, static f (final o) = static f s) /\
    no_fault o.

(** The entry points that call through their pointer without testing it. *)
Definition simple (i : invocation) : Prop :=
  match i with CallRenameat2 _ _ _ _ _ => False | _ => True end.

(** The log of an invocation of a simple entry point: the loader query, if
    the pointer was null, then calls that are not loader queries. *)
Definition log_law (fuel : nat) (i : invocation) (s : state) : Prop :=
  exists q rest,
    trace (final (invoke fuel i s)) = trace s ++ q ++ rest /\
    Forall (fun ev => is_loader ev = false) rest /\
    (static (entry_of i) s <> 0 ->
       q = [] /\ forall g, static g (final (invoke fuel i s)) = static g s) /\
    (static (entry_of i) s = 0 ->
       exists d, q = [(Dlsym (sym_name (entry_of i)), d)] /\
         static (entry_of i) (final (invoke fuel i s)) = r_ret d /\
         forall g, g <> entry_of i -> static g (final (invoke fuel i s)) = static g s).

End Shim.

Arguments errno {K} s.
Arguments kernel {K} s.
Arguments trace {K} s.
Arguments real_link {K} s.
Arguments real_linkat {K} s.
Arguments real_rename {K} s.
Arguments real_renameat {K} s.
Arguments real_renameat2 {K} s.
Arguments State {K}.
Arguments Ret {K A} a s.
Arguments Fault {K A} c s.
Arguments Timeout {K A} s.
Arguments static {K} f s.
Arguments with_static {K} f p s.
Arguments with_errno {K} e s.
Arguments final {K A} o.
Arguments result {K A} o.
Arguments no_fault {K A} o.

(** ** A scripted operating system

    The adversarial environment: the replies are fixed in advance, whatever
    the calls are; the [n]-th call made gets [replies n]. *)
Module Scripted.

Record tape : Type := Tape { replies : nat -> reply; pos : nat }.

Definition step (c : syscall) (e : Z) (w : tape) : reply * tape :=
  (replies w (pos w), Tape (replies w) (S (pos w))).

Definition os : OS := MkOS tape step.

Definition boot (f : nat -> reply) : state os := @State os 0 (Tape f O) [] 0 0 0 0 0.

(** A reply that returns [v] and leaves [errno] at [e]. *)
Definition says (v e : Z) : reply := Reply v e (Stat 0 0) 0.

(** The reply of an [fstat] that succeeds with the given size and mode. *)
Definition stats (size mode : Z) : reply := Reply 0 0 (Stat size mode) 0.

(** The reply of a [sendfile] that moves [n] bytes and leaves [*offset] at [off]. *)
Definition sends (n off : Z) : reply := Reply n 0 (Stat 0 0) off.

(** The replies of [l], then [idle] for ever. *)
Definition then_idle (l : list reply) (idle : reply) : nat -> reply :=
  fun n => nth n l idle.

(** What the transfers numbered [0 .. k-1] moved in total, on a tape whose
    first reply answers the [fstat] of [copy_fd]. *)
Fixpoint moved (f : nat -> reply) (k : nat) : Z :=
  match k with
  | O => 0
  | S k' => moved f k' + r_ret (f (S k'))
  end.

(** The copy loop run on the tape from reply [n] on, as a function of the
    replies alone. *)
Fixpoint loop_on (f : nat -> reply) (fuel : nat) (n : nat) (rem : Z) : option Z :=
  if rem >? 0 then
    match fuel with
    | O => None
    | S fuel' =>
        if r_ret (f n) <? 0 then Some (-1)
        else loop_on f fuel' (S n) (rem - r_ret (f n))
    end
  else Some 0.

(** The copy loop has a reason to stop at its [k]-th test: nothing remains,
    or transfer [k] reports an error. *)
Definition stops (f : nat -> reply) (k : nat) : Prop :=
  st_size (r_stat (f O)) - moved f k <= 0 \/ r_ret (f (S k)) < 0.

(** A source whose size is reported as 1 and every transfer from which moves
    nothing. *)
Definition stalled : nat -> reply := then_idle [stats 1 33188] (sends 0 0).

(** A source that another process truncates from 10 bytes to 3 between the
    two status queries of a copy: the replies to [open] (descriptor 3),
    [fstat], [open] (descriptor 4), [fstat], [sendfile] and the closes. *)
Definition shrinking : nat -> reply :=
  then_idle [says 3 0; stats 10 33188; says 4 0; stats 3 33188; sends 3 3] (says 0 0).

(** A source of five bytes copied in two transfers, of two and of three
    bytes: the replies to the [fstat] of [copy_fd] and to its transfers. *)
Definition two_transfers : nat -> reply :=
  then_idle [stats 5 33188; sends 2 2; sends 3 5] (says 0 0).

End Scripted.

(** ** A reference file system

    A model of the kernel the shim talks to: a flat name space of regular
    files spread over several mounted devices, inodes that outlive their
    names while a descriptor refers to them, descriptors that share an open
    file description after [dup], a umask, and a plan of transient faults
    and short transfers imposed on the coming calls. *)
Module MemFS.

Record inode : Type := Inode {
  i_dev : nat;
  i_mode : Z;
  i_data : list Byte.byte
}.

(** An open file description. *)
Inductive ofile : Type :=
| OFile (ino : nat) (pos : Z) (flags : Z)
| ODir (dir : string).

Record fs : Type := Fs {
  names : gmap string nat;
  inodes : gmap nat inode;
  fds : gmap nat nat;
  ofds : gmap nat ofile;
  cwd : string;
  mounts : list (string * nat);
  umask : Z;
  symbols : list string
}.

Definition with_names (n : gmap string nat) (w : fs) : fs :=
  Fs n (inodes w) (fds w) (ofds w) (cwd w) (mounts w) (umask w) (symbols w).
Definition with_inodes (n : gmap nat inode) (w : fs) : fs :=
  Fs (names w) n (fds w) (ofds w) (cwd w) (mounts w) (umask w) (symbols w).
Definition with_fds (n : gmap nat nat) (w : fs) : fs :=
  Fs (names w) (inodes w) n (ofds w) (cwd w) (mounts w) (umask w) (symbols w).
Definition with_ofds (n : gmap nat ofile) (w : fs) : fs :=
  Fs (names w) (inodes w) (fds w) n (cwd w) (mounts w) (umask w) (symbols w).

Definition S_IFREG : Z := 32768.
Definition S_IFDIR : Z := 16384.
Definition O_ACCMODE : Z := 3.
Definition RENAME_NOREPLACE : Z := 1.
Definition RENAME_EXCHANGE : Z := 2.
(** The most one [sendfile] moves on Linux. *)
Definition MAX_RW_COUNT : Z := 2147479552.

Definition has (flags bit : Z) : bool := negb (Z.land flags bit =? 0).
Definition readable (flags : Z) : bool := negb (Z.land flags O_ACCMODE =? O_WRONLY).
Definition writable (flags : Z) : bool := negb (Z.land flags O_ACCMODE =? O_RDONLY).

Definition fail (err : Z) (w : fs) : reply * fs := (Reply (-1) err (Stat 0 0) 0, w).
Definition ok (v e : Z) (w : fs) : reply * fs := (Reply v e (Stat 0 0) 0, w).

Definition ofd_of (w : fs) (fd : Z) : option nat :=
  if fd <? 0 then None else fds w !! Z.to_nat fd.

Definition file_of (w : fs) (fd : Z) : option ofile :=
  match ofd_of w fd with
  | Some a => ofds w !! a
  | None => None
  end.

(** The device a path lives on: that of the first mount point that is a
    prefix of it, the root device 0 otherwise. *)
Definition dev_of (w : fs) (path : string) : nat :=
  match List.find (fun m => String.prefix (fst m) path) (mounts w) with
  | Some m => snd m
  | None => O
  end.

(** The absolute name of [path] taken relative to [dirfd]. *)
Definition at_path (w : fs) (dirfd : Z) (path : cstr) : Z + string :=
  match path with
  | None => inl EFAULT
  | Some EmptyString => inl ENOENT
  | Some (String c _ as p) =>
      if Ascii.eqb c "/"%char then inr p
      else if dirfd =? AT_FDCWD then inr (cwd w ++ "/" ++ p)%string
      else match file_of w dirfd with
           | Some (ODir d) => inr (d ++ "/" ++ p)%string
           | Some (OFile _ _ _) => inl ENOTDIR
           | None => inl EBADF
           end
  end.

(** A new descriptor on a new open file description. *)
Definition install (o : ofile) (e : Z) (w : fs) : reply * fs :=
  let a := fresh (dom (ofds w)) in
  let fd := fresh (dom (fds w)) in
  ok (Z.of_nat fd) e (with_fds (<[fd := a]> (fds w)) (with_ofds (<[a := o]> (ofds w)) w)).

Definition k_openat (dirfd : Z) (path : cstr) (flags mode : Z) (e : Z) (w : fs) : reply * fs :=
  match at_path w dirfd path with
  | inl err => fail err w
  | inr p =>
      match names w !! p with
      | Some i =>
          match inodes w !! i with
          | None => fail EIO w
          | Some nd =>
              if has flags O_CREAT && has flags O_EXCL then fail EEXIST w
              else if has flags O_TRUNC && writable flags then
                install (OFile i 0 flags) e
                  (with_inodes (<[i := Inode (i_dev nd) (i_mode nd) []]> (inodes w)) w)
              else install (OFile i 0 flags) e w
          end
      | None =>
          if has flags O_CREAT then
            let i := fresh (dom (inodes w)) in
            let m := Z.land (Z.land mode (Z.lnot (umask w))) 4095 in
            install (OFile i 0 flags) e
              (with_names (<[p := i]> (names w))
                 (with_inodes (<[i := Inode (dev_of w p) m []]> (inodes w)) w))
          else fail ENOENT w
      end
  end.

Definition k_dup (fd : Z) (e : Z) (w : fs) : reply * fs :=
  match ofd_of w fd with
  | Some a =>
      let fd' := fresh (dom (fds w)) in
      ok (Z.of_nat fd') e (with_fds (<[fd' := a]> (fds w)) w)
  | None => fail EBADF w
  end.

Definition k_fstat (fd : Z) (e : Z) (w : fs) : reply * fs :=
  match file_of w fd with
  | Some (OFile i _ _) =>
      match inodes w !! i with
      | Some nd =>
          (Reply 0 e (Stat (Z.of_nat (length (i_data nd))) (Z.lor S_IFREG (i_mode nd))) 0, w)
      | None => fail EIO w
      end
  | Some (ODir _) => (Reply 0 e (Stat 4096 (Z.lor S_IFDIR 493)) 0, w)
  | None => fail EBADF w
  end.

Definition k_close (fd : Z) (e : Z) (w : fs) : reply * fs :=
  match ofd_of w fd with
  | Some _ => ok 0 e (with_fds (delete (Z.to_nat fd) (fds w)) w)
  | None => fail EBADF w
  end.

Definition k_unlinkat (dirfd : Z) (path : cstr) (e : Z) (w : fs) : reply * fs :=
  match at_path w dirfd path with
  | inl err => fail err w
  | inr p =>
      match names w !! p with
      | Some _ => ok 0 e (with_names (delete p (names w)) w)
      | None => fail ENOENT w
      end
  end.

(** [data] with [bytes] written at position [pos], zero-filled when [pos] is
    past the end. *)
Definition write_at (pos : nat) (bytes data : list Byte.byte) : list Byte.byte :=
  take pos data ++ replicate (pos - length data)%nat Byte.x00 ++ bytes
    ++ drop (pos + length bytes)%nat data.

(** [sendfile(out_fd, in_fd, &offset, count)] moving at most [limit] bytes:
    it reads at [offset], leaving the position of [in_fd] alone, and writes
    at the position of [out_fd], which it advances. *)
Definition k_sendfile (limit out_fd in_fd offset count : Z) (e : Z) (w : fs) : reply * fs :=
  match file_of w in_fd, ofd_of w out_fd with
  | Some (OFile i _ fl_in), Some b =>
      match ofds w !! b with
      | Some (OFile j pos fl_out) =>
          if negb (readable fl_in) || negb (writable fl_out) then fail EBADF w
          else if offset <? 0 then fail EINVAL w
          else
            match inodes w !! i, inodes w !! j with
            | Some src, Some dst =>
                let avail := Z.of_nat (length (i_data src)) - offset in
                let n := Z.max 0 (Z.min (Z.min count avail) limit) in
                let bytes := take (Z.to_nat n) (drop (Z.to_nat offset) (i_data src)) in
                let dst' := Inode (i_dev dst) (i_mode dst)
                              (write_at (Z.to_nat pos) bytes (i_data dst)) in
                (Reply n e (Stat 0 0) (offset + n),
                 with_inodes (<[j := dst']> (inodes w))
                   (with_ofds (<[b := OFile j (pos + n) fl_out]> (ofds w)) w))
            | _, _ => fail EIO w
            end
      | _ => fail EBADF w
      end
  | Some (ODir _), _ => fail EINVAL w
  | _, _ => fail EBADF w
  end.

(** The loader: a symbol the next object defines gets a non-null address. *)
Definition k_dlsym (name : string) (e : Z) (w : fs) : reply * fs :=
  match list_find (fun n => n = name) (symbols w) with
  | Some (k, _) => ok (4096 + Z.of_nat k) e w
  | None => ok 0 e w
  end.

(** The inode a genuine [linkat] links, with the device it is on. *)
Definition link_source (w : fs) (olddirfd : Z) (oldpath : cstr) (flags : Z) : Z + nat * nat :=
  if has flags AT_EMPTY_PATH && null_or_empty oldpath then
    match file_of w olddirfd with
    | Some (OFile i _ _) =>
        match inodes w !! i with
        | Some nd => inr (i, i_dev nd)
        | None => inl EIO
        end
    | Some (ODir _) => inl 1
    | None => inl EBADF
    end
  else
    match at_path w olddirfd oldpath with
    | inl err => inl err
    | inr p =>
        match names w !! p with
        | Some i => inr (i, dev_of w p)
        | None => inl ENOENT
        end
    end.

Definition k_linkat (olddirfd : Z) (oldpath : cstr) (newdirfd : Z) (newpath : cstr)
    (flags : Z) (e : Z) (w : fs) : reply * fs :=
  match link_source w olddirfd oldpath flags with
  | inl err => fail err w
  | inr (i, d) =>
      match at_path w newdirfd newpath with
      | inl err => fail err w
      | inr p =>
          match names w !! p with
          | Some _ => fail EEXIST w
          | None =>
              if bool_decide (d = dev_of w p)
              then ok 0 e (with_names (<[p := i]> (names w)) w)
              else fail EXDEV w
          end
      end
  end.

Definition k_renameat2 (olddirfd : Z) (oldpath : cstr) (newdirfd : Z) (newpath : cstr)
    (flags : Z) (e : Z) (w : fs) : reply * fs :=
  if negb ((flags =? 0) || (flags =? RENAME_NOREPLACE) || (flags =? RENAME_EXCHANGE))
  then fail EINVAL w else
  match at_path w olddirfd oldpath, at_path w newdirfd newpath with
  | inl err, _ => fail err w
  | _, inl err => fail err w
  | inr po, inr pn =>
      if negb (bool_decide (dev_of w po = dev_of w pn)) then fail EXDEV w else
      match names w !! po, names w !! pn with
      | None, _ => fail ENOENT w
      | Some i, None =>
          if flags =? RENAME_EXCHANGE then fail ENOENT w
          else ok 0 e (with_names (<[pn := i]> (delete po (names w))) w)
      | Some i, Some j =>
          if flags =? RENAME_NOREPLACE then fail EEXIST w
          else if flags =? RENAME_EXCHANGE
          then ok 0 e (with_names (<[pn := i]> (<[po := j]> (names w))) w)
          else if bool_decide (i = j) then ok 0 e w
          else ok 0 e (with_names (<[pn := i]> (delete po (names w))) w)
      end
  end.

(** One call on the files, moving at most [limit] bytes if it is a [sendfile]. *)
Definition run (c : syscall) (limit : Z) (e : Z) (w : fs) : reply * fs :=
  match c with
  | Dlsym name => k_dlsym name e w
  | Open p fl m => k_openat AT_FDCWD p fl m e w
  | Openat dfd p fl m => k_openat dfd p fl m e w
  | Dup fd => k_dup fd e w
  | Fstat fd => k_fstat fd e w
  | Sendfile o i off n => k_sendfile limit o i off n e w
  | Close fd => k_close fd e w
  | Unlink p => k_unlinkat AT_FDCWD p e w
  | Unlinkat dfd p _ => k_unlinkat dfd p e w
  | RealLink o n => k_linkat AT_FDCWD o AT_FDCWD n 0 e w
  | RealLinkat od o nd n fl => k_linkat od o nd n fl e w
  | RealRename o n => k_renameat2 AT_FDCWD o AT_FDCWD n 0 e w
  | RealRenameat od o nd n => k_renameat2 od o nd n 0 e w
  | RealRenameat2 od o nd n fl => k_renameat2 od o nd n fl e w
  end.

(** Failures that can hit a call whatever the state of the files. *)
Inductive fault : Type := Fintr | Fio | Fnomem | Fmfile | Fnospc.

Definition errno_of (f : fault) : Z :=
  match f with
  | Fintr => 4
  | Fio => EIO
  | Fnomem => 12
  | Fmfile => EMFILE
  | Fnospc => ENOSPC
  end.

(** What happens to the next planned call: it runs normally, it fails
    without effect, or (for [sendfile]) it moves at most [n] bytes. *)
Inductive directive : Type :=
| Normal
| Fail (f : fault)
| Short (n : Z).

(** The files and the plan for the coming calls. *)
Record machine : Type := Machine { disk : fs; plan : list directive }.

(** The calls the plan applies to: those the copying paths make. *)
Definition planned (c : syscall) : bool :=
  match c with
  | Open _ _ _ | Openat _ _ _ _ | Dup _ | Fstat _ | Sendfile _ _ _ _
  | Close _ | Unlink _ | Unlinkat _ _ _ => true
  | _ => false
  end.

Definition on_disk (rest : list directive) (rw : reply * fs) : reply * machine :=
  (fst rw, Machine (snd rw) rest).

Definition step (c : syscall) (e : Z) (m : machine) : reply * machine :=
  if planned c then
    match plan m with
    | [] => on_disk [] (run c MAX_RW_COUNT e (disk m))
    | Normal :: rest => on_disk rest (run c MAX_RW_COUNT e (disk m))
    | Fail f :: rest => on_disk rest (fail (errno_of f) (disk m))
    | Short n :: rest => on_disk rest (run c n e (disk m))
    end
  else on_disk (plan m) (run c MAX_RW_COUNT e (disk m)).

Definition os : OS := MkOS machine step.

Definition boot (w : fs) (p : list directive) : state os :=
  @State os 0 (Machine w p) [] 0 0 0 0 0.

(** The file named [p]. *)
Definition file_at (w : fs) (p : string) : option inode :=
  match names w !! p with
  | Some i => inodes w !! i
  | None => None
  end.


(** ** What is said of the files

    The predicates the facts about the copying paths on these files are
    stated with. *)

(** No fault is planned. *)
Definition calm (s : state os) : Prop := plan (kernel s) = [].

(** The file [path] names relative to [dirfd], if it names one. *)
Definition path_file (w : fs) (dirfd : Z) (path : cstr) : option inode :=
  match at_path w dirfd path with
  | inr q => file_at w q
  | inl _ => None
  end.

(** The file descriptor [fd] reads, if it reads one. *)
Definition fd_file (w : fs) (fd : Z) : option inode :=
  match file_of w fd with
  | Some (OFile i _ fl) => if readable fl then inodes w !! i else None
  | _ => None
  end.

(** The file a call that opens the source opens. *)
Definition source_of (c : syscall) (w : fs) : option inode :=
  match c with
  | Open o _ _ => path_file w AT_FDCWD o
  | Openat dfd o _ _ => path_file w dfd o
  | Dup fd => fd_file w fd
  | _ => None
  end.

(** A copy in progress: descriptor [fd1] reads inode [i], whose content is
    [data]; descriptor [fd2] writes inode [j], which holds the first [off]
    bytes of [data] and is positioned at its end. *)
Record copying (w : fs) (fd1 fd2 a b i j : nat) (off fl_out : Z) (dv : nat) (md : Z)
    (data : list Byte.byte) : Prop := {
  cp_src_fd : fds w !! fd1 = Some a;
  cp_dst_fd : fds w !! fd2 = Some b;
  cp_src : exists p fl, ofds w !! a = Some (OFile i p fl) /\ readable fl = true;
  cp_dst : ofds w !! b = Some (OFile j off fl_out);
  cp_wr : writable fl_out = true;
  cp_src_ino : exists dvi mdi, inodes w !! i = Some (Inode dvi mdi data);
  cp_dst_ino : inodes w !! j = Some (Inode dv md (take (Z.to_nat off) data));
  cp_ne : i <> j;
  cp_off : 0 <= off <= Z.of_nat (length data)
}.

(** The files once the copy has reached [off']. *)
Definition advanced (w : fs) (b j : nat) (off' fl_out : Z) (dv : nat) (md : Z)
    (data : list Byte.byte) : fs :=
  with_inodes (<[j := Inode dv md (take (Z.to_nat off') data)]> (inodes w))
    (with_ofds (<[b := OFile j off' fl_out]> (ofds w)) w).

(** [w'] has the setup of [w] and every directory descriptor of [w]. *)
Definition agree (w w' : fs) : Prop :=
  cwd w' = cwd w /\ mounts w' = mounts w /\ umask w' = umask w /\
  forall fd d, file_of w fd = Some (ODir d) -> file_of w' fd = Some (ODir d).

(** The descriptors in [F] are those of [w], except perhaps [fd1] and [fd2]. *)
Definition closes_only (w : fs) (fd1 fd2 : nat) (F : gmap nat nat) : Prop :=
  forall fd, fd <> fd1 -> fd <> fd2 -> F !! fd = fds w !! fd.

(** Descriptor [fd1] is open for reading on inode [i], whose content is [data]. *)
Definition sourced (w : fs) (fd1 a i : nat) (data : list Byte.byte) : Prop :=
  fds w !! fd1 = Some a /\
  (exists p fl, ofds w !! a = Some (OFile i p fl) /\ readable fl = true) /\
  exists dvi mdi, inodes w !! i = Some (Inode dvi mdi data).

(** Every descriptor of [w] other than [fd1] is in [w'] what it is in [w]. *)
Definition keeps_but (fd1 : nat) (w w' : fs) : Prop :=
  forall fd o, fd <> Z.of_nat fd1 -> file_of w fd = Some o -> file_of w' fd = Some o.

(** [w'] has the working directory, the mounts and the umask of [w]. *)
Definition same_setup (w w' : fs) : Prop :=
  cwd w' = cwd w /\ mounts w' = mounts w /\ umask w' = umask w.

(** The files after the destination [q] was created with [mode] and the
    copy reached [off']. *)
Definition copied_to (mode : Z) (w w' : fs) (fd1 : nat) (q : string) (data : list Byte.byte)
    (off' : Z) : Prop :=
  exists j,
    inodes w !! j = None /\
    names w' = <[q := j]> (names w) /\
    inodes w'
    = <[j := Inode (dev_of w q) (Z.land (Z.land mode (Z.lnot (umask w))) 4095)
                   (take (Z.to_nat off') data)]> (inodes w) /\
    same_setup w w' /\ keeps_but fd1 w w'.

(** Every descriptor of [w] is in [w'] what it is in [w]. *)
Definition keeps (w w' : fs) : Prop :=
  forall fd o, file_of w fd = Some o -> file_of w' fd = Some o.

(** The source is open as [fd1], a descriptor [w] did not have; the files
    are those of [w]. *)
Definition opened (w w1 : fs) (fd1 : nat) : Prop :=
  fds w !! fd1 = None /\ names w1 = names w /\ inodes w1 = inodes w /\
  same_setup w w1 /\ keeps w w1.

(** The mode of a file created by a copying path from a source of mode
    [src_mode]: the type bits [fstat] reports are masked off by the shim,
    the umask is applied by the kernel. *)
Definition created_mode (w : fs) (src_mode : Z) : Z :=
  Z.land (Z.land (Z.land (Z.lor S_IFREG src_mode) 511) (Z.lnot (umask w))) 4095.

(** A call that opens the source of a copying path: it fails and leaves the
    files alone, or it returns a descriptor the files did not have, which
    reads the source if there is one. *)
Definition opens (c_src : syscall) : Prop :=
  planned c_src = true /\
  forall s : state os,
    (r_ret (reply_of os c_src s) = -1 /\
     disk (kernel (next os c_src s)) = disk (kernel s) /\
     (calm s -> source_of c_src (disk (kernel s)) = None))
    \/ exists fd1,
         r_ret (reply_of os c_src s) = Z.of_nat fd1 /\
         opened (disk (kernel s)) (disk (kernel (next os c_src s))) fd1 /\
         forall src, source_of c_src (disk (kernel s)) = Some src ->
           exists a i, inodes (disk (kernel s)) !! i = Some src /\
                       sourced (disk (kernel (next os c_src s))) fd1 a i (i_data src).

(** The name a path resolves to, if it resolves. *)
Definition resolved (x : Z + string) : option string :=
  match x with
  | inr p => Some p
  | inl _ => None
  end.

(** The name of the source of a copying path, when it has one by name. *)
Definition old_name (q : path) (w : fs) : option string :=
  match q with
  | CopyFromPath o _ | MoveFromPath o _ => resolved (at_path w AT_FDCWD o)
  | CopyAt od o _ _ | MoveAt od o _ _ => resolved (at_path w od o)
  | CopyFromFd _ _ _ => None
  end.

(** The name of the destination of a copying path. *)
Definition new_name (q : path) (w : fs) : option string :=
  match q with
  | CopyFromPath _ n | MoveFromPath _ n => resolved (at_path w AT_FDCWD n)
  | CopyFromFd _ nd n | CopyAt _ _ nd n | MoveAt _ _ nd n => resolved (at_path w nd n)
  end.

(** The pointer to the genuine [f] is cached, or the loader can find [f]. *)
Definition resolvable (f : sym) (s : state os) : Prop :=
  static f s <> 0 \/ In (sym_name f) (symbols (disk (kernel s))).

(** What a move path that returned left of the names and the files. *)
Definition moved_files (w w' : fs) (po pn : string) (r : Z) : Prop :=
  (forall i x, inodes w !! i = Some x -> inodes w' !! i = Some x) /\
  (forall p, p <> po -> p <> pn -> names w' !! p = names w !! p) /\
  (r = 0 ->
   exists j src,
     file_at w po = Some src /\ inodes w !! j = None /\
     inodes w'
     = <[j := Inode (dev_of w pn) (created_mode w (i_mode src)) (i_data src)]> (inodes w) /\
     names w' = delete po (<[pn := j]> (names w))).

(** What a link path that returned left of the names and the files. *)
Definition linked_files (w w' : fs) (pn : string) (src : inode) (r : Z) : Prop :=
  (forall i x, inodes w !! i = Some x -> inodes w' !! i = Some x) /\
  (forall p, p <> pn -> names w' !! p = names w !! p) /\
  (r = 0 ->
   exists j,
     inodes w !! j = None /\
     inodes w'
     = <[j := Inode (dev_of w pn) (created_mode w (i_mode src)) (i_data src)]> (inodes w) /\
     names w' = <[pn := j]> (names w)).

End MemFS.

(** ** Sample worlds *)
(** * A file system with bind mounts

    The reference file system behind mount points that show a directory a
    second time, as [mount --bind] does.  A path through such a mount point
    names the entry the path through the directory names; the genuine
    [link] and [rename] refuse with [EXDEV] to work between two mount
    points, whether or not they show the same file system, as Linux does. *)

Module BindFS.

(** The files, the plan, and the bind mounts: [(at, shown)] makes the
    directory [shown] visible at [at]. *)
Record machine : Type := Bound {
  base : MemFS.machine;
  binds : list (string * string)
}.

(** The bind mount an absolute path goes through, if it goes through one. *)
Definition mount_of (b : list (string * string)) (p : string) : option (string * string) :=
  List.find (fun m => String.prefix (fst m ++ "/") p) b.

(** The name of the entry a path names once the bind mount is followed. *)
Definition canon_path (b : list (string * string)) (p : string) : string :=
  match mount_of b p with
  | Some (at_, shown) =>
      (shown ++ String.substring (String.length at_)
                  (String.length p - String.length at_) p)%string
  | None => p
  end.

Definition canon (b : list (string * string)) (p : cstr) : cstr :=
  option_map (canon_path b) p.

(** A call with its paths followed through the bind mounts. *)
Definition canon_call (b : list (string * string)) (c : syscall) : syscall :=
  match c with
  | Open p fl m => Open (canon b p) fl m
  | Openat d p fl m => Openat d (canon b p) fl m
  | Unlink p => Unlink (canon b p)
  | Unlinkat d p fl => Unlinkat d (canon b p) fl
  | RealLink o n => RealLink (canon b o) (canon b n)
  | RealLinkat od o nd n fl => RealLinkat od (canon b o) nd (canon b n) fl
  | RealRename o n => RealRename (canon b o) (canon b n)
  | RealRenameat od o nd n => RealRenameat od (canon b o) nd (canon b n)
  | RealRenameat2 od o nd n fl => RealRenameat2 od (canon b o) nd (canon b n) fl
  | _ => c
  end.

(** The two paths of a genuine [link] or [rename] go through different
    mounts. *)
Definition crosses (b : list (string * string)) (c : syscall) : bool :=
  match c with
  | RealLink (Some o) (Some n) | RealLinkat _ (Some o) _ (Some n) _
  | RealRename (Some o) (Some n) | RealRenameat _ (Some o) _ (Some n)
  | RealRenameat2 _ (Some o) _ (Some n) _ =>
      negb (bool_decide (mount_of b o = mount_of b n))
  | _ => false
  end.

Definition step (c : syscall) (e : Z) (m : machine) : reply * machine :=
  if crosses (binds m) c then (Reply (-1) EXDEV (Stat 0 0) 0, m)
  else
    let rw := MemFS.step (canon_call (binds m) c) e (base m) in
    (fst rw, Bound (snd rw) (binds m)).

Definition os : OS := MkOS machine step.

Definition boot (w : MemFS.fs) (b : list (string * string)) : state os :=
  @State os 0 (Bound (MemFS.Machine w []) b) [] 0 0 0 0 0.

(** The file a path names. *)
Definition file_at (m : machine) (p : string) : option MemFS.inode :=
  MemFS.file_at (MemFS.disk (base m)) (canon_path (binds m) p).

End BindFS.

Module Demo.
Import MemFS.

Definition hello : list Byte.byte := list_byte_of_string "hello".
Definition stale : list Byte.byte := list_byte_of_string "stale data".

(** Two devices mounted at [/mnt/a] and [/mnt/b]; [/mnt/a/f] holds "hello"
    with mode 0644 and [/mnt/b/old] holds "stale data" with mode 0600; the
    umask is 022 and the C library behind the shim has no [renameat2]. *)
Definition w0 : fs :=
  Fs {[ "/mnt/a/f"%string := 1%nat; "/mnt/b/old"%string := 2%nat ]}
     {[ 1%nat := Inode 1 420 hello; 2%nat := Inode 2 384 stale ]}
     ∅ ∅ "/mnt/a"
     [("/mnt/a"%string, 1%nat); ("/mnt/b"%string, 2%nat)]
     18 ["link"; "linkat"; "rename"; "renameat"]%string.

(** The same files behind a C library that has [renameat2]. *)
Definition w1 : fs :=
  Fs (names w0) (inodes w0) (fds w0) (ofds w0) (cwd w0) (mounts w0) (umask w0)
     ["link"; "linkat"; "rename"; "renameat"; "renameat2"]%string.

(** The files of [w0] with [/mnt/a/f] open for reading as descriptor 3,
    positioned after its third byte. *)
Definition w2 : fs :=
  Fs (names w0) (inodes w0) {[ 3%nat := 0%nat ]} {[ 0%nat := OFile 1 3 O_RDONLY ]}
     (cwd w0) (mounts w0) (umask w0) (symbols w0).

(** One device, mounted at [/data], where [/data/f] holds "hello". *)
Definition w3 : fs :=
  Fs {[ "/data/f"%string := 1%nat ]} {[ 1%nat := Inode 1 420 hello ]}
     ∅ ∅ "/data" [("/data"%string, 1%nat)] 18
     ["link"; "linkat"; "rename"; "renameat"; "renameat2"]%string.


Definition f_a : cstr := Some "/mnt/a/f"%string.
Definition g_a : cstr := Some "/mnt/a/g"%string.
Definition g_b : cstr := Some "/mnt/b/g"%string.
Definition old_b : cstr := Some "/mnt/b/old"%string.

End Demo.

(** * Properties that hold on every operating system *)

Arguments copy_skeleton K fuel open_src removal open_dst cleanup _ : simpl never.

Section Facts.

Context (K : OS).

Implicit Types (s : state K) (c : syscall) (f : sym) (fuel : nat).

(** The five copying paths are instances of the skeleton. *)
Lemma fallback_copy_from_path_skeleton fuel o n :
  fallback_copy_from_path K fuel o n =
  copy_skeleton K fuel (Open o rd_flags 0) None (Open n excl_flags) None.
Proof. reflexivity. Qed.

Lemma fallback_copy_from_fd_skeleton fuel fd nd n :
  fallback_copy_from_fd K fuel fd nd n =
  copy_skeleton K fuel (Dup fd) None (Openat nd n excl_flags) None.
Proof. reflexivity. Qed.

Lemma linkat_copy_skeleton fuel od o nd n :
  linkat_copy K fuel od o nd n =
  copy_skeleton K fuel (Openat od o rd_flags 0) None (Openat nd n excl_flags) None.
Proof. reflexivity. Qed.

Lemma fallback_move_from_path_skeleton fuel o n :
  fallback_move_from_path K fuel o n =
  copy_skeleton K fuel (Open o rd_flags 0) (Some (Unlink n)) (Open n trunc_flags)
    (Some (Unlink o)).
Proof. reflexivity. Qed.

Lemma fallback_move_at_skeleton fuel od o nd n :
  fallback_move_at K fuel od o nd n =
  copy_skeleton K fuel (Openat od o rd_flags 0) (Some (Unlinkat nd n 0))
    (Openat nd n trunc_flags) (Some (Unlinkat od o 0)).
Proof. reflexivity. Qed.

(** ** One call *)

Lemma Ret_final {A} (o : outcome K A) (a : A) :
  result o = Some a -> o = Ret a (final o).
Proof. destruct o; simpl; intros H; inversion H; reflexivity. Qed.

Lemma libc_eq c s : libc K c s = Ret (reply_of K c s) (next K c s).
Proof. unfold libc, reply_of, next. now destruct (after_call K c s). Qed.

Lemma trace_next c s : trace (next K c s) = trace s ++ [(c, reply_of K c s)].
Proof. unfold next, reply_of, after_call. now destruct (exec K c (errno s) (kernel s)). Qed.

Lemma errno_next c s : errno (next K c s) = r_errno (reply_of K c s).
Proof. unfold next, reply_of, after_call. now destruct (exec K c (errno s) (kernel s)). Qed.

Lemma kernel_next c s :
  kernel (next K c s) = snd (exec K c (errno s) (kernel s)).
Proof. unfold next, after_call. now destruct (exec K c (errno s) (kernel s)). Qed.

Lemma reply_of_exec c s :
  reply_of K c s = fst (exec K c (errno s) (kernel s)).
Proof. unfold reply_of, after_call. now destruct (exec K c (errno s) (kernel s)). Qed.

Lemma static_next f c s : static f (next K c s) = static f s.
Proof.
  unfold next, after_call. destruct (exec K c (errno s) (kernel s)). now destruct f.
Qed.

Lemma close_keeping_errno_eq fd s :
  close_keeping_errno K fd s = Ret (-1) (with_errno (errno s) (next K (Close fd) s)).
Proof. unfold close_keeping_errno, bind, get_errno, set_errno, ret. now rewrite libc_eq. Qed.

Lemma static_with_errno f e s : static f (with_errno e s) = static f s.
Proof. now destruct f. Qed.

Lemma errno_after_nil e : errno_after [] e = e.
Proof. reflexivity. Qed.

Lemma last_cons {A} (l : list A) : forall a d, List.last (a :: l) d = List.last l a.
Proof.
  induction l as [|x l IH]; intros a d; [reflexivity|].
  change (List.last (x :: l) d = List.last (x :: l) a). now rewrite !IH.
Qed.

Lemma errno_after_cons ev evs e :
  errno_after (ev :: evs) e = errno_after evs (r_errno (snd ev)).
Proof. unfold errno_after. simpl List.map. apply last_cons. Qed.

Lemma errno_after_app evs evs' e :
  errno_after (evs ++ evs') e = errno_after evs' (errno_after evs e).
Proof.
  revert e. induction evs as [|ev evs IH]; intros e; [reflexivity|].
  simpl. now rewrite !errno_after_cons, IH.
Qed.

(** ** The copy loop follows [copy_run] *)

Lemma copy_loop_sound fuel src dst : forall off rem s,
  exists evs,
    copy_run src dst off rem evs (result (copy_loop K fuel src dst off rem s)) /\
    trace (final (copy_loop K fuel src dst off rem s)) = trace s ++ evs /\
    errno (final (copy_loop K fuel src dst off rem s)) = errno_after evs (errno s) /\
    (forall f, static f (final (copy_loop K fuel src dst off rem s)) = static f s) /\
    no_fault (copy_loop K fuel src dst off rem s) /\
    (result (copy_loop K fuel src dst off rem s) = None -> length evs = fuel).
Proof.
  induction fuel as [|fuel IH]; intros off rem s; simpl;
    destruct (Z.gtb_spec rem 0) as [Hpos|Hle];
    try (exists []; unfold ret; simpl; rewrite app_nil_r;
         repeat split; auto; try discriminate; now constructor).
  unfold bind. rewrite libc_eq.
  set (c := Sendfile dst src off rem).
  destruct (Z.ltb_spec (r_ret (reply_of K c s)) 0) as [Hneg|Hnn].
  - exists [(c, reply_of K c s)]. unfold ret. simpl.
    rewrite trace_next, errno_next.
    repeat split; auto; try discriminate; try (intros; apply static_next).
    now constructor.
  - destruct (IH (r_off (reply_of K c s)) (rem - r_ret (reply_of K c s)) (next K c s))
      as (evs & Hrun & Htr & Herr & Hst & Hnf & Hlen).
    exists ((c, reply_of K c s) :: evs).
    split; [now constructor|].
    split; [rewrite Htr, trace_next, <- app_assoc; reflexivity|].
    split; [rewrite Herr, errno_after_cons, errno_next; reflexivity|].
    split; [intros f; rewrite Hst; apply static_next|].
    split; [assumption|].
    intros H. simpl. now rewrite Hlen.
Qed.

Lemma copy_fd_sound fuel src dst s :
  exists evs,
    copy_fd_run src dst evs (result (copy_fd K fuel src dst s)) /\
    trace (final (copy_fd K fuel src dst s)) = trace s ++ evs /\
    errno (final (copy_fd K fuel src dst s)) = errno_after evs (errno s) /\
    (forall f, static f (final (copy_fd K fuel src dst s)) = static f s) /\
    no_fault (copy_fd K fuel src dst s).
Proof.
  unfold copy_fd, bind. rewrite libc_eq. set (c := Fstat src).
  destruct (Z.eqb_spec (r_ret (reply_of K c s)) 0) as [Hz|Hnz]; simpl.
  - destruct (copy_loop_sound fuel src dst 0 (st_size (r_stat (reply_of K c s))) (next K c s))
      as (evs & Hrun & Htr & Herr & Hst & Hnf & _).
    exists ((c, reply_of K c s) :: evs).
    split; [now constructor|].
    split; [rewrite Htr, trace_next, <- app_assoc; reflexivity|].
    split; [rewrite Herr, errno_after_cons, errno_next; reflexivity|].
    split; [intros f; rewrite Hst; apply static_next|assumption].
  - exists [(c, reply_of K c s)]. unfold ret. simpl.
    rewrite trace_next, errno_next.
    repeat split; auto; try (intros; apply static_next).
    now constructor.
Qed.

(** ** The copying paths follow [skeleton_run] *)

Lemma create_sound fuel open_src removal open_dst cleanup s o st rm s3 :
  0 <= r_ret o -> r_ret st = 0 -> removal_run removal rm ->
  trace s3 = trace s ++ [(open_src, o); (Fstat (r_ret o), st)] ++ rm ->
  (forall f, static f s3 = static f s) ->
  follows K open_src removal open_dst cleanup s
    (bind K (libc K (open_dst (Z.land (st_mode (r_stat st)) 511)))
       (fun d =>
          if r_ret d <? 0 then close_keeping_errno K (r_ret o)
          else copy_and_close K fuel (r_ret o) (r_ret d)
                 match cleanup with
                 | Some c => bind K (libc K c)
                     (fun u' => if negb (r_ret u' =? 0) then ret K (-1) else ret K 0)
                 | None => ret K 0
                 end) s3).
Proof.
  intros Ho Hst Hrm Htr Hsts.
  unfold bind at 1. rewrite libc_eq.
  set (cd := open_dst (Z.land (st_mode (r_stat st)) 511)).
  set (d := reply_of K cd s3). set (s4 := next K cd s3).
  assert (Htr4 : trace s4 = trace s ++ [(open_src, o); (Fstat (r_ret o), st)] ++ rm ++ [(cd, d)]).
  { subst s4. rewrite trace_next, Htr, <- !app_assoc. reflexivity. }
  assert (Hsts4 : forall f, static f s4 = static f s).
  { intros f. subst s4. now rewrite static_next. }
  assert (Herr4 : errno s4 = r_errno d) by apply errno_next.
  destruct (Z.ltb_spec (r_ret d) 0) as [Hd|Hd].
  { rewrite close_keeping_errno_eq.
    exists ([(open_src, o); (Fstat (r_ret o), st)] ++ rm
              ++ [(cd, d); (Close (r_ret o), reply_of K (Close (r_ret o)) s4)]).
    cbn [final result errno with_errno trace no_fault].
    rewrite Herr4. split; [now constructor|].
    split; [rewrite trace_next, Htr4, <- !app_assoc; reflexivity|].
    split; [|exact I]. intros f. now rewrite static_with_errno, static_next. }
  unfold copy_and_close. unfold bind at 1.
  destruct (copy_fd_sound fuel (r_ret o) (r_ret d) s4)
    as (cevs & Hcrun & Hctr & Hcerr & Hcst & Hcnf).
  rewrite Herr4 in Hcerr.
  destruct (copy_fd K fuel (r_ret o) (r_ret d) s4) as [r s5|c s5|s5];
    cbn [final result no_fault] in *; [|contradiction|].
  2:{ exists ([(open_src, o); (Fstat (r_ret o), st)] ++ rm ++ [(cd, d)] ++ cevs ++ []).
      cbn [final result no_fault]. split; [|split; [|split; [|exact I]]].
      - eapply run_copy; eauto. rewrite Hcerr. constructor.
      - rewrite Hctr, Htr4, app_nil_r, <- !app_assoc. reflexivity.
      - intros f. now rewrite Hcst. }
  unfold bind at 1, get_errno. unfold bind at 1. rewrite libc_eq.
  unfold bind at 1. rewrite libc_eq.
  set (c1 := reply_of K (Close (r_ret o)) s5). set (s6 := next K (Close (r_ret o)) s5).
  set (c2 := reply_of K (Close (r_ret d)) s6). set (s7 := next K (Close (r_ret d)) s6).
  assert (Htr7 : trace s7 = trace s ++ [(open_src, o); (Fstat (r_ret o), st)] ++ rm
                   ++ [(cd, d)] ++ cevs ++ [(Close (r_ret o), c1); (Close (r_ret d), c2)]).
  { subst s7 s6. rewrite !trace_next, Hctr, Htr4, <- !app_assoc. reflexivity. }
  assert (Hsts7 : forall f, static f s7 = static f s).
  { intros f. subst s7 s6. now rewrite !static_next, Hcst. }
  destruct (Z.eqb_spec r 0) as [Hr|Hr]; cbn [negb].
  2:{ unfold bind, set_errno, ret.
      eexists. cbn [final result errno with_errno trace no_fault]. split; [|split; [exact Htr7|split; [|exact I]]].
      - rewrite Hcerr. eapply run_copy; eauto. now constructor.
      - intros f. now rewrite static_with_errno. }
  subst r. destruct cleanup as [cl|].
  - unfold bind. rewrite libc_eq.
    set (u := reply_of K cl s7). set (s8 := next K cl s7).
    exists ([(open_src, o); (Fstat (r_ret o), st)] ++ rm ++ [(cd, d)] ++ cevs
              ++ [(Close (r_ret o), c1); (Close (r_ret d), c2); (cl, u)]).
    destruct (r_ret u =? 0) eqn:E; cbn [negb]; unfold ret; cbn [final result no_fault];
      (split; [|split; [|split; [|exact I]]]);
      try (subst s8; rewrite trace_next, Htr7, <- !app_assoc; reflexivity);
      try (intros f; subst s8; now rewrite static_next).
    + subst s8. rewrite errno_next. eapply run_copy; eauto.
      pose proof (finish_cleanup (Some cl) (r_ret o) (r_ret d)
                    (errno_after cevs (r_errno d)) cl c1 c2 u eq_refl) as Hf.
      rewrite E in Hf. exact Hf.
    + subst s8. rewrite errno_next. eapply run_copy; eauto.
      pose proof (finish_cleanup (Some cl) (r_ret o) (r_ret d)
                    (errno_after cevs (r_errno d)) cl c1 c2 u eq_refl) as Hf.
      rewrite E in Hf. exact Hf.
  - unfold ret.
    eexists. cbn [final result no_fault]. split; [|split; [exact Htr7|split; [exact Hsts7|exact I]]].
    subst s7. rewrite errno_next. eapply run_copy; eauto. now constructor.
Qed.

Lemma skeleton_sound fuel open_src removal open_dst cleanup s :
  follows K open_src removal open_dst cleanup s
    (copy_skeleton K fuel open_src removal open_dst cleanup s).
Proof.
  unfold copy_skeleton. unfold bind at 1. rewrite libc_eq.
  set (o := reply_of K open_src s). set (s1 := next K open_src s).
  destruct (Z.ltb_spec (r_ret o) 0) as [Ho|Ho].
  { exists [(open_src, o)]. unfold ret; cbn [final result no_fault]. subst s1. rewrite trace_next, errno_next.
    repeat split; auto; try (intros; apply static_next). now constructor. }
  unfold bind at 1. rewrite libc_eq.
  set (st := reply_of K (Fstat (r_ret o)) s1). set (s2 := next K (Fstat (r_ret o)) s1).
  assert (Htr2 : trace s2 = trace s ++ [(open_src, o); (Fstat (r_ret o), st)]).
  { subst s2 s1. rewrite !trace_next, <- !app_assoc. reflexivity. }
  assert (Hsts2 : forall f, static f s2 = static f s).
  { intros f. subst s2 s1. now rewrite !static_next. }
  destruct (Z.eqb_spec (r_ret st) 0) as [Hst|Hst]; cbn [negb].
  2:{ rewrite close_keeping_errno_eq.
      exists [(open_src, o); (Fstat (r_ret o), st); (Close (r_ret o), reply_of K (Close (r_ret o)) s2)].
      cbn [final result errno with_errno trace no_fault].
      rewrite trace_next, Htr2, <- !app_assoc. subst s2. rewrite errno_next.
      split; [now constructor|]. split; [reflexivity|].
      split; [|exact I]. intros f. rewrite static_with_errno, static_next. apply Hsts2. }
  destruct removal as [rc|] eqn:Hrem.
  - unfold bind at 1. rewrite libc_eq. unfold bind at 1, get_errno.
    set (u := reply_of K rc s2). set (s3 := next K rc s2).
    assert (He3 : errno s3 = r_errno u) by apply errno_next.
    rewrite He3.
    destruct (Z.eqb_spec (r_ret u) 0) as [Hu|Hu]; cbn [negb andb].
    + eapply create_sound; eauto.
      * apply (removal_done _ rc u); auto.
      * subst s3. rewrite trace_next, Htr2, <- !app_assoc. reflexivity.
      * intros f. subst s3. now rewrite static_next.
    + destruct (Z.eqb_spec (r_errno u) ENOENT) as [He|He]; cbn [negb].
      * eapply create_sound; eauto.
        -- apply (removal_done _ rc u); auto.
        -- subst s3. rewrite trace_next, Htr2, <- !app_assoc. reflexivity.
        -- intros f. subst s3. now rewrite static_next.
      * rewrite close_keeping_errno_eq.
        exists [(open_src, o); (Fstat (r_ret o), st); (rc, u);
                (Close (r_ret o), reply_of K (Close (r_ret o)) s3)].
        cbn [final result errno with_errno trace no_fault].
        rewrite He3. split; [now apply run_no_removal|].
        split; [subst s3; rewrite !trace_next, Htr2, <- !app_assoc; reflexivity|].
        split; [|exact I]. intros f. subst s3. now rewrite static_with_errno, !static_next.
  - eapply create_sound; eauto.
    + now apply removal_none.
    + rewrite Htr2, app_nil_r. reflexivity.
Qed.

Lemma run_path_skeleton fuel p :
  run_path K fuel p =
  copy_skeleton K fuel (opens_source p) (removes_dest p) (opens_dest p) (removes_source p).
Proof. destruct p; reflexivity. Qed.

Lemma run_path_sound fuel p s :
  follows K (opens_source p) (removes_dest p) (opens_dest p) (removes_source p) s
    (run_path K fuel p s).
Proof. rewrite run_path_skeleton. apply skeleton_sound. Qed.

(** ** Facts about logs *)

Lemma find_app_first {A} (P : A -> bool) (l l' : list A) :
  List.find P (l ++ l') =
  match List.find P l with Some x => Some x | None => List.find P l' end.
Proof. induction l as [|x l IH]; simpl; [reflexivity|]. now destruct (P x). Qed.

Lemma last_step_app l l' :
  last_step (l ++ l') =
  match last_step l' with Some ev => Some ev | None => last_step l end.
Proof. unfold last_step. rewrite rev_app_distr. apply find_app_first. Qed.

Lemma last_step_cons ev l :
  last_step (ev :: l) =
  match last_step l with
  | Some ev' => Some ev'
  | None => if is_close ev then None else Some ev
  end.
Proof.
  change (ev :: l) with ([ev] ++ l). rewrite last_step_app.
  destruct (last_step l); [reflexivity|]. unfold last_step. simpl.
  now destruct (is_close ev).
Qed.

Lemma copy_run_failed src dst off rem evs r :
  copy_run src dst off rem evs (Some r) -> r <> 0 ->
  exists ev, last_step evs = Some ev /\ failed ev = true /\
             forall e0, errno_after evs e0 = r_errno (snd ev).
Proof.
  intros H. remember (Some r) as res eqn:Hres. revert Hres.
  induction H as [off rem Hle|off rem Hlt|off rem rp Hlt Hneg|off rem rp evs res Hlt Hnn Hrun IH];
    intros Hres Hr.
  - inversion Hres; subst. contradiction.
  - discriminate.
  - exists (Sendfile dst src off rem, rp). split; [reflexivity|]. split; [|reflexivity].
    unfold failed. simpl. now apply Z.ltb_lt.
  - destruct (IH Hres Hr) as (ev & Hl & Hf & He). exists ev.
    split; [rewrite last_step_cons, Hl; reflexivity|]. split; [assumption|].
    intros e0. rewrite errno_after_cons. apply He.
Qed.

Lemma copy_fd_run_failed src dst evs r :
  copy_fd_run src dst evs (Some r) -> r <> 0 ->
  exists ev, last_step evs = Some ev /\ failed ev = true /\
             forall e0, errno_after evs e0 = r_errno (snd ev).
Proof.
  intros H Hr. inversion H as [st Hst|st evs' res Hst Hrun]; subst.
  - exists (Fstat src, st). split; [reflexivity|]. split; [|reflexivity].
    unfold failed. simpl. now apply negb_true_iff, Z.eqb_neq.
  - destruct (copy_run_failed _ _ _ _ _ _ Hrun Hr) as (ev & Hl & Hf & He). exists ev.
    split; [rewrite last_step_cons, Hl; reflexivity|]. split; [assumption|].
    intros e0. rewrite errno_after_cons. apply He.
Qed.

Lemma path_run_failed p evs r e :
  path_run p evs (Some r) e -> r <> 0 ->
  exists ev, last_step evs = Some ev /\ failed ev = true /\ e = r_errno (snd ev).
Proof.
  unfold path_run. intros H Hr.
  inversion H as [o Ho|o st cl Ho Hst|o st c u cl Ho Hst Hrem Hu He
                 |o st rm d cl Ho Hst Hrm Hd
                 |o st rm d cevs cres tl res e' Ho Hst Hrm Hd Hc Hfin]; subst.
  - exists (opens_source p, o). split; [destruct p; reflexivity|]. split; [|reflexivity].
    unfold failed. destruct p; simpl; now apply Z.ltb_lt.
  - exists (Fstat (r_ret o), st). split; [reflexivity|]. split; [|reflexivity].
    unfold failed; simpl. now apply negb_true_iff, Z.eqb_neq.
  - exists (c, u). split; [|split; [|reflexivity]].
    + destruct p; inversion Hrem; subst; reflexivity.
    + unfold failed. destruct p; inversion Hrem; subst; simpl;
        now apply negb_true_iff, Z.eqb_neq.
  - exists (opens_dest p (Z.land (st_mode (r_stat st)) 511), d).
    split; [|split; [|reflexivity]].
    + rewrite !last_step_app. destruct p; reflexivity.
    + unfold failed. destruct p; simpl; now apply Z.ltb_lt.
  - inversion Hfin as [Hx|r0 c1 c2 Hr0|c1 c2 Hcl|c c1 c2 u Hcl]; subst.
    + destruct (copy_fd_run_failed _ _ _ _ Hc Hr0) as (ev & Hl & Hf & He).
      exists ev. split; [|split; [assumption|apply He]].
      rewrite !last_step_app. simpl (last_step [_; _]).
      unfold last_step at 1. simpl. now rewrite Hl.
    + contradiction.
    + exists (c, u). split; [|split; [|reflexivity]].
      * rewrite !last_step_app. destruct p; inversion Hcl; subst; reflexivity.
      * destruct (r_ret u =? 0) eqn:E; [contradiction|].
        unfold failed. destruct p; inversion Hcl; subst; simpl; now rewrite E.
Qed.


(** C6. On every failing exit of a copying path the caller sees the [errno]
    of the step that failed: the last call logged that is not a [close] is a
    failed call, and [errno] on return is the value that call left, whatever
    the [close] calls made after it did to [errno]. *)
Theorem failing_step_errno fuel (p : path) s r s' :
  run_path K fuel p s = Ret r s' -> r <> 0 ->
  exists evs ev,
    trace s' = trace s ++ evs /\
    last_step evs = Some ev /\ failed ev = true /\
    errno s' = r_errno (snd ev).
Proof.
  intros Hrun Hr.
  destruct (run_path_sound fuel p s) as (evs & Hpr & Htr & _ & _).
  rewrite Hrun in Hpr, Htr. cbn [final result] in Hpr, Htr.
  destruct (path_run_failed p evs r _ Hpr Hr) as (ev & Hl & Hf & He).
  exists evs, ev. auto.
Qed.

(** ** The entry points *)

Lemma resolve_eq f s :
  resolve K f s =
  if static f s =? 0
  then Ret (r_ret (reply_of K (Dlsym (sym_name f)) s))
           (with_static f (r_ret (reply_of K (Dlsym (sym_name f)) s))
              (next K (Dlsym (sym_name f)) s))
  else Ret (static f s) s.
Proof.
  unfold resolve, reply_of, next. destruct (static f s =? 0); [|reflexivity].
  now destruct (after_call K (Dlsym (sym_name f)) s).
Qed.

Lemma genuine_Ret f c s r s1 :
  genuine K f c s = Ret r s1 ->
  exists p s0, resolve K f s = Ret p s0 /\ p <> 0 /\
    r = r_ret (reply_of K c s0) /\ s1 = next K c s0.
Proof.
  unfold genuine, bind, call_real. intros H.
  destruct (resolve K f s) as [p s0| |] eqn:Hr; try discriminate.
  exists p, s0. destruct (Z.eqb_spec p 0) as [->|Hp]; [discriminate|].
  unfold bind, ret in H. rewrite libc_eq in H. inversion H; subst. auto.
Qed.

(** What an entry point does once its pointer is resolved. *)
Lemma invoke_resolved fuel (i : invocation) s p s0 :
  resolve K (entry_of i) s = Ret p s0 -> p <> 0 ->
  invoke K fuel i s =
    if passes_through (r_ret (reply_of K (real_of i) s0)) (errno (next K (real_of i) s0))
    then Ret (r_ret (reply_of K (real_of i) s0)) (next K (real_of i) s0)
    else match fallback_of i with
         | Some q => run_path K fuel q (next K (real_of i) s0)
         | None => Ret (r_ret (reply_of K (real_of i) s0)) (next K (real_of i) s0)
         end.
Proof.
  intros Hres Hp. apply Z.eqb_neq in Hp.
  destruct i; simpl in *; unfold link, linkat, rename, renameat, renameat2;
    unfold bind at 1; rewrite Hres; try rewrite Hp; unfold call_real; rewrite Hp;
    unfold bind, ret, get_errno in *; rewrite libc_eq;
    destruct (passes_through _ _); try reflexivity.
  - destruct (negb _ && _); reflexivity.
  - destruct (negb _); reflexivity.
Qed.

Lemma invoke_unresolved fuel (i : invocation) s s0 :
  resolve K (entry_of i) s = Ret 0 s0 ->
  invoke K fuel i s =
    match i with
    | CallRenameat2 od o nd n fl =>
        if fl =? 0 then renameat K fuel od o nd n s0
        else Ret (-1) (with_errno ENOSYS s0)
    | _ => Fault (real_of i) s0
    end.
Proof.
  intros Hres.
  destruct i; simpl in *; unfold link, linkat, rename, renameat, renameat2;
    unfold bind at 1; rewrite Hres; try reflexivity.
  simpl. destruct (flags =? 0); reflexivity.
Qed.

(** What an entry point does once its genuine implementation has answered. *)
Lemma entry_after_genuine fuel (i : invocation) s r s1 :
  genuine K (entry_of i) (real_of i) s = Ret r s1 ->
  invoke K fuel i s =
    if passes_through r (errno s1) then Ret r s1 else
    match fallback_of i with
    | Some q => run_path K fuel q s1
    | None => Ret r s1
    end.
Proof.
  intros H. destruct (genuine_Ret _ _ _ _ _ H) as (p & s0 & Hres & Hp & -> & ->).
  now apply invoke_resolved with (p := p).
Qed.

Lemma passes_through_true r e :
  r = 0 \/ e <> EXDEV -> passes_through r e = true.
Proof.
  unfold passes_through. intros [->|He]; [reflexivity|].
  apply Z.eqb_neq in He. rewrite He. now destruct (r =? 0).
Qed.

Lemma passes_through_false r e :
  r <> 0 -> e = EXDEV -> passes_through r e = false.
Proof.
  unfold passes_through. intros Hr ->. apply Z.eqb_neq in Hr. now rewrite Hr.
Qed.

(** What the genuine call logs: the loader query if the pointer was not
    cached, then the call itself. *)
Lemma genuine_log f c s r s1 :
  genuine K f c s = Ret r s1 ->
  exists q rp,
    trace s1 = trace s ++ q ++ [(c, rp)] /\
    r = r_ret rp /\ errno s1 = r_errno rp /\
    (q = [] \/ exists d, q = [(Dlsym (sym_name f), d)]).
Proof.
  intros H. destruct (genuine_Ret _ _ _ _ _ H) as (p & s0 & Hres & Hp & -> & ->).
  rewrite resolve_eq in Hres.
  destruct (static f s =? 0); inversion Hres; subst; clear Hres.
  - exists [(Dlsym (sym_name f), reply_of K (Dlsym (sym_name f)) s)].
    eexists. rewrite trace_next, errno_next. split; [|split; [reflexivity|split; [reflexivity|]]].
    + destruct f; cbn [with_static trace]; rewrite trace_next, <- app_assoc; reflexivity.
    + right. eauto.
  - exists []. eexists. rewrite trace_next, errno_next. auto.
Qed.

(** C1. When the genuine implementation of an overridden entry point returns
    success, or fails with an error other than [EXDEV], the entry point
    returns in the very state the genuine call left, with the genuine result:
    the return value and [errno] are those of the genuine call, and the only
    calls made are the loader query (if the pointer was not cached yet) and
    the genuine call itself, so no fallback ran.  The same holds when
    [renameat2] is missing and a call with no flags goes through the
    [renameat] entry point. *)
Theorem passthrough_unchanged fuel s r s1 :
  r = 0 \/ errno s1 <> EXDEV ->
  (forall i : invocation,
     genuine K (entry_of i) (real_of i) s = Ret r s1 ->
     invoke K fuel i s = Ret r s1 /\
     exists q rp,
       trace s1 = trace s ++ q ++ [(real_of i, rp)] /\
       r = r_ret rp /\ errno s1 = r_errno rp /\
       (q = [] \/ exists d, q = [(Dlsym (sym_name (entry_of i)), d)])) /\
  (forall od o nd n s0,
     resolve K Srenameat2 s = Ret 0 s0 ->
     genuine K Srenameat (RealRenameat od o nd n) s0 = Ret r s1 ->
     renameat2 K fuel od o nd n 0 s = Ret r s1).
Proof.
  intros Hpass. apply passes_through_true in Hpass. split.
  - intros i H. split; [|now apply genuine_log].
    rewrite (entry_after_genuine fuel i s r s1 H). now rewrite Hpass.
  - intros od o nd n s0 Hres H.
    unfold renameat2. unfold bind at 1. rewrite Hres. simpl.
    change (invoke K fuel (CallRenameat od o nd n) s0 = Ret r s1).
    rewrite (entry_after_genuine fuel (CallRenameat od o nd n) s0 r s1 H).
    now rewrite Hpass.
Qed.

(** C5. When the genuine [renameat2] exists and fails with [EXDEV], a call
    with non-zero flags returns the genuine result in the state the genuine
    call left (same return value, same [errno], no further call); with zero
    flags the call continues as [fallback_move_at]. *)
Theorem renameat2_flags_no_fallback fuel od o nd n fl s r s1 :
  genuine K Srenameat2 (RealRenameat2 od o nd n fl) s = Ret r s1 ->
  r <> 0 -> errno s1 = EXDEV ->
  (fl <> 0 -> renameat2 K fuel od o nd n fl s = Ret r s1) /\
  (fl = 0 -> renameat2 K fuel od o nd n fl s = fallback_move_at K fuel od o nd n s1).
Proof.
  intros H Hr He.
  pose proof (entry_after_genuine fuel (CallRenameat2 od o nd n fl) s r s1 H) as Hi.
  cbn [invoke fallback_of] in Hi. rewrite (passes_through_false r _ Hr He) in Hi.
  split; intros Hfl.
  - apply Z.eqb_neq in Hfl. now rewrite Hfl in Hi.
  - subst fl. exact Hi.
Qed.

Lemma run_path_no_fault fuel p s : no_fault (run_path K fuel p s).
Proof. destruct (run_path_sound fuel p s) as (evs & _ & _ & _ & Hnf). exact Hnf. Qed.

Lemma renameat_fault fuel od o nd n s c s' :
  renameat K fuel od o nd n s = Fault c s' -> c = RealRenameat od o nd n.
Proof.
  unfold renameat. unfold bind at 1.
  destruct (resolve K Srenameat s) as [p s0|c0 s0|s0] eqn:Hres;
    [|rewrite resolve_eq in Hres; destruct (_ =? 0); discriminate
     |rewrite resolve_eq in Hres; destruct (_ =? 0); discriminate].
  unfold bind at 1, call_real.
  destruct (p =? 0); [intros H; now inversion H|].
  unfold bind at 1. rewrite libc_eq. unfold ret, bind, get_errno.
  destruct (passes_through _ _); [discriminate|].
  intros H. pose proof (run_path_no_fault fuel (MoveAt od o nd n)
                          (next K (RealRenameat od o nd n) s0)) as Hnf.
  cbn [run_path] in Hnf. rewrite H in Hnf. contradiction.
Qed.

(** C7, amended. When the loader has no [renameat2], the entry point does not
    call through the null pointer: with non-zero flags it returns -1 with
    [errno = ENOSYS] and makes no call; with zero flags it behaves as the
    [renameat] entry point; the only call it can attempt through a null
    pointer is the one [renameat] makes. *)
Theorem renameat2_unresolved fuel od o nd n fl s s0 :
  resolve K Srenameat2 s = Ret 0 s0 ->
  (fl <> 0 -> renameat2 K fuel od o nd n fl s = Ret (-1) (with_errno ENOSYS s0)) /\
  (fl = 0 -> renameat2 K fuel od o nd n fl s = renameat K fuel od o nd n s0) /\
  (forall c s', renameat2 K fuel od o nd n fl s = Fault c s' -> c = RealRenameat od o nd n).
Proof.
  intros Hres.
  assert (Heq : renameat2 K fuel od o nd n fl s =
                if fl =? 0 then renameat K fuel od o nd n s0
                else Ret (-1) (with_errno ENOSYS s0)).
  { unfold renameat2. unfold bind at 1. rewrite Hres. simpl.
    destruct (fl =? 0); reflexivity. }
  rewrite Heq. split; [|split].
  - intros Hfl. apply Z.eqb_neq in Hfl. now rewrite Hfl.
  - intros ->. reflexivity.
  - intros c s'. destruct (fl =? 0); [apply renameat_fault|discriminate].
Qed.


(** ** Loader queries *)

Lemma copy_run_quiet src dst off rem evs res :
  copy_run src dst off rem evs res -> Forall (fun ev => is_loader ev = false) evs.
Proof. induction 1; repeat constructor; auto. Qed.

Lemma copy_fd_run_quiet src dst evs res :
  copy_fd_run src dst evs res -> Forall (fun ev => is_loader ev = false) evs.
Proof.
  destruct 1; repeat constructor. eapply copy_run_quiet; eauto.
Qed.

Lemma path_run_quiet p evs res e :
  path_run p evs res e -> Forall (fun ev => is_loader ev = false) evs.
Proof.
  unfold path_run. intros H.
  assert (Hrm : forall rm, removal_run (removes_dest p) rm ->
                  Forall (fun ev => is_loader ev = false) rm).
  { intros rm Hr. destruct Hr as [|c u Hc _]; [constructor|].
    repeat constructor. destruct p; inversion Hc; reflexivity. }
  destruct H as [o Ho|o st cl Ho Hst|o st c u cl Ho Hst Hrem Hu He
                |o st rm d cl Ho Hst Hr Hd
                |o st rm d cevs cres tl res e' Ho Hst Hr Hd Hc Hfin].
  - repeat constructor. now destruct p.
  - repeat constructor. now destruct p.
  - repeat constructor; try now destruct p. destruct p; inversion Hrem; reflexivity.
  - rewrite !Forall_app. split; [repeat constructor; now destruct p|].
    split; [auto|]. repeat constructor. now destruct p.
  - rewrite !Forall_app. split; [repeat constructor; now destruct p|].
    split; [auto|]. split; [repeat constructor; now destruct p|].
    split; [eapply copy_fd_run_quiet; eauto|].
    destruct Hfin as [|r c1 c2 Hr0|c1 c2 Hcl|c c1 c2 u Hcl]; repeat constructor.
    destruct p; inversion Hcl; reflexivity.
Qed.

Lemma quiet_filter f evs :
  Forall (fun ev => is_loader ev = false) evs -> filter (fun ev => is_dlsym f ev = true) evs = [].
Proof.
  induction 1 as [|ev evs Hev _ IH]; [reflexivity|].
  rewrite filter_cons, IH. destruct ev as [c r]. unfold is_loader, is_dlsym in *. simpl in *.
  destruct c; try discriminate; now rewrite decide_False by discriminate.
Qed.

Lemma static_with_static_eq f p s : static f (with_static f p s) = p.
Proof. now destruct f. Qed.

Lemma static_with_static_ne f g p s : g <> f -> static g (with_static f p s) = static g s.
Proof. destruct f, g; try reflexivity; intros H; now contradiction H. Qed.

Lemma trace_with_static f p s : trace (with_static f p s) = trace s.
Proof. now destruct f. Qed.

Lemma sym_name_inj f g : sym_name f = sym_name g -> f = g.
Proof. destruct f, g; simpl; intros H; try reflexivity; discriminate. Qed.

(** After resolution to a non-null pointer the loader is not asked again and
    the pointers stay as they are. *)
Lemma resolved_log fuel (i : invocation) s0 :
  let o := if passes_through (r_ret (reply_of K (real_of i) s0)) (errno (next K (real_of i) s0))
           then Ret (r_ret (reply_of K (real_of i) s0)) (next K (real_of i) s0)
           else match fallback_of i with
                | Some q => run_path K fuel q (next K (real_of i) s0)
                | None => Ret (r_ret (reply_of K (real_of i) s0)) (next K (real_of i) s0)
                end in
  exists rest,
    trace (final o) = trace s0 ++ rest /\
    Forall (fun ev => is_loader ev = false) rest /\
    forall g, static g (final o) = static g s0.
Proof.
  intros o.
  assert (Hplain : exists rest,
             trace (next K (real_of i) s0) = trace s0 ++ rest /\
             Forall (fun ev => is_loader ev = false) rest /\
             forall g, static g (next K (real_of i) s0) = static g s0).
  { exists [(real_of i, reply_of K (real_of i) s0)].
    split; [apply trace_next|]. split; [|intros g; apply static_next].
    repeat constructor. now destruct i. }
  subst o. destruct (passes_through _ _); [exact Hplain|].
  destruct (fallback_of i) as [q|]; [|exact Hplain].
  destruct (run_path_sound fuel q (next K (real_of i) s0)) as (evs & Hrun & Htr & Hst & _).
  exists ((real_of i, reply_of K (real_of i) s0) :: evs).
  split; [rewrite Htr, trace_next, <- app_assoc; reflexivity|].
  split; [|intros g; rewrite Hst; apply static_next].
  constructor; [now destruct i|]. eapply path_run_quiet; eauto.
Qed.

Lemma is_dlsym_other f g d :
  g <> f -> is_dlsym g (Dlsym (sym_name f), d) = false.
Proof.
  intros H. unfold is_dlsym. simpl. apply String.eqb_neq. intros E.
  apply H. symmetry. now apply sym_name_inj.
Qed.

Lemma filter_dlsym_cons_other f g d evs :
  g <> f ->
  filter (fun ev => is_dlsym g ev = true) ((Dlsym (sym_name f), d) :: evs)
  = filter (fun ev => is_dlsym g ev = true) evs.
Proof.
  intros H. rewrite filter_cons, is_dlsym_other by assumption.
  now rewrite decide_False by discriminate.
Qed.

Lemma log_law_cached fuel i s :
  static (entry_of i) s <> 0 -> log_law K fuel i s.
Proof.
  intros Hc. unfold log_law.
  assert (Hres : resolve K (entry_of i) s = Ret (static (entry_of i) s) s).
  { rewrite resolve_eq. apply Z.eqb_neq in Hc. now rewrite Hc. }
  rewrite (invoke_resolved fuel i s _ s Hres Hc).
  destruct (resolved_log fuel i s) as (rest & Htr & Hq & Hst).
  exists [], rest. split; [exact Htr|]. split; [exact Hq|]. split; [auto|].
  intros H. contradiction.
Qed.

(** The state after a loader query that found the pointer null. *)
Lemma resolve_null f s :
  static f s = 0 ->
  exists d s0,
    resolve K f s = Ret (r_ret d) s0 /\
    trace s0 = trace s ++ [(Dlsym (sym_name f), d)] /\
    static f s0 = r_ret d /\
    forall g, g <> f -> static g s0 = static g s.
Proof.
  intros Hz. exists (reply_of K (Dlsym (sym_name f)) s).
  exists (with_static f (r_ret (reply_of K (Dlsym (sym_name f)) s))
            (next K (Dlsym (sym_name f)) s)).
  split; [rewrite resolve_eq, Hz; reflexivity|].
  split; [rewrite trace_with_static; apply trace_next|].
  split; [apply static_with_static_eq|].
  intros g Hg. rewrite static_with_static_ne by assumption. apply static_next.
Qed.

Lemma log_law_simple fuel i s : simple i -> log_law K fuel i s.
Proof.
  intros Hs. destruct (Z.eq_dec (static (entry_of i) s) 0) as [Hz|Hnz];
    [|now apply log_law_cached].
  destruct (resolve_null _ _ Hz) as (d & s0 & Hres & Htr0 & Hf0 & Hst0).
  unfold log_law.
  destruct (Z.eq_dec (r_ret d) 0) as [Hd|Hd].
  - rewrite Hd in Hres. rewrite (invoke_unresolved fuel i s s0 Hres).
    assert (Hfin : final (match i with
              | CallRenameat2 od o nd n fl =>
                  if fl =? 0 then renameat K fuel od o nd n s0
                  else Ret (-1) (with_errno ENOSYS s0)
              | _ => Fault (real_of i) s0 end) = s0) by (destruct i; try reflexivity; contradiction).
    rewrite Hfin. exists [(Dlsym (sym_name (entry_of i)), d)], [].
    split; [exact Htr0|]. split; [constructor|]. split; [intros H; contradiction|].
    intros _. exists d. auto.
  - rewrite (invoke_resolved fuel i s _ s0 Hres Hd).
    destruct (resolved_log fuel i s0) as (rest & Htr & Hq & Hst).
    exists [(Dlsym (sym_name (entry_of i)), d)], rest.
    split; [rewrite Htr, Htr0, <- app_assoc; reflexivity|]. split; [exact Hq|].
    split; [intros H; contradiction|].
    intros _. exists d. split; [reflexivity|]. split; [now rewrite Hst|].
    intros g Hg. rewrite Hst. now apply Hst0.
Qed.

Lemma log_law_loader_law fuel i s :
  log_law K fuel i s ->
  exists evs,
    trace (final (invoke K fuel i s)) = trace s ++ evs /\
    (forall g, static g s <> 0 ->
       static g (final (invoke K fuel i s)) = static g s /\
       filter (fun ev => is_dlsym g ev = true) evs = []) /\
    (static (entry_of i) s = 0 ->
       exists d rest,
         evs = (Dlsym (sym_name (entry_of i)), d) :: rest /\
         filter (fun ev => is_dlsym (entry_of i) ev = true) rest = [] /\
         static (entry_of i) (final (invoke K fuel i s)) = r_ret d).
Proof.
  intros (q & rest & Htr & Hq & Hc & Hn).
  exists (q ++ rest). split; [exact Htr|]. split.
  - intros g Hg.
    destruct (Z.eq_dec (static (entry_of i) s) 0) as [Hz|Hnz].
    + destruct (Hn Hz) as (d & -> & _ & Hst).
      assert (g <> entry_of i) by (intros ->; contradiction).
      split; [now apply Hst|]. cbn [app].
      rewrite filter_dlsym_cons_other by assumption. now apply quiet_filter.
    + destruct (Hc Hnz) as (-> & Hst). split; [apply Hst|now apply quiet_filter].
  - intros Hz. destruct (Hn Hz) as (d & -> & Hst & _).
    exists d, rest. split; [reflexivity|]. split; [now apply quiet_filter|exact Hst].
Qed.

(** C9, amended. An invocation queries the loader for its own name exactly
    when its static pointer is null on entry: a pointer that is not null is
    never changed and its name is never queried again, by any entry point;
    a null pointer causes one query, the first call of the invocation, whose
    answer is stored, so that a null answer makes the next invocation query
    again. *)
Theorem loader_queried_while_null fuel (i : invocation) s :
  exists evs,
    trace (final (invoke K fuel i s)) = trace s ++ evs /\
    (forall g, static g s <> 0 ->
       static g (final (invoke K fuel i s)) = static g s /\
       filter (fun ev => is_dlsym g ev = true) evs = []) /\
    (static (entry_of i) s = 0 ->
       exists d rest,
         evs = (Dlsym (sym_name (entry_of i)), d) :: rest /\
         filter (fun ev => is_dlsym (entry_of i) ev = true) rest = [] /\
         static (entry_of i) (final (invoke K fuel i s)) = r_ret d).
Proof.
  destruct i as [o n|od o nd n fl|o n|od o nd n|od o nd n fl];
    try (apply log_law_loader_law, log_law_simple; exact I).
  destruct (Z.eq_dec (static Srenameat2 s) 0) as [Hz|Hnz];
    [|now apply log_law_loader_law, log_law_cached].
  destruct (resolve_null _ _ Hz) as (d & s0 & Hres & Htr0 & Hf0 & Hst0).
  cbn [entry_of].
  destruct (Z.eq_dec (r_ret d) 0) as [Hd|Hd].
  - pose proof Hres as Hres0. rewrite Hd in Hres0.
    rewrite (invoke_unresolved fuel (CallRenameat2 od o nd n fl) s s0 Hres0).
    destruct (Z.eqb_spec fl 0) as [Hfl|Hfl].
    + destruct (log_law_simple fuel (CallRenameat od o nd n) s0 I)
        as (q & rest & Htr & Hq & Hc & Hn).
      cbn [invoke entry_of] in Htr, Hc, Hn.
      assert (Hqq : filter (fun ev => is_dlsym Srenameat2 ev = true) (q ++ rest) = []
                    /\ static Srenameat2 (final (renameat K fuel od o nd n s0)) = static Srenameat2 s0
                    /\ forall g, static g s0 <> 0 ->
                         static g (final (renameat K fuel od o nd n s0)) = static g s0 /\
                         filter (fun ev => is_dlsym g ev = true) (q ++ rest) = []).
      { destruct (Z.eq_dec (static Srenameat s0) 0) as [Hz'|Hnz'].
        - destruct (Hn Hz') as (d' & -> & _ & Hst). cbn [app].
          split; [rewrite filter_dlsym_cons_other by discriminate; now apply quiet_filter|].
          split; [apply Hst; discriminate|].
          intros g Hg. assert (g <> Srenameat) by (intros ->; contradiction).
          split; [now apply Hst|].
          rewrite filter_dlsym_cons_other by assumption. now apply quiet_filter.
        - destruct (Hc Hnz') as (-> & Hst).
          split; [now apply quiet_filter|]. split; [apply Hst|].
          intros g _. split; [apply Hst|now apply quiet_filter]. }
      destruct Hqq as (Hq2 & Hs2 & Hg2).
      exists ((Dlsym (sym_name Srenameat2), d) :: q ++ rest).
      split; [rewrite Htr, Htr0, <- app_assoc; reflexivity|]. split.
      * intros g Hg. assert (Hne : g <> Srenameat2) by (intros ->; contradiction).
        rewrite filter_dlsym_cons_other by assumption.
        rewrite <- (Hst0 g Hne) in Hg. destruct (Hg2 g Hg) as (Ha & Hb).
        split; [rewrite Ha; now apply Hst0|exact Hb].
      * intros _. exists d, (q ++ rest). split; [reflexivity|].
        split; [exact Hq2|]. now rewrite Hs2.
    + cbn [final]. exists [(Dlsym (sym_name Srenameat2), d)].
      split; [exact Htr0|]. split.
      * intros g Hg. assert (Hne : g <> Srenameat2) by (intros ->; contradiction).
        rewrite static_with_errno. split; [now apply Hst0|].
        now rewrite filter_dlsym_cons_other.
      * intros _. exists d, []. rewrite static_with_errno. auto.
  - rewrite (invoke_resolved fuel (CallRenameat2 od o nd n fl) s _ s0 Hres Hd).
    destruct (resolved_log fuel (CallRenameat2 od o nd n fl) s0) as (rest & Htr & Hq & Hst).
    exists ((Dlsym (sym_name Srenameat2), d) :: rest).
    split; [rewrite Htr, Htr0, <- app_assoc; reflexivity|]. split.
    + intros g Hg. assert (Hne : g <> Srenameat2) by (intros ->; contradiction).
      split; [rewrite Hst; now apply Hst0|].
      rewrite filter_dlsym_cons_other by assumption. now apply quiet_filter.
    + intros _. exists d, rest. split; [reflexivity|].
      split; [now apply quiet_filter|]. now rewrite Hst.
Qed.


(** ** The shape of the log of a copying path *)

(** In a path that does not remove the destination first, a status query
    that succeeds is followed at once by the creation of the destination. *)
Lemma path_run_create p evs res e o st rest :
  path_run p evs res e ->
  removes_dest p = None ->
  evs = (opens_source p, o) :: (Fstat (r_ret o), st) :: rest ->
  r_ret st = 0 ->
  exists d rest',
    rest = (opens_dest p (Z.land (st_mode (r_stat st)) 511), d) :: rest'.
Proof.
  unfold path_run. intros H Hnone Hevs Hst0.
  assert (Hrm : forall rm, removal_run (removes_dest p) rm -> rm = []).
  { intros rm [_|c u Hc _]; [reflexivity|]. rewrite Hnone in Hc. discriminate. }
  destruct H as [o' Ho|o' st' cl Ho Hst|o' st' c u cl Ho Hst Hrem Hu He
                |o' st' rm d cl Ho Hst Hr Hd
                |o' st' rm d cevs cres tl res e' Ho Hst Hr Hd Hc Hfin].
  - discriminate.
  - inversion Hevs; subst. contradiction.
  - rewrite Hnone in Hrem. discriminate.
  - rewrite (Hrm _ Hr) in Hevs. inversion Hevs; subst. eauto.
  - rewrite (Hrm _ Hr) in Hevs. inversion Hevs; subst. eauto.
Qed.


End Facts.

(** ** The copy loop on a tape *)
Section Tape.
Import Scripted.

Lemma scripted_reply c (s : state os) :
  reply_of os c s = replies (kernel s) (pos (kernel s)).
Proof. rewrite reply_of_exec. reflexivity. Qed.

Lemma scripted_next c (s : state os) :
  kernel (next os c s) = Tape (replies (kernel s)) (S (pos (kernel s))).
Proof. rewrite kernel_next. reflexivity. Qed.

Lemma copy_loop_on_tape fuel src dst : forall off rem (s : state os),
  result (copy_loop os fuel src dst off rem s)
  = loop_on (replies (kernel s)) fuel (pos (kernel s)) rem.
Proof.
  induction fuel as [|fuel IH]; intros off rem s; simpl;
    destruct (rem >? 0); try reflexivity.
  unfold bind. rewrite libc_eq, scripted_reply.
  destruct (r_ret _ <? 0); [reflexivity|].
  rewrite IH, scripted_next. reflexivity.
Qed.

Lemma copy_fd_on_tape fuel src dst (f : nat -> reply) :
  result (copy_fd os fuel src dst (boot f))
  = if r_ret (f O) =? 0 then loop_on f fuel 1 (st_size (r_stat (f O))) else Some (-1).
Proof.
  unfold copy_fd, bind. rewrite libc_eq, scripted_reply.
  change (replies (kernel (boot f)) (pos (kernel (boot f)))) with (f O).
  destruct (r_ret (f O) =? 0); cbn [negb]; [|reflexivity].
  rewrite copy_loop_on_tape, scripted_next. reflexivity.
Qed.

Lemma loop_on_stops f : forall fuel k,
  loop_on f fuel (S k) (st_size (r_stat (f O)) - moved f k) <> None ->
  exists j, stops f j.
Proof.
  induction fuel as [|fuel IH]; intros k; simpl;
    destruct (Z.gtb_spec (st_size (r_stat (f O)) - moved f k) 0) as [Hpos|Hle];
    intros H; try (exists k; left; lia); try congruence.
  destruct (Z.ltb_spec (r_ret (f (S k))) 0) as [Hneg|Hnn].
  - exists k. right. exact Hneg.
  - apply (IH (S k)). simpl moved.
    replace (st_size (r_stat (f O)) - (moved f k + r_ret (f (S k))))
      with (st_size (r_stat (f O)) - moved f k - r_ret (f (S k))) by lia.
    exact H.
Qed.

Lemma stops_loop_on f : forall n k,
  stops f (n + k) ->
  loop_on f (S n) (S k) (st_size (r_stat (f O)) - moved f k) <> None.
Proof.
  induction n as [|n IH]; intros k Hstop.
  - simpl in *. destruct (Z.gtb_spec (st_size (r_stat (f O)) - moved f k) 0) as [Hpos|Hle];
      [|discriminate].
    destruct Hstop as [Hs|Hs]; [lia|]. apply Z.ltb_lt in Hs. rewrite Hs. discriminate.
  - change (loop_on f (S (S n)) (S k) (st_size (r_stat (f O)) - moved f k))
      with (if st_size (r_stat (f O)) - moved f k >? 0
            then if r_ret (f (S k)) <? 0 then Some (-1)
                 else loop_on f (S n) (S (S k))
                        (st_size (r_stat (f O)) - moved f k - r_ret (f (S k)))
            else Some 0).
    destruct (_ >? 0); [|discriminate].
    destruct (_ <? 0); [discriminate|].
    replace (st_size (r_stat (f O)) - moved f k - r_ret (f (S k)))
      with (st_size (r_stat (f O)) - moved f (S k)) by (simpl; lia).
    apply IH. replace (n + S k)%nat with (S n + k)%nat by lia. exact Hstop.
Qed.

Lemma copy_fd_terminates_iff (f : nat -> reply) (src dst : Z) :
  (r_ret (f O) <> 0 \/ exists k, stops f k) <->
  exists fuel, result (copy_fd os fuel src dst (boot f)) <> None.
Proof.
  split.
  - intros [Hst|[k Hk]].
    + exists O. rewrite copy_fd_on_tape. apply Z.eqb_neq in Hst. rewrite Hst. discriminate.
    + exists (S k). rewrite copy_fd_on_tape. destruct (_ =? 0); [|discriminate].
      pose proof (stops_loop_on f k O) as H. simpl moved in H.
      rewrite Z.sub_0_r, Nat.add_0_r in H. now apply H.
  - intros [fuel H]. rewrite copy_fd_on_tape in H.
    destruct (Z.eqb_spec (r_ret (f O)) 0) as [Hz|Hnz]; [|now left].
    right. apply (loop_on_stops f fuel O). simpl moved. now rewrite Z.sub_0_r.
Qed.

Lemma stalled_loop : forall fuel n, loop_on stalled fuel (S n) 1 = None.
Proof.
  induction fuel as [|fuel IH]; intros n; [reflexivity|].
  simpl. unfold stalled at 1, then_idle. simpl.
  destruct n; simpl; apply IH.
Qed.



End Tape.

Lemma copy_run_result src dst off rem evs r :
  copy_run src dst off rem evs (Some r) -> r = 0 \/ r = -1.
Proof.
  intros H. remember (Some r) as res eqn:E. revert E.
  induction H as [off rem Hle|off rem Hlt|off rem rp Hlt Hneg
                 |off rem rp evs res Hlt Hnn Hrun' IH]; intros E.
  - inversion E. now left.
  - discriminate.
  - inversion E. now right.
  - now apply IH.
Qed.

(** C4, amended. On a tape whose first reply answers [fstat], [copy_fd]
    returns with enough fuel exactly when the status query fails or the loop
    has a reason to stop: at some test nothing remains of the size first
    reported, or some transfer reports an error.  On every operating system
    the calls of [copy_fd] are a run of [copy_fd_run]: a transfer that
    returns zero or more bytes than none without an error is followed by
    the next test with the count reduced by what it moved; a failed call
    ends the run, [copy_fd] returns -1 and [errno] is what that call left. *)
Theorem copy_fd_termination (src dst : Z) :
  (forall f : nat -> reply,
     (r_ret (f O) <> 0 \/ exists k, Scripted.stops f k) <->
     exists fuel,
       result (copy_fd Scripted.os fuel src dst (Scripted.boot f)) <> None) /\
  (forall (K : OS) fuel (s : state K),
     exists evs,
       copy_fd_run src dst evs (result (copy_fd K fuel src dst s)) /\
       trace (final (copy_fd K fuel src dst s)) = trace s ++ evs /\
       errno (final (copy_fd K fuel src dst s)) = errno_after evs (errno s)) /\
  (forall (K : OS) fuel (s s' : state K) r,
     copy_fd K fuel src dst s = Ret r s' -> r <> 0 ->
     r = -1 /\
     exists evs ev,
       trace s' = trace s ++ evs /\ last_step evs = Some ev /\
       failed ev = true /\ errno s' = r_errno (snd ev)).
Proof.
  split; [intros f; apply copy_fd_terminates_iff|]. split.
  - intros K fuel s.
    destruct (copy_fd_sound K fuel src dst s) as (evs & Hrun & Htr & Herr & _).
    exists evs. auto.
  - intros K fuel s s' r Hrun Hr.
    destruct (copy_fd_sound K fuel src dst s) as (evs & Hc & Htr & Herr & _).
    rewrite Hrun in Hc, Htr, Herr. cbn [final result] in Hc, Htr, Herr.
    split.
    + inversion Hc as [st Hst|st evs' res Hst Hl]; subst; [reflexivity|].
      destruct (copy_run_result _ _ _ _ _ _ Hl); [contradiction|assumption].
    + destruct (copy_fd_run_failed _ _ _ _ Hc Hr) as (ev & Hl & Hf & He).
      exists evs, ev. rewrite Herr. auto.
Qed.

(** C4, as stated, fails: every transfer succeeds and moves nothing, and no
    amount of fuel lets [copy_fd] return. *)
Lemma copy_fd_stalls :
  (forall n, r_ret (Scripted.stalled (S n)) = 0) /\
  forall fuel,
    result (copy_fd Scripted.os fuel 3 4 (Scripted.boot Scripted.stalled)) = None.
Proof.
  split; [intros [|n]; reflexivity|].
  intros fuel. rewrite copy_fd_on_tape. simpl. apply stalled_loop.
Qed.

(** * The copying paths on the reference file system *)

Section Mem.
Import MemFS.

Implicit Types (w : fs) (m : machine) (s : state os).

(** ** One call on the reference file system *)

Lemma step_planned c e m :
  planned c = true ->
  (exists f, plan m <> [] /\
             step c e m
             = (Reply (-1) (errno_of f) (Stat 0 0) 0, Machine (disk m) (tail (plan m))))
  \/ (exists lim, (plan m = [] -> lim = MAX_RW_COUNT) /\
                  step c e m
                  = (fst (run c lim e (disk m)),
                     Machine (snd (run c lim e (disk m))) (tail (plan m)))).
Proof.
  intros Hp. unfold step. rewrite Hp.
  destruct (plan m) as [|[|f|n] rest]; simpl.
  - right. exists MAX_RW_COUNT. auto.
  - right. exists MAX_RW_COUNT. split; [discriminate|reflexivity].
  - left. exists f. split; [discriminate|reflexivity].
  - right. exists n. split; [discriminate|reflexivity].
Qed.

Lemma errno_of_not_ENOENT f : errno_of f <> ENOENT.
Proof. destruct f; discriminate. Qed.

Lemma with_same w : with_inodes (inodes w) (with_ofds (ofds w) w) = w.
Proof. now destruct w. Qed.

Lemma ofd_of_nat w (fd : nat) : ofd_of w (Z.of_nat fd) = fds w !! fd.
Proof.
  unfold ofd_of. destruct (Z.ltb_spec (Z.of_nat fd) 0); [lia|]. now rewrite Nat2Z.id.
Qed.

Lemma write_at_end (data bytes : list Byte.byte) :
  write_at (length data) bytes data = data ++ bytes.
Proof.
  unfold write_at. rewrite firstn_all, Nat.sub_diag. simpl.
  rewrite drop_ge by lia. now rewrite app_nil_r.
Qed.

Lemma take_extend (data : list Byte.byte) (off n : nat) :
  take off data ++ take n (drop off data) = take (off + n) data.
Proof. now rewrite take_take_drop. Qed.

(** In the reference file system a planned call fails by plan, leaving the
    files alone, or runs on the files. *)
Lemma libc_mem c s :
  planned c = true ->
  (calm s -> calm (next os c s)) /\
  ((exists f, ~ calm s /\
              reply_of os c s = Reply (-1) (errno_of f) (Stat 0 0) 0 /\
              disk (kernel (next os c s)) = disk (kernel s))
   \/ (exists lim, (calm s -> lim = MAX_RW_COUNT) /\
                   reply_of os c s = fst (run c lim (errno s) (disk (kernel s))) /\
                   disk (kernel (next os c s))
                   = snd (run c lim (errno s) (disk (kernel s))))).
Proof.
  intros Hp. unfold calm. rewrite reply_of_exec, kernel_next.
  change (exec os c (errno s) (kernel s)) with (step c (errno s) (kernel s)).
  destruct (step_planned c (errno s) (kernel s) Hp) as [(f & Hpl & Hs)|(lim & Hpl & Hs)];
    rewrite Hs; simpl.
  - split; [intros H; now rewrite H|]. left. exists f. auto.
  - split; [intros H; now rewrite H|]. right. exists lim. auto.
Qed.

(** ** The copy loop on the reference file system *)

Lemma copying_ne w fd1 fd2 a b i j off fl_out dv md data :
  copying w fd1 fd2 a b i j off fl_out dv md data -> a <> b.
Proof.
  intros [_ _ (p & fl & Ha & _) Hb _ _ _ Hne _] ->. rewrite Hb in Ha.
  inversion Ha; subst. now apply Hne.
Qed.

Lemma advanced_same w fd1 fd2 a b i j off fl_out dv md data :
  copying w fd1 fd2 a b i j off fl_out dv md data ->
  advanced w b j off fl_out dv md data = w.
Proof.
  intros H. unfold advanced. rewrite (insert_id _ _ _ (cp_dst_ino _ _ _ _ _ _ _ _ _ _ _ _ H)).
  rewrite (insert_id _ _ _ (cp_dst _ _ _ _ _ _ _ _ _ _ _ _ H)). apply with_same.
Qed.

Lemma advanced_advanced w b j off1 off2 fl_out dv md data :
  advanced (advanced w b j off1 fl_out dv md data) b j off2 fl_out dv md data
  = advanced w b j off2 fl_out dv md data.
Proof.
  unfold advanced. destruct w; simpl. unfold with_inodes, with_ofds; simpl.
  now rewrite !insert_insert_eq.
Qed.

Lemma copying_advanced w fd1 fd2 a b i j off off' fl_out dv md data :
  copying w fd1 fd2 a b i j off fl_out dv md data ->
  0 <= off' <= Z.of_nat (length data) ->
  copying (advanced w b j off' fl_out dv md data) fd1 fd2 a b i j off' fl_out dv md data.
Proof.
  intros H Hoff. pose proof (copying_ne _ _ _ _ _ _ _ _ _ _ _ _ H) as Hab.
  destruct H as [H1 H2 (p & fl & Ha & Hr) Hb Hw (dvi & mdi & Hi) Hj Hne _].
  unfold advanced. destruct w; simpl in *. split; simpl; auto.
  - exists p, fl. split; [|assumption]. now rewrite lookup_insert_ne.
  - apply lookup_insert_eq.
  - exists dvi, mdi. now rewrite lookup_insert_ne.
  - apply lookup_insert_eq.
Qed.

Lemma sendfile_copying w fd1 fd2 a b i j off fl_out dv md data lim e :
  copying w fd1 fd2 a b i j off fl_out dv md data ->
  let n := Z.max 0 (Z.min (Z.min (Z.of_nat (length data) - off)
                             (Z.of_nat (length data) - off)) lim) in
  k_sendfile lim (Z.of_nat fd2) (Z.of_nat fd1) off (Z.of_nat (length data) - off) e w
  = (Reply n e (Stat 0 0) (off + n), advanced w b j (off + n) fl_out dv md data).
Proof.
  intros [H1 H2 (p & fl & Ha & Hr) Hb Hw (dvi & mdi & Hi) Hj Hne Hoff].
  set (len := Z.of_nat (length data)) in *. intros n.
  unfold k_sendfile, file_of. rewrite !ofd_of_nat, H1, H2, Ha, Hb, Hr, Hw. simpl.
  destruct (Z.ltb_spec off 0) as [?|_]; [lia|].
  rewrite Hi, Hj. simpl. fold len. fold n.
  unfold advanced. do 3 f_equal.
  assert (Hlen : length (take (Z.to_nat off) data) = Z.to_nat off).
  { rewrite length_take. subst len. lia. }
  rewrite <- Hlen at 1. rewrite write_at_end, take_extend.
  do 2 f_equal. subst n len. lia.
Qed.

Lemma copy_loop_mem fd1 fd2 a b i j fl_out dv md data : forall fuel off s,
  copying (disk (kernel s)) fd1 fd2 a b i j off fl_out dv md data ->
  match copy_loop os fuel (Z.of_nat fd1) (Z.of_nat fd2) off
          (Z.of_nat (length data) - off) s with
  | Ret r s' =>
      exists off',
        off <= off' <= Z.of_nat (length data) /\
        disk (kernel s') = advanced (disk (kernel s)) b j off' fl_out dv md data /\
        (r = 0 -> off' = Z.of_nat (length data)) /\
        (calm s -> r = 0 /\ calm s')
  | Timeout _ => calm s -> (fuel < Z.to_nat (Z.of_nat (length data) - off))%nat
  | Fault _ _ => False
  end.
Proof.
  induction fuel as [|fuel IH]; intros off s Hc; pose proof (cp_off _ _ _ _ _ _ _ _ _ _ _ _ Hc) as Hoff;
    simpl; destruct (Z.gtb_spec (Z.of_nat (length data) - off) 0) as [Hpos|Hle];
    try (intros _; lia);
    try (unfold ret; exists off; split; [lia|]; split; [|split; [intros _; lia|auto]];
         symmetry; eapply advanced_same; eauto).
  unfold bind. rewrite libc_eq.
  set (c := Sendfile (Z.of_nat fd2) (Z.of_nat fd1) off (Z.of_nat (length data) - off)).
  destruct (libc_mem c s eq_refl) as (Hcalm & [(f & Hnc & Hrp & Hk)|(lim & Hlim & Hrp & Hk)]).
  - rewrite Hrp. simpl. unfold ret. exists off. split; [lia|]. rewrite Hk.
    split; [symmetry; eapply advanced_same; eauto|].
    split; [intros; lia|]. intros H. contradiction.
  - subst c. simpl run in Hrp, Hk.
    pose proof (sendfile_copying _ _ _ _ _ _ _ _ _ _ _ _ lim (errno s) Hc) as Hsf.
    cbv zeta in Hsf.
    set (n := Z.max 0 (Z.min (Z.min (Z.of_nat (length data) - off)
                                (Z.of_nat (length data) - off)) lim)) in *.
    rewrite Hsf in Hk, Hrp. simpl in Hk, Hrp.
    rewrite Hrp. cbn [r_ret r_off].
    assert (Hn : 0 <= n <= Z.of_nat (length data) - off) by (subst n; lia).
    destruct (Z.ltb_spec n 0) as [Hlt|Hge]. { lia. }
    replace (Z.of_nat (length data) - off - n) with (Z.of_nat (length data) - (off + n)) by lia.
    assert (Hc' : copying (disk (kernel (next os
               (Sendfile (Z.of_nat fd2) (Z.of_nat fd1) off (Z.of_nat (length data) - off)) s)))
               fd1 fd2 a b i j (off + n) fl_out dv md data).
    { rewrite Hk. eapply copying_advanced; eauto. lia. }
    specialize (IH (off + n) _ Hc').
    destruct (copy_loop os fuel _ _ _ _ _) as [r s'|c s'|s']; auto.
    + destruct IH as (off' & Ho & Hd & Hr & Hcl). exists off'. split; [lia|].
      split; [rewrite Hd, Hk; apply advanced_advanced|]. split; [assumption|].
      intros H. apply Hcl. now apply Hcalm.
    + intros H. specialize (IH (Hcalm H)).
      pose proof (Hlim H) as El. unfold MAX_RW_COUNT in El.
      assert (1 <= n) by (unfold n; lia).
      lia.
Qed.

(** ** What the calls of a copying path do to the files *)

Lemma at_path_agree w w' dfd p q :
  agree w w' -> at_path w dfd p = inr q -> at_path w' dfd p = inr q.
Proof.
  intros (Hc & _ & _ & Hd). unfold at_path.
  destruct p as [[|c0 p]|]; try discriminate.
  destruct (Ascii.eqb c0 "/"); [auto|].
  destruct (dfd =? AT_FDCWD); [now rewrite Hc|].
  destruct (file_of w dfd) as [[i ps fl|d]|] eqn:E; try discriminate.
  now rewrite (Hd _ _ E).
Qed.

Lemma file_of_lookup w fd o :
  file_of w fd = Some o ->
  exists a, 0 <= fd /\ fds w !! Z.to_nat fd = Some a /\ ofds w !! a = Some o.
Proof.
  unfold file_of, ofd_of. destruct (Z.ltb_spec fd 0); [discriminate|].
  destruct (fds w !! Z.to_nat fd) as [a|] eqn:E; [|discriminate]. eauto.
Qed.

Lemma file_of_intro w fd a o :
  0 <= fd -> fds w !! Z.to_nat fd = Some a -> ofds w !! a = Some o -> file_of w fd = Some o.
Proof.
  intros H0 H1 H2. unfold file_of, ofd_of.
  destruct (Z.ltb_spec fd 0); [lia|]. now rewrite H1.
Qed.

(** [install] picks a descriptor and an open file description not in use. *)
Lemma install_eq o e w :
  install o e w
  = (Reply (Z.of_nat (fresh (dom (fds w)))) e (Stat 0 0) 0,
     with_fds (<[fresh (dom (fds w)) := fresh (dom (ofds w))]> (fds w))
       (with_ofds (<[fresh (dom (ofds w)) := o]> (ofds w)) w)).
Proof. reflexivity. Qed.

Lemma fresh_fd w : fds w !! fresh (dom (fds w)) = None.
Proof. apply not_elem_of_dom, is_fresh. Qed.

Lemma fresh_ofd w : ofds w !! fresh (dom (ofds w)) = None.
Proof. apply not_elem_of_dom, is_fresh. Qed.

Lemma fresh_ino w : inodes w !! fresh (dom (inodes w)) = None.
Proof. apply not_elem_of_dom, is_fresh. Qed.

(** Opening an existing file read-only. *)
Lemma openat_rd_cases dfd p e w :
  (r_ret (fst (k_openat dfd p rd_flags 0 e w)) = -1 /\ snd (k_openat dfd p rd_flags 0 e w) = w /\
   path_file w dfd p = None)
  \/ (exists q i nd,
        at_path w dfd p = inr q /\ names w !! q = Some i /\ inodes w !! i = Some nd /\
        k_openat dfd p rd_flags 0 e w = install (OFile i 0 rd_flags) e w).
Proof.
  unfold k_openat, path_file, file_at. destruct (at_path w dfd p) as [err|q]; [now left|].
  destruct (names w !! q) as [i|] eqn:Hn; [|now left].
  destruct (inodes w !! i) as [nd|] eqn:Hi; [|now left].
  right. exists q, i, nd. auto.
Qed.

(** Creating a file that is not there. *)
Lemma openat_create dfd p q flags mode e w :
  at_path w dfd p = inr q -> names w !! q = None -> has flags O_CREAT = true ->
  k_openat dfd p flags mode e w
  = install (OFile (fresh (dom (inodes w))) 0 flags) e
      (with_names (<[q := fresh (dom (inodes w))]> (names w))
         (with_inodes
            (<[fresh (dom (inodes w)) :=
                 Inode (dev_of w q) (Z.land (Z.land mode (Z.lnot (umask w))) 4095) []]>
               (inodes w)) w)).
Proof. intros Hq Hn Hc. unfold k_openat. now rewrite Hq, Hn, Hc. Qed.

Lemma unlinkat_cases dfd p q e w :
  at_path w dfd p = inr q ->
  (k_unlinkat dfd p e w = fail ENOENT w /\ names w !! q = None)
  \/ (k_unlinkat dfd p e w = ok 0 e (with_names (delete q (names w)) w)).
Proof.
  intros Hq. unfold k_unlinkat. rewrite Hq.
  destruct (names w !! q); [now right|now left].
Qed.

Lemma close_cases (fd : nat) e w :
  k_close (Z.of_nat fd) e w = fail EBADF w
  \/ k_close (Z.of_nat fd) e w = ok 0 e (with_fds (delete fd (fds w)) w).
Proof.
  unfold k_close. rewrite ofd_of_nat, Nat2Z.id. destruct (fds w !! fd); auto.
Qed.

Lemma fstat_file (fd : nat) a i p fl nd e w :
  fds w !! fd = Some a -> ofds w !! a = Some (OFile i p fl) -> inodes w !! i = Some nd ->
  k_fstat (Z.of_nat fd) e w
  = (Reply 0 e (Stat (Z.of_nat (length (i_data nd))) (Z.lor S_IFREG (i_mode nd))) 0, w).
Proof.
  intros H1 H2 H3. unfold k_fstat, file_of. now rewrite ofd_of_nat, H1, H2, H3.
Qed.

Lemma with_fds_same w : with_fds (fds w) w = w.
Proof. now destruct w. Qed.

Lemma close_mem (fd : nat) s :
  (calm s -> calm (next os (Close (Z.of_nat fd)) s)) /\
  exists F,
    disk (kernel (next os (Close (Z.of_nat fd)) s)) = with_fds F (disk (kernel s)) /\
    forall fd', fd' <> fd -> F !! fd' = fds (disk (kernel s)) !! fd'.
Proof.
  destruct (libc_mem (Close (Z.of_nat fd)) s eq_refl)
    as (Hcalm & [(f & _ & _ & Hd)|(lim & _ & _ & Hd)]); (split; [assumption|]);
    rewrite Hd.
  - exists (fds (disk (kernel s))). split; [now rewrite with_fds_same|auto].
  - simpl run. destruct (close_cases fd (errno s) (disk (kernel s))) as [Hc|Hc]; rewrite Hc; simpl.
    + exists (fds (disk (kernel s))). split; [now rewrite with_fds_same|auto].
    + exists (delete fd (fds (disk (kernel s)))). split; [reflexivity|].
      intros fd' Hne. now rewrite lookup_delete_ne.
Qed.

Lemma copy_fd_mem fd1 fd2 a b i j fl_out dv md data fuel s :
  copying (disk (kernel s)) fd1 fd2 a b i j 0 fl_out dv md data ->
  match copy_fd os fuel (Z.of_nat fd1) (Z.of_nat fd2) s with
  | Ret r s' =>
      exists off',
        0 <= off' <= Z.of_nat (length data) /\
        disk (kernel s') = advanced (disk (kernel s)) b j off' fl_out dv md data /\
        (r = 0 -> off' = Z.of_nat (length data)) /\
        (calm s -> r = 0 /\ calm s')
  | Timeout _ => calm s -> (fuel < length data)%nat
  | Fault _ _ => False
  end.
Proof.
  intros Hc. unfold copy_fd, bind. rewrite libc_eq.
  destruct (libc_mem (Fstat (Z.of_nat fd1)) s eq_refl)
    as (Hcalm & [(f & Hnc & Hr & Hd)|(lim & _ & Hr & Hd)]).
  - rewrite Hr. simpl. unfold ret. exists 0. rewrite Hd.
    split; [pose proof (cp_off _ _ _ _ _ _ _ _ _ _ _ _ Hc); lia|].
    split; [symmetry; eapply advanced_same; eauto|].
    split; [intros; lia|]. intros H. contradiction.
  - pose proof Hc as Hc0.
    destruct Hc0 as [H1 H2 (p & fl & Ha & Hrd) Hb Hw (dvi & mdi & Hi) Hj Hne Hoff].
    simpl run in Hr, Hd. rewrite (fstat_file _ _ _ _ _ _ _ _ H1 Ha Hi) in Hr, Hd.
    simpl in Hr, Hd. rewrite Hr. simpl.
    assert (Hc' : copying (disk (kernel (next os (Fstat (Z.of_nat fd1)) s)))
                    fd1 fd2 a b i j 0 fl_out dv md data) by (rewrite Hd; exact Hc).
    pose proof (copy_loop_mem fd1 fd2 a b i j fl_out dv md data fuel 0 _ Hc') as Hl.
    rewrite Z.sub_0_r in Hl. rewrite Hd in Hl.
    destruct (copy_loop os fuel _ _ _ _ _) as [r s'|c s'|s']; auto.
    + destruct Hl as (off' & Ho & Hd' & Hr' & Hcl). exists off'.
      split; [assumption|]. split; [assumption|]. split; [assumption|].
      intros H. apply Hcl. now apply Hcalm.
    + intros H. specialize (Hl (Hcalm H)). lia.
Qed.

Lemma copy_and_close_mem fd1 fd2 a b i j fl_out dv md data fuel s (k : M os Z) :
  copying (disk (kernel s)) fd1 fd2 a b i j 0 fl_out dv md data ->
  match copy_and_close os fuel (Z.of_nat fd1) (Z.of_nat fd2) k s with
  | Ret r s' =>
      (r = -1 /\ ~ calm s /\
       exists off' F,
         closes_only (disk (kernel s)) fd1 fd2 F /\
         disk (kernel s')
         = with_fds F (advanced (disk (kernel s)) b j off' fl_out dv md data))
      \/ (exists s7 F,
            closes_only (disk (kernel s)) fd1 fd2 F /\
            disk (kernel s7)
            = with_fds F (advanced (disk (kernel s)) b j (Z.of_nat (length data))
                            fl_out dv md data) /\
            (calm s -> calm s7) /\
            k s7 = Ret r s')
  | Timeout s' => (calm s -> (fuel < length data)%nat) \/ exists s7, k s7 = Timeout s'
  | Fault c s' => exists s7, k s7 = Fault c s'
  end.
Proof.
  intros Hc. unfold copy_and_close. unfold bind at 1.
  pose proof (copy_fd_mem _ _ _ _ _ _ _ _ _ _ fuel s Hc) as Hcopy.
  destruct (copy_fd os fuel (Z.of_nat fd1) (Z.of_nat fd2) s) as [r s5| |];
    [|contradiction|now left].
  destruct Hcopy as (off' & Hoff & Hd5 & Hr & Hcalm5).
  unfold bind at 1, get_errno. unfold bind at 1. rewrite libc_eq.
  unfold bind at 1. rewrite libc_eq.
  set (s6 := next os (Close (Z.of_nat fd1)) s5).
  set (s7 := next os (Close (Z.of_nat fd2)) s6).
  destruct (close_mem fd1 s5) as (Hc6 & F1 & HF1 & HF1').
  destruct (close_mem fd2 s6) as (Hc7 & F2 & HF2 & HF2'). fold s6 in HF1, Hc6. fold s7 in HF2, Hc7.
  assert (Hd7 : disk (kernel s7)
                = with_fds F2 (advanced (disk (kernel s)) b j off' fl_out dv md data)).
  { rewrite HF2, HF1, Hd5. reflexivity. }
  assert (Hcl : closes_only (disk (kernel s)) fd1 fd2 F2).
  { intros fd Hn1 Hn2. rewrite HF2' by assumption. rewrite HF1. simpl.
    rewrite HF1' by assumption. rewrite Hd5. reflexivity. }
  destruct (Z.eqb_spec r 0) as [->|Hr0]; cbn [negb].
  - rewrite (Hr eq_refl) in Hd7.
    destruct (k s7) as [r' s'|c s'|s'] eqn:Hk; eauto.
    right. exists s7, F2. split; [assumption|]. split; [assumption|]. split; [|exact Hk].
    intros H. apply Hc7, Hc6. now apply Hcalm5.
  - unfold bind, set_errno, ret. left. split; [reflexivity|].
    split; [intros H; destruct (Hcalm5 H); contradiction|].
    exists off', F2. auto.
Qed.

(** ** Creating the destination and copying into it *)

Lemma created_copying w fd1 a i data q flags dv md e :
  sourced w fd1 a i data -> writable flags = true ->
  copying
    (snd (install (OFile (fresh (dom (inodes w))) 0 flags) e
            (with_names (<[q := fresh (dom (inodes w))]> (names w))
               (with_inodes (<[fresh (dom (inodes w)) := Inode dv md []]> (inodes w)) w))))
    fd1 (fresh (dom (fds w))) a (fresh (dom (ofds w))) i (fresh (dom (inodes w)))
    0 flags dv md data.
Proof.
  intros (H1 & (p & fl & Ha & Hrd) & (dvi & mdi & Hi)) Hw.
  pose proof (fresh_fd w) as Hfd. pose proof (fresh_ofd w) as Hofd.
  pose proof (fresh_ino w) as Hino.
  rewrite install_eq. simpl. split; simpl.
  - rewrite lookup_insert_ne; [assumption|]. intros E. rewrite E in Hfd. congruence.
  - apply lookup_insert_eq.
  - exists p, fl. split; [|assumption].
    rewrite lookup_insert_ne; [assumption|]. intros E. rewrite E in Hofd. congruence.
  - apply lookup_insert_eq.
  - assumption.
  - exists dvi, mdi. rewrite lookup_insert_ne; [assumption|].
    intros E. rewrite E in Hino. congruence.
  - rewrite lookup_insert_eq. reflexivity.
  - intros E. rewrite <- E in Hino. congruence.
  - lia.
Qed.

Section Create.

Variables (c_dst : syscall) (nd : Z) (n : cstr) (flags mode : Z).
Hypothesis planned_dst : planned c_dst = true.
Hypothesis run_dst : forall lim e w, run c_dst lim e w = k_openat nd n flags mode e w.
Hypothesis creat_dst : has flags O_CREAT = true.
Hypothesis write_dst : writable flags = true.

Lemma create_phase fd1 a i data q fuel s (k : M os Z) :
  sourced (disk (kernel s)) fd1 a i data ->
  at_path (disk (kernel s)) nd n = inr q ->
  names (disk (kernel s)) !! q = None ->
  match bind os (libc os c_dst)
          (fun d => if r_ret d <? 0 then close_keeping_errno os (Z.of_nat fd1)
                    else copy_and_close os fuel (Z.of_nat fd1) (r_ret d) k) s with
  | Ret r s' =>
      (r = -1 /\ ~ calm s /\ names (disk (kernel s')) = names (disk (kernel s)) /\
       inodes (disk (kernel s')) = inodes (disk (kernel s)))
      \/ (r = -1 /\ ~ calm s /\ exists off',
            copied_to mode (disk (kernel s)) (disk (kernel s')) fd1 q data off')
      \/ (exists s7,
            copied_to mode (disk (kernel s)) (disk (kernel s7)) fd1 q data
              (Z.of_nat (length data)) /\
            (calm s -> calm s7) /\
            k s7 = Ret r s')
  | Timeout s' => (calm s -> (fuel < length data)%nat) \/ exists s7, k s7 = Timeout s'
  | Fault c s' => exists s7, k s7 = Fault c s'
  end.
Proof.
  intros Hsrc Hq Hnone. set (w := disk (kernel s)) in *.
  unfold bind at 1. rewrite libc_eq.
  destruct (libc_mem c_dst s planned_dst)
    as (Hcalm & [(f & Hnc & Hr & Hd)|(lim & _ & Hr & Hd)]).
  - rewrite Hr. simpl. rewrite close_keeping_errno_eq. left.
    cbn [kernel with_errno].
    destruct (close_mem fd1 (next os c_dst s)) as (_ & F & HF & _).
    rewrite HF, Hd. auto.
  - rewrite run_dst in Hr, Hd. fold w in Hr, Hd.
    rewrite (openat_create _ _ _ _ _ _ _ Hq Hnone creat_dst) in Hr, Hd.
    set (j := fresh (dom (inodes w))) in *.
    set (dv := dev_of w q) in *.
    set (m := Z.land (Z.land mode (Z.lnot (umask w))) 4095) in *.
    pose proof (created_copying w fd1 a i data q flags dv m (errno s) Hsrc write_dst) as Hc.
    fold j in Hc. rewrite <- Hd in Hc.
    rewrite install_eq in Hr. simpl in Hr. rewrite Hr. cbn [r_ret].
    destruct (Z.ltb_spec (Z.of_nat (fresh (dom (fds w)))) 0) as [?|_]; [lia|].
    pose proof (copy_and_close_mem _ _ _ _ _ _ _ _ _ _ fuel _ k Hc) as Hcc.
    assert (Hto : forall F off',
               closes_only (disk (kernel (next os c_dst s))) fd1 (fresh (dom (fds w))) F ->
               copied_to mode w (with_fds F (advanced (disk (kernel (next os c_dst s)))
                                          (fresh (dom (ofds w))) j off' flags dv m data))
                 fd1 q data off').
    { intros F off' HF. exists j. rewrite Hd, install_eq. simpl.
      split; [apply fresh_ino|]. split; [reflexivity|].
      split; [now rewrite insert_insert_eq|]. split; [repeat split|].
      intros fd o Hne Hf.
      destruct (file_of_lookup _ _ _ Hf) as (x & H0 & Hx & Hox).
      apply file_of_intro with (a := x); simpl; auto.
      - rewrite HF.
        + rewrite Hd, install_eq. simpl. rewrite lookup_insert_ne; [assumption|].
          intros E. pose proof (fresh_fd w) as Hfr. rewrite E in Hfr. congruence.
        + intros E. apply Hne. rewrite <- E. lia.
        + intros E. pose proof (fresh_fd w) as Hfr. rewrite <- E in Hfr. congruence.
      - rewrite !lookup_insert_ne; [assumption| |];
          intros E; pose proof (fresh_ofd w) as Hfr; rewrite E in Hfr; congruence. }
    destruct (copy_and_close os fuel (Z.of_nat fd1) (Z.of_nat (fresh (dom (fds w)))) k
                (next os c_dst s)) as [r s'|c s'|s']; auto.
    + destruct Hcc as [(-> & Hnc & off' & F & HF & Hd')|(s7 & F & HF & Hd7 & Hc7 & Hk)].
      * right. left. split; [reflexivity|]. split; [auto|].
        exists off'. rewrite Hd'. now apply Hto.
      * right. right. exists s7. split; [|auto]. rewrite Hd7. now apply Hto.
    + destruct Hcc as [Hcc|Hcc]; [left; auto|now right].
Qed.

End Create.

(** ** Opening the source *)

Lemma at_path_keeps w w' dfd p q :
  same_setup w w' -> keeps w w' -> at_path w dfd p = inr q -> at_path w' dfd p = inr q.
Proof.
  intros (H1 & H2 & H3) Hk. apply at_path_agree. repeat split; auto.
Qed.

Lemma dev_of_setup w w' p : same_setup w w' -> dev_of w' p = dev_of w p.
Proof. intros (_ & Hm & _). unfold dev_of. now rewrite Hm. Qed.

Lemma keeps_install w fd a o :
  fds w !! fd = None ->
  ofds w !! a = None \/ ofds w !! a = Some o ->
  keeps w (with_fds (<[fd := a]> (fds w)) (with_ofds (<[a := o]> (ofds w)) w)).
Proof.
  intros Hfd Ha fd' o' Hf.
  destruct (file_of_lookup _ _ _ Hf) as (x & H0 & H1 & H2).
  apply file_of_intro with (a := x); simpl; auto.
  - rewrite lookup_insert_ne; [assumption|]. intros ->. congruence.
  - destruct (decide (a = x)) as [->|Hne].
    + destruct Ha as [Ha|Ha]; [congruence|]. rewrite lookup_insert_eq. congruence.
    + now rewrite lookup_insert_ne.
Qed.

Lemma open_source_mem c_src dfd o s :
  planned c_src = true ->
  (forall lim e w, run c_src lim e w = k_openat dfd o rd_flags 0 e w) ->
  (r_ret (reply_of os c_src s) = -1 /\
   disk (kernel (next os c_src s)) = disk (kernel s) /\
   (calm s -> path_file (disk (kernel s)) dfd o = None))
  \/ (exists fd1 a q i nd,
        r_ret (reply_of os c_src s) = Z.of_nat fd1 /\
        at_path (disk (kernel s)) dfd o = inr q /\
        names (disk (kernel s)) !! q = Some i /\
        inodes (disk (kernel s)) !! i = Some nd /\
        opened (disk (kernel s)) (disk (kernel (next os c_src s))) fd1 /\
        sourced (disk (kernel (next os c_src s))) fd1 a i (i_data nd)).
Proof.
  intros Hp Hrun.
  destruct (libc_mem c_src s Hp) as (_ & [(f & Hnc & Hr & Hd)|(lim & _ & Hr & Hd)]).
  - left. rewrite Hr, Hd. split; [reflexivity|]. split; [reflexivity|].
    intros H. contradiction.
  - rewrite Hrun in Hr, Hd.
    destruct (openat_rd_cases dfd o (errno s) (disk (kernel s)))
      as [(Hf & Hw & Hnone)|(q & i & nd & Hq & Hn & Hi & Ho)].
    + left. rewrite Hr, Hd. auto.
    + right. rewrite Ho, install_eq in Hr, Hd. simpl in Hr, Hd.
      set (w := disk (kernel s)) in *.
      exists (fresh (dom (fds w))), (fresh (dom (ofds w))), q, i, nd.
      rewrite Hr, Hd. simpl.
      split; [reflexivity|]. split; [assumption|]. split; [assumption|].
      split; [assumption|]. split.
      * split; [apply fresh_fd|]. split; [reflexivity|]. split; [reflexivity|].
        split; [repeat split|]. apply keeps_install; [apply fresh_fd|left; apply fresh_ofd].
      * split; [simpl; apply lookup_insert_eq|]. split; simpl.
        -- exists 0, rd_flags. split; [apply lookup_insert_eq|reflexivity].
        -- destruct nd as [dvi mdi dat]. exists dvi, mdi. assumption.
Qed.

Lemma fstat_sourced w fd1 a i data e :
  sourced w fd1 a i data ->
  exists md,
    k_fstat (Z.of_nat fd1) e w
    = (Reply 0 e (Stat (Z.of_nat (length data)) (Z.lor S_IFREG md)) 0, w) /\
    exists dvi, inodes w !! i = Some (Inode dvi md data).
Proof.
  intros (H1 & (p & fl & Ha & _) & (dvi & mdi & Hi)).
  exists mdi. split; [|eauto]. now rewrite (fstat_file _ _ _ _ _ _ _ _ H1 Ha Hi).
Qed.

(** ** The move paths *)

Lemma cleanup_mem c_cl od o s7 po :
  planned c_cl = true ->
  (forall lim e w, run c_cl lim e w = k_unlinkat od o e w) ->
  at_path (disk (kernel s7)) od o = inr po ->
  match bind os (libc os c_cl)
          (fun u' => if negb (r_ret u' =? 0) then ret os (-1) else ret os 0) s7 with
  | Ret r s' =>
      (r = 0 /\ disk (kernel s')
                = with_names (delete po (names (disk (kernel s7)))) (disk (kernel s7)))
      \/ (r = -1 /\ disk (kernel s') = disk (kernel s7) /\
          (~ calm s7 \/ names (disk (kernel s7)) !! po = None))
  | _ => False
  end.
Proof.
  intros Hp Hrun Hq. unfold bind. rewrite libc_eq.
  destruct (libc_mem c_cl s7 Hp) as (_ & [(f & Hnc & Hr & Hd)|(lim & _ & Hr & Hd)]).
  - rewrite Hr. simpl. unfold ret. right. auto.
  - rewrite Hrun in Hr, Hd.
    destruct (unlinkat_cases od o po (errno s7) (disk (kernel s7)) Hq) as [(Hu & ?)|Hu];
      rewrite Hu in Hr, Hd; rewrite Hr; simpl; unfold ret; [right|left]; auto.
Qed.

Lemma keeps_through w w3 w7 fd1 :
  fds w !! fd1 = None -> keeps w w3 -> keeps_but fd1 w3 w7 -> keeps w w7.
Proof.
  intros Hfd H1 H2 fd o Hf. apply H2; [|now apply H1].
  intros ->. destruct (file_of_lookup _ _ _ Hf) as (x & _ & Hx & _).
  rewrite Nat2Z.id in Hx. congruence.
Qed.

Lemma same_setup_trans w1 w2 w3 : same_setup w1 w2 -> same_setup w2 w3 -> same_setup w1 w3.
Proof. intros (A1 & A2 & A3) (B1 & B2 & B3). repeat split; congruence. Qed.

Section Move.

Variables (c_src c_rm c_cl : syscall) (c_dst : Z -> syscall)
          (od : Z) (o : cstr) (nd : Z) (n : cstr).
Hypothesis planned_src : planned c_src = true.
Hypothesis planned_rm : planned c_rm = true.
Hypothesis planned_cl : planned c_cl = true.
Hypothesis planned_dst : forall mode, planned (c_dst mode) = true.
Hypothesis run_src : forall lim e w, run c_src lim e w = k_openat od o rd_flags 0 e w.
Hypothesis run_rm : forall lim e w, run c_rm lim e w = k_unlinkat nd n e w.
Hypothesis run_cl : forall lim e w, run c_cl lim e w = k_unlinkat od o e w.
Hypothesis run_dst :
  forall mode lim e w, run (c_dst mode) lim e w = k_openat nd n trunc_flags mode e w.

Lemma move_mem fuel s po pn :
  at_path (disk (kernel s)) od o = inr po ->
  at_path (disk (kernel s)) nd n = inr pn ->
  po <> pn ->
  match copy_skeleton os fuel c_src (Some c_rm) c_dst (Some c_cl) s with
  | Ret r s' =>
      (r = 0 ->
       exists src,
         file_at (disk (kernel s)) po = Some src /\
         file_at (disk (kernel s')) pn
         = Some (Inode (dev_of (disk (kernel s)) pn)
                   (created_mode (disk (kernel s)) (i_mode src)) (i_data src)) /\
         file_at (disk (kernel s')) po = None) /\
      (r <> 0 -> r = -1 /\ file_at (disk (kernel s')) po = file_at (disk (kernel s)) po) /\
      (calm s -> file_at (disk (kernel s)) po <> None -> r = 0)
  | Timeout _ =>
      calm s ->
      exists src, file_at (disk (kernel s)) po = Some src /\ (fuel < length (i_data src))%nat
  | Fault _ _ => False
  end.
Proof.
  intros Hpo Hpn Hne. set (w := disk (kernel s)) in *.
  unfold copy_skeleton. unfold bind at 1. rewrite libc_eq.
  destruct (open_source_mem c_src od o s planned_src run_src)
    as [(Hr & Hd & Hwhy)|(fd1 & a & q & i & src & Hr & Hq & Hn & Hi & Hop & Hsrc)].
  { rewrite Hr. simpl. unfold ret. split; [discriminate|].
    split; [intros _; now rewrite Hd|].
    intros Hc Hsome. specialize (Hwhy Hc). unfold path_file in Hwhy. fold w in Hwhy.
    rewrite Hpo in Hwhy. contradiction. }
  fold w in Hq, Hn, Hi, Hop. rewrite Hpo in Hq. inversion Hq; subst q. clear Hq.
  rewrite Hr. destruct (Z.ltb_spec (Z.of_nat fd1) 0) as [?|_]; [lia|].
  set (s1 := next os c_src s) in *. set (w1 := disk (kernel s1)) in *.
  destruct Hop as (Hfd1 & Hn1 & Hi1 & Hset1 & Hk1).
  assert (Hfile : file_at w po = Some src) by (unfold file_at; now rewrite Hn).
  assert (Hcalm1 : calm s -> calm s1) by (apply libc_mem, planned_src).
  (* the status query *)
  unfold bind at 1. rewrite libc_eq.
  set (s2 := next os (Fstat (Z.of_nat fd1)) s1).
  destruct (libc_mem (Fstat (Z.of_nat fd1)) s1 eq_refl)
    as (Hcalm2 & [(f & Hnc2 & Hr2 & Hd2)|(lim & _ & Hr2 & Hd2)]);
    fold s2 in Hd2, Hcalm2.
  { rewrite Hr2. simpl. rewrite close_keeping_errno_eq. cbn [kernel with_errno].
    destruct (close_mem fd1 s2) as (_ & F & HF & _). rewrite HF, Hd2. fold w1.
    split; [discriminate|]. split.
    - intros _. split; [reflexivity|].
      unfold file_at. simpl. now rewrite Hn1, Hi1.
    - intros Hc _. contradiction Hnc2. auto. }
  simpl run in Hr2, Hd2. fold w1 in Hr2, Hd2.
  destruct (fstat_sourced w1 fd1 a i (i_data src) (errno s1) Hsrc) as (md & Hfs & dvi & Hino).
  assert (Hmd : md = i_mode src).
  { rewrite Hi1, Hi in Hino. now inversion Hino. }
  subst md. rewrite Hfs in Hr2, Hd2. simpl in Hr2, Hd2. rewrite Hr2. cbn [r_ret r_stat st_mode negb Z.eqb].
  (* the removal of the destination *)
  unfold bind at 1. rewrite libc_eq. unfold bind at 1, get_errno.
  set (s3 := next os c_rm s2).
  assert (Hpn2 : at_path (disk (kernel s2)) nd n = inr pn).
  { rewrite Hd2. eapply at_path_keeps; eauto. }
  assert (He3 : errno s3 = r_errno (reply_of os c_rm s2)) by apply errno_next.
  rewrite He3.
  assert (Hcont :
    forall s3' : state os,
      sourced (disk (kernel s3')) fd1 a i (i_data src) ->
      names (disk (kernel s3')) = delete pn (names w) \/
        (names (disk (kernel s3')) = names w /\ names w !! pn = None) ->
      inodes (disk (kernel s3')) = inodes w ->
      same_setup w (disk (kernel s3')) -> keeps w (disk (kernel s3')) ->
      (calm s -> calm s3') ->
      match bind os (libc os (c_dst (Z.land (Z.lor S_IFREG (i_mode src)) 511)))
              (fun d => if r_ret d <? 0 then close_keeping_errno os (Z.of_nat fd1)
                        else copy_and_close os fuel (Z.of_nat fd1) (r_ret d)
                               (bind os (libc os c_cl)
                                  (fun u' => if negb (r_ret u' =? 0) then ret os (-1)
                                             else ret os 0))) s3' with
      | Ret r s' =>
          (r = 0 ->
           exists src0,
             file_at w po = Some src0 /\
             file_at (disk (kernel s')) pn
             = Some (Inode (dev_of w pn) (created_mode w (i_mode src0)) (i_data src0)) /\
             file_at (disk (kernel s')) po = None) /\
          (r <> 0 -> r = -1 /\ file_at (disk (kernel s')) po = file_at w po) /\
          (calm s -> file_at w po <> None -> r = 0)
      | Timeout _ =>
          calm s -> exists src0, file_at w po = Some src0 /\ (fuel < length (i_data src0))%nat
      | Fault _ _ => False
      end).
  { intros s3' Hsrc3 Hnames3 Hino3 Hset3 Hkeep3 Hcalm3.
    assert (Hpn3 : at_path (disk (kernel s3')) nd n = inr pn)
      by (eapply at_path_keeps; eauto).
    assert (Hnone3 : names (disk (kernel s3')) !! pn = None).
    { destruct Hnames3 as [->|[-> ?]]; [apply lookup_delete_eq|assumption]. }
    assert (Hpo3 : names (disk (kernel s3')) !! po = Some i).
    { destruct Hnames3 as [->|[-> ?]]; [rewrite lookup_delete_ne by congruence|]; assumption. }
    pose proof (create_phase (c_dst (Z.land (Z.lor S_IFREG (i_mode src)) 511)) nd n
                  trunc_flags (Z.land (Z.lor S_IFREG (i_mode src)) 511)
                  (planned_dst _) (run_dst _) eq_refl eq_refl
                  fd1 a i (i_data src) pn fuel s3'
                  (bind os (libc os c_cl)
                     (fun u' => if negb (r_ret u' =? 0) then ret os (-1) else ret os 0))
                  Hsrc3 Hpn3 Hnone3) as Hcp.
    assert (Hkept : forall w' off',
               copied_to (Z.land (Z.lor S_IFREG (i_mode src)) 511)
                 (disk (kernel s3')) w' fd1 pn (i_data src) off' ->
               file_at w' po = Some src /\
               names w' !! po = Some i /\
               same_setup w w' /\ keeps w w' /\
               file_at w' pn
               = Some (Inode (dev_of w pn) (created_mode w (i_mode src))
                         (take (Z.to_nat off') (i_data src)))).
    { intros w' off' (j & Hj & Hnm & Hin & Hset & Hkb).
      assert (Hij : i <> j) by (intros ->; rewrite Hino3 in Hj; congruence).
      assert (Hpo' : names w' !! po = Some i).
      { rewrite Hnm, lookup_insert_ne by congruence. assumption. }
      split; [|split; [assumption|split; [|split]]].
      - unfold file_at. rewrite Hpo', Hin, lookup_insert_ne by congruence.
        now rewrite Hino3.
      - eapply same_setup_trans; eauto.
      - eapply keeps_through; eauto.
      - unfold file_at. rewrite Hnm, lookup_insert_eq, Hin, lookup_insert_eq.
        rewrite (dev_of_setup _ _ _ Hset3). destruct Hset3 as (_ & _ & Hum).
        unfold created_mode. now rewrite Hum. }
    destruct (bind os (libc os (c_dst _)) _ s3') as [r s'|c s'|s'].
    - destruct Hcp as [(-> & Hnc & Hnm & Hin)|[(-> & Hnc & off' & Hto)|(s7 & Hto & Hc7 & Hk)]].
      + split; [discriminate|]. split.
        * intros _. split; [reflexivity|].
          unfold file_at. rewrite Hnm, Hpo3, Hin, Hino3. now rewrite Hn.
        * intros Hc _. contradiction Hnc. auto.
      + split; [discriminate|]. split.
        * intros _. split; [reflexivity|].
          destruct (Hkept _ _ Hto) as (Hf & _). now rewrite Hf.
        * intros Hc _. contradiction Hnc. auto.
      + destruct (Hkept _ _ Hto) as (Hf7 & Hpo7 & Hset7 & Hkeep7 & Hpn7).
        assert (Hat7 : at_path (disk (kernel s7)) od o = inr po)
          by (eapply at_path_keeps; eauto).
        pose proof (cleanup_mem c_cl od o s7 po planned_cl run_cl Hat7) as Hcl.
        rewrite Hk in Hcl. destruct Hcl as [(-> & Hd8)|(-> & Hd8 & Hwhy)].
        * split; [|split; [intros H; now contradiction H|reflexivity]].
          intros _. exists src.
          split; [assumption|]. rewrite Hd8. unfold file_at in *. simpl.
          rewrite lookup_delete_eq. split; [|reflexivity].
          rewrite lookup_delete_ne by congruence.
          rewrite Nat2Z.id, firstn_all in Hpn7. exact Hpn7.
        * split; [discriminate|]. split.
          -- intros _. split; [reflexivity|]. rewrite Hd8. now rewrite Hf7.
          -- intros Hc _. destruct Hwhy as [Hnc|Hnone]; [contradiction Hnc; auto|congruence].
    - destruct Hcp as (s7 & Hk).
      unfold bind in Hk. rewrite libc_eq in Hk.
      destruct (negb _); discriminate.
    - intros Hc. exists src. split; [assumption|].
      destruct Hcp as [Hcp|(s7 & Hk)]; [auto|].
      unfold bind in Hk. rewrite libc_eq in Hk.
      destruct (negb _); discriminate. }
  destruct (libc_mem c_rm s2 planned_rm)
    as (Hcalm3 & [(f & Hnc3 & Hr3 & Hd3)|(lim3 & _ & Hr3 & Hd3)]); fold s3 in Hd3, Hcalm3.
  { rewrite Hr3. cbn [r_ret r_errno].
    destruct (Z.eqb_spec (errno_of f) ENOENT) as [E|_]; [now apply errno_of_not_ENOENT in E|].
    simpl. rewrite close_keeping_errno_eq. cbn [kernel with_errno].
    destruct (close_mem fd1 s3) as (_ & F & HF & _). rewrite HF, Hd3, Hd2. fold w1.
    split; [discriminate|]. split.
    - intros _. split; [reflexivity|].
      unfold file_at. simpl. now rewrite Hn1, Hi1.
    - intros Hc _. contradiction Hnc3. auto. }
  rewrite run_rm in Hr3, Hd3.
  destruct (unlinkat_cases nd n pn (errno s2) (disk (kernel s2)) Hpn2) as [(Hu & Hnone)|Hu];
    rewrite Hu in Hr3, Hd3; rewrite Hr3; cbn [r_ret r_errno fst fail ok];
    simpl in Hd3; rewrite Hd2 in Hd3; fold w1 in Hd3.
  - simpl. apply Hcont.
    + now rewrite Hd3.
    + right. rewrite Hd3, Hn1. split; [reflexivity|].
      rewrite Hd2 in Hnone. fold w1 in Hnone. now rewrite Hn1 in Hnone.
    + now rewrite Hd3.
    + now rewrite Hd3.
    + now rewrite Hd3.
    + auto.
  - simpl. apply Hcont.
    + rewrite Hd3. exact Hsrc.
    + left. rewrite Hd3. simpl. now rewrite Hn1.
    + rewrite Hd3. simpl. exact Hi1.
    + rewrite Hd3. exact Hset1.
    + rewrite Hd3. exact Hk1.
    + auto.
Qed.

End Move.

(** ** The link paths *)

Lemma openat_excl_taken dfd p q j mode e w :
  at_path w dfd p = inr q -> names w !! q = Some j ->
  r_ret (fst (k_openat dfd p excl_flags mode e w)) = -1 /\
  snd (k_openat dfd p excl_flags mode e w) = w /\
  (inodes w !! j <> None -> r_errno (fst (k_openat dfd p excl_flags mode e w)) = EEXIST).
Proof.
  intros Hq Hn. unfold k_openat. rewrite Hq, Hn.
  destruct (inodes w !! j); simpl; auto. repeat split. congruence.
Qed.

Lemma fstat_disk fd e w : snd (k_fstat fd e w) = w.
Proof.
  unfold k_fstat. destruct (file_of w fd) as [[i p fl|d]|]; try reflexivity.
  now destruct (inodes w !! i).
Qed.

Lemma dup_source_mem fd s :
  (r_ret (reply_of os (Dup fd) s) = -1 /\
   disk (kernel (next os (Dup fd) s)) = disk (kernel s) /\
   (calm s -> fd_file (disk (kernel s)) fd = None))
  \/ (exists fd1 a,
        r_ret (reply_of os (Dup fd) s) = Z.of_nat fd1 /\
        ofd_of (disk (kernel s)) fd = Some a /\
        opened (disk (kernel s)) (disk (kernel (next os (Dup fd) s))) fd1 /\
        fds (disk (kernel (next os (Dup fd) s))) !! fd1 = Some a /\
        ofds (disk (kernel (next os (Dup fd) s))) = ofds (disk (kernel s))).
Proof.
  destruct (libc_mem (Dup fd) s eq_refl) as (_ & [(f & Hnc & Hr & Hd)|(lim & _ & Hr & Hd)]).
  - left. rewrite Hr, Hd. split; [reflexivity|]. split; [reflexivity|].
    intros H. contradiction.
  - simpl run in Hr, Hd. unfold k_dup in Hr, Hd.
    destruct (ofd_of (disk (kernel s)) fd) as [a|] eqn:Ha.
    + right. set (w := disk (kernel s)) in *. simpl in Hr, Hd.
      exists (fresh (dom (fds w))), a. rewrite Hr, Hd. simpl.
      split; [reflexivity|]. split; [reflexivity|]. split; [|split; [apply lookup_insert_eq|reflexivity]].
      split; [apply fresh_fd|]. split; [reflexivity|]. split; [reflexivity|].
      split; [repeat split|].
      intros fd' o' Hf. destruct (file_of_lookup _ _ _ Hf) as (x & H0 & H1 & H2).
      apply file_of_intro with (a := x); simpl; auto.
      rewrite lookup_insert_ne; [assumption|]. intros E.
      pose proof (fresh_fd w) as Hfr. rewrite E in Hfr. congruence.
    + left. rewrite Hr, Hd. split; [reflexivity|]. split; [reflexivity|].
      intros _. unfold fd_file, file_of. now rewrite Ha.
Qed.

Lemma opens_path c_src dfd o :
  planned c_src = true ->
  (forall lim e w, run c_src lim e w = k_openat dfd o rd_flags 0 e w) ->
  (forall w, source_of c_src w = path_file w dfd o) ->
  opens c_src.
Proof.
  intros Hp Hrun Hsrc. split; [assumption|]. intros s. rewrite Hsrc.
  destruct (open_source_mem c_src dfd o s Hp Hrun)
    as [H|(fd1 & a & q & i & nd & Hr & Hq & Hn & Hi & Hop & Hsd)]; [now left|].
  right. exists fd1. split; [assumption|]. split; [assumption|].
  intros src. unfold path_file, file_at. rewrite Hq, Hn, Hi. intros E.
  inversion E; subst src. exists a, i. auto.
Qed.

Lemma opens_open o : opens (Open o rd_flags 0).
Proof. now apply opens_path with (dfd := AT_FDCWD) (o := o). Qed.

Lemma opens_openat dfd o : opens (Openat dfd o rd_flags 0).
Proof. now apply opens_path with (dfd := dfd) (o := o). Qed.

Lemma opens_dup fd : opens (Dup fd).
Proof.
  split; [reflexivity|]. intros s.
  destruct (dup_source_mem fd s) as [H|(fd1 & a & Hr & Ha & Hop & Hfd1 & Hofds)]; [now left|].
  right. exists fd1. split; [assumption|]. split; [assumption|].
  intros src. simpl. unfold fd_file, file_of. rewrite Ha.
  destruct (ofds (disk (kernel s)) !! a) as [[i pos fl|d]|] eqn:Hoa; try discriminate.
  destruct (readable fl) eqn:Hrd; [|discriminate]. intros Hi.
  exists a, i. split; [assumption|]. split; [assumption|]. split.
  - exists pos, fl. rewrite Hofds. auto.
  - destruct Hop as (_ & _ & Hin & _). rewrite Hin.
    destruct src as [dvi mdi dat]. exists dvi, mdi. assumption.
Qed.

Section Link.

Variables (c_src : syscall) (c_dst : Z -> syscall) (nd : Z) (n : cstr).
Hypothesis opens_src : opens c_src.
Hypothesis planned_dst : forall mode, planned (c_dst mode) = true.
Hypothesis run_dst :
  forall mode lim e w, run (c_dst mode) lim e w = k_openat nd n excl_flags mode e w.

(** The destination is taken: the path returns -1 and the files are those
    it found. *)
Lemma excl_taken_mem fuel s pn j :
  at_path (disk (kernel s)) nd n = inr pn ->
  names (disk (kernel s)) !! pn = Some j ->
  match copy_skeleton os fuel c_src None c_dst None s with
  | Ret r s' =>
      r = -1 /\
      names (disk (kernel s')) = names (disk (kernel s)) /\
      inodes (disk (kernel s')) = inodes (disk (kernel s)) /\
      (calm s -> source_of c_src (disk (kernel s)) <> None ->
       inodes (disk (kernel s)) !! j <> None -> errno s' = EEXIST)
  | _ => False
  end.
Proof.
  intros Hpn Hj. set (w := disk (kernel s)) in *.
  destruct opens_src as (planned_src & Hsrc).
  unfold copy_skeleton. unfold bind at 1. rewrite libc_eq.
  destruct (Hsrc s) as [(Hr & Hd & Hwhy)|(fd1 & Hr & Hop & Hsd)].
  { rewrite Hr. simpl. unfold ret. rewrite Hd. repeat split.
    intros Hc Hs. specialize (Hwhy Hc). contradiction. }
  rewrite Hr. destruct (Z.ltb_spec (Z.of_nat fd1) 0) as [?|_]; [lia|].
  set (s1 := next os c_src s) in *. fold w in Hop, Hsd.
  destruct Hop as (Hfd1 & Hn1 & Hi1 & Hset1 & Hk1).
  assert (Hcalm1 : calm s -> calm s1) by (apply libc_mem, planned_src).
  unfold bind at 1. rewrite libc_eq.
  set (s2 := next os (Fstat (Z.of_nat fd1)) s1).
  assert (Hclose : forall s3 : state os,
             disk (kernel s3) = disk (kernel s1) ->
             (calm s -> source_of c_src w <> None -> inodes w !! j <> None ->
              errno s3 = EEXIST) ->
             match close_keeping_errno os (Z.of_nat fd1) s3 with
             | Ret r s' => r = -1 /\ names (disk (kernel s')) = names w /\
                           inodes (disk (kernel s')) = inodes w /\
                           (calm s -> source_of c_src w <> None -> inodes w !! j <> None ->
                            errno s' = EEXIST)
             | _ => False
             end).
  { intros s3 Hd3 He3. rewrite close_keeping_errno_eq. cbn [kernel with_errno errno].
    destruct (close_mem fd1 s3) as (_ & F & HF & _). rewrite HF, Hd3. simpl. auto. }
  destruct (libc_mem (Fstat (Z.of_nat fd1)) s1 eq_refl)
    as (Hcalm2 & [(f & Hnc2 & Hr2 & Hd2)|(lim & _ & Hr2 & Hd2)]); fold s2 in Hd2, Hcalm2.
  { rewrite Hr2. simpl. apply Hclose; [assumption|]. intros Hc. contradiction Hnc2. auto. }
  simpl run in Hr2, Hd2. rewrite fstat_disk in Hd2.
  destruct (negb (r_ret (reply_of os (Fstat (Z.of_nat fd1)) s1) =? 0)) eqn:Hst.
  { apply Hclose; [assumption|]. intros _ Hs _.
    destruct (source_of c_src w) as [src|]; [|congruence].
    destruct (Hsd src eq_refl) as (a & i & _ & Hsrcd).
    destruct (fstat_sourced _ fd1 a i (i_data src) (errno s1) Hsrcd) as (md & Hfs & _).
    rewrite Hfs in Hr2. rewrite Hr2 in Hst. discriminate. }
  unfold bind at 1. rewrite libc_eq.
  set (c := c_dst _). set (s3 := next os c s2).
  assert (Hpn2 : at_path (disk (kernel s2)) nd n = inr pn).
  { rewrite Hd2. eapply at_path_keeps; eauto. }
  assert (Hj2 : names (disk (kernel s2)) !! pn = Some j) by (now rewrite Hd2, Hn1).
  assert (Hr3 : r_ret (reply_of os c s2) = -1 /\ disk (kernel s3) = disk (kernel s1) /\
                (calm s -> inodes w !! j <> None -> errno s3 = EEXIST)).
  { assert (He : errno s3 = r_errno (reply_of os c s2)) by apply errno_next.
    rewrite He. clear He.
    destruct (libc_mem c s2 (planned_dst _))
      as (_ & [(f & Hnc3 & Hr3 & Hd3)|(lim3 & _ & Hr3 & Hd3)]);
      fold s3 in Hd3; rewrite Hr3, Hd3.
    - rewrite Hd2. split; [reflexivity|]. split; [reflexivity|].
      intros Hc. contradiction Hnc3. auto.
    - unfold c. rewrite run_dst.
      destruct (openat_excl_taken nd n pn j (Z.land (st_mode (r_stat (reply_of os (Fstat (Z.of_nat fd1)) s1))) 511)
                  (errno s2) (disk (kernel s2)) Hpn2 Hj2) as (Ha & Hb & He).
      rewrite Ha, Hb. split; [reflexivity|]. split; [exact Hd2|].
      intros _ Hin. apply He. now rewrite Hd2, Hi1. }
  destruct Hr3 as (Hr3 & Hd3 & He3). rewrite Hr3. simpl. apply Hclose; auto.
Qed.

(** The source is there: on success the destination is a new file with the
    content of the source, and with no fault planned, a free destination
    and fuel for the size, the path succeeds. *)
Lemma link_mem fuel s src pn :
  source_of c_src (disk (kernel s)) = Some src ->
  at_path (disk (kernel s)) nd n = inr pn ->
  match copy_skeleton os fuel c_src None c_dst None s with
  | Ret r s' =>
      (r = 0 ->
       file_at (disk (kernel s')) pn
       = Some (Inode (dev_of (disk (kernel s)) pn)
                 (created_mode (disk (kernel s)) (i_mode src)) (i_data src)) /\
       keeps (disk (kernel s)) (disk (kernel s'))) /\
      (r <> 0 -> r = -1) /\
      (calm s -> names (disk (kernel s)) !! pn = None -> r = 0)
  | Timeout _ => calm s -> (fuel < length (i_data src))%nat
  | Fault _ _ => False
  end.
Proof.
  intros Hsome Hpn. set (w := disk (kernel s)) in *.
  destruct opens_src as (planned_src & Hopens).
  unfold copy_skeleton. unfold bind at 1. rewrite libc_eq.
  destruct (Hopens s) as [(Hr & Hd & Hwhy)|(fd1 & Hr & Hop & Hsd)].
  { rewrite Hr. simpl. unfold ret. split; [discriminate|]. split; [auto|].
    intros Hc. specialize (Hwhy Hc). fold w in Hwhy. congruence. }
  rewrite Hr. destruct (Z.ltb_spec (Z.of_nat fd1) 0) as [?|_]; [lia|].
  set (s1 := next os c_src s) in *. set (w1 := disk (kernel s1)) in *.
  fold w in Hop, Hsd.
  destruct (Hsd src Hsome) as (a & i & Hino & Hsrc). clear Hsd.
  destruct Hop as (Hfd1 & Hn1 & Hi1 & Hset1 & Hk1).
  assert (Hcalm1 : calm s -> calm s1) by (apply libc_mem, planned_src).
  unfold bind at 1. rewrite libc_eq.
  set (s2 := next os (Fstat (Z.of_nat fd1)) s1).
  assert (Hclose : forall s3 : state os,
             ~ calm s \/ names w !! pn <> None ->
             match close_keeping_errno os (Z.of_nat fd1) s3 with
             | Ret r s' => (r = 0 -> file_at (disk (kernel s')) pn
                              = Some (Inode (dev_of w pn) (created_mode w (i_mode src))
                                        (i_data src)) /\
                              keeps w (disk (kernel s'))) /\
                           (r <> 0 -> r = -1) /\
                           (calm s -> names w !! pn = None -> r = 0)
             | Timeout _ => calm s -> (fuel < length (i_data src))%nat
             | Fault _ _ => False
             end).
  { intros s3 Hwhy. rewrite close_keeping_errno_eq. split; [discriminate|]. split; [auto|].
    intros Hc Hnone. destruct Hwhy; contradiction. }
  destruct (libc_mem (Fstat (Z.of_nat fd1)) s1 eq_refl)
    as (Hcalm2 & [(f & Hnc2 & Hr2 & Hd2)|(lim & _ & Hr2 & Hd2)]); fold s2 in Hd2, Hcalm2.
  { rewrite Hr2. simpl. apply Hclose. left. auto. }
  simpl run in Hr2, Hd2. fold w1 in Hr2, Hd2.
  destruct (fstat_sourced w1 fd1 a i (i_data src) (errno s1) Hsrc) as (md & Hfs & dvi & Hino1).
  assert (Hmd : md = i_mode src).
  { rewrite Hi1, Hino in Hino1. now inversion Hino1. }
  subst md. rewrite Hfs in Hr2, Hd2. simpl in Hr2, Hd2. rewrite Hr2.
  cbn [r_ret r_stat st_mode negb Z.eqb].
  set (mode := Z.land (Z.lor S_IFREG (i_mode src)) 511).
  assert (Hpn2 : at_path (disk (kernel s2)) nd n = inr pn).
  { rewrite Hd2. eapply at_path_keeps; eauto. }
  destruct (names (disk (kernel s2)) !! pn) as [j0|] eqn:Hj2.
  - (* the destination is taken *)
    unfold bind at 1. rewrite libc_eq.
    assert (Hr3 : r_ret (reply_of os (c_dst mode) s2) = -1).
    { destruct (libc_mem (c_dst mode) s2 (planned_dst _))
        as (_ & [(f & _ & Hr3 & _)|(lim3 & _ & Hr3 & _)]); rewrite Hr3; [reflexivity|].
      rewrite run_dst. now destruct (openat_excl_taken nd n pn j0 mode (errno s2) _ Hpn2 Hj2). }
    rewrite Hr3. simpl. apply Hclose. right.
    rewrite Hd2 in Hj2. fold w1 in Hj2. rewrite Hn1 in Hj2. congruence.
  - pose proof (create_phase (c_dst mode) nd n excl_flags mode
                  (planned_dst _) (run_dst _) eq_refl eq_refl
                  fd1 a i (i_data src) pn fuel s2 (ret os 0)) as Hcp.
    rewrite Hd2 in Hcp. specialize (Hcp Hsrc). rewrite <- Hd2 in Hcp.
    specialize (Hcp Hpn2 Hj2).
    destruct (bind os (libc os (c_dst mode)) _ s2) as [r s'|c s'|s'].
    + destruct Hcp as [(-> & Hnc & _)|[(-> & Hnc & _)|(s7 & Hto & Hc7 & Hk)]];
        try (split; [discriminate|split; [auto|intros Hc; contradiction Hnc; auto]]).
      unfold ret in Hk. inversion Hk; subst r s7.
      split; [|split; [intros H; now contradiction H|reflexivity]].
      intros _. destruct Hto as (j & Hj & Hnm & Hin & Hset & Hkb).
      rewrite Hd2 in Hnm, Hin, Hset, Hkb, Hj. fold w1 in Hnm, Hin, Hset, Hkb, Hj.
      split.
      * unfold file_at. rewrite Hnm, lookup_insert_eq, Hin, lookup_insert_eq.
        rewrite Nat2Z.id, firstn_all. rewrite (dev_of_setup _ _ _ Hset1).
        destruct Hset1 as (_ & _ & Hum). unfold created_mode, mode. now rewrite Hum.
      * eapply keeps_through; eauto.
    + destruct Hcp as (s7 & Hk); discriminate.
    + destruct Hcp as [Hcp|(s7 & Hk)]; [auto|discriminate].
Qed.

End Link.

(** ** The five paths *)

Lemma resolved_inr (x : Z + string) p : resolved x = Some p -> x = inr p.
Proof. destruct x; simpl; congruence. Qed.

Lemma opens_source_opens (q : path) : opens (opens_source q).
Proof. destruct q; simpl; auto using opens_open, opens_openat, opens_dup. Qed.

(** The paths that leave the source in place create the destination
    exclusively, by one name. *)
Lemma link_paths (q : path) :
  removes_source q = None ->
  exists nd n,
    removes_dest q = None /\
    (forall w, new_name q w = resolved (at_path w nd n)) /\
    (forall mode, planned (opens_dest q mode) = true) /\
    (forall mode lim e w, run (opens_dest q mode) lim e w = k_openat nd n excl_flags mode e w).
Proof.
  destruct q as [o n|fd nd n|od o nd n|o n|od o nd n]; simpl; try discriminate; intros _.
  - exists AT_FDCWD, n. auto.
  - exists nd, n. auto.
  - exists nd, n. auto.
Qed.

(** C3. On the reference file system, for the three link paths
    ([fallback_copy_from_path], [fallback_copy_from_fd] and the copy in
    [linkat]): the path returns, 0 or -1.  If the destination name is taken
    it returns -1 and no name and no file has changed, and [errno] is
    [EEXIST] when no fault is planned and the source and the file at the
    destination are there.  If the destination name is free and the source
    is a file, then on 0 the destination is a new file holding the content of
    the source, with the permission bits of the source masked with 0777 (and
    by the umask), and with no fault planned the path returns 0, provided the
    fuel covers the size of the source. *)
Theorem link_fallback_exclusive fuel (q : path) s pn :
  removes_source q = None ->
  new_name q (disk (kernel s)) = Some pn ->
  match run_path os fuel q s with
  | Ret r s' =>
      (forall j, names (disk (kernel s)) !! pn = Some j ->
         r = -1 /\
         names (disk (kernel s')) = names (disk (kernel s)) /\
         inodes (disk (kernel s')) = inodes (disk (kernel s)) /\
         (calm s -> source_of (opens_source q) (disk (kernel s)) <> None ->
          inodes (disk (kernel s)) !! j <> None -> errno s' = EEXIST)) /\
      (forall src, names (disk (kernel s)) !! pn = None ->
         source_of (opens_source q) (disk (kernel s)) = Some src ->
         (r = 0 ->
          file_at (disk (kernel s')) pn
          = Some (Inode (dev_of (disk (kernel s)) pn)
                    (created_mode (disk (kernel s)) (i_mode src)) (i_data src))) /\
         (r <> 0 -> r = -1) /\
         (calm s -> r = 0))
  | Timeout _ =>
      names (disk (kernel s)) !! pn = None /\
      forall src, source_of (opens_source q) (disk (kernel s)) = Some src ->
        calm s -> (fuel < length (i_data src))%nat
  | Fault _ _ => False
  end.
Proof.
  intros Hq Hn.
  destruct (link_paths q Hq) as (nd & n & Hrd & Hnew & Hpl & Hrun).
  rewrite Hnew in Hn. apply resolved_inr in Hn.
  pose proof (run_path_no_fault os fuel q s) as Hnf.
  rewrite run_path_skeleton, Hrd, Hq in *.
  pose proof (excl_taken_mem (opens_source q) (opens_dest q) nd n (opens_source_opens q)
                Hpl Hrun fuel s pn) as Hex.
  pose proof (fun src => link_mem (opens_source q) (opens_dest q) nd n (opens_source_opens q)
                Hpl Hrun fuel s src pn) as Hlk.
  destruct (copy_skeleton os fuel (opens_source q) None (opens_dest q) None s) as [r s'|c s'|s'].
  - split.
    + intros j Hj. exact (Hex j Hn Hj).
    + intros src Hnone Hsrc. destruct (Hlk src Hsrc Hn) as (H0 & H1 & H2).
      split; [intros Hr; now destruct (H0 Hr)|]. split; [assumption|]. auto.
  - exact Hnf.
  - destruct (names (disk (kernel s)) !! pn) as [j|] eqn:Hj.
    + destruct (Hex j Hn eq_refl).
    + split; [reflexivity|]. intros src Hsrc. exact (Hlk src Hsrc Hn).
Qed.

(** C10. On the reference file system, [linkat] with [AT_EMPTY_PATH] and a
    null or empty old path, whose genuine call failed with [EXDEV], on a
    descriptor open for reading on a file and positioned anywhere in it:
    [linkat] returns, 0 or -1; on 0 the destination is a new file holding the
    whole content of the file, from its first byte, and the descriptor of
    the caller is where it was; and with no fault planned and the destination
    name free it returns 0, provided the fuel covers the size of the file. *)
Theorem linkat_empty_path_copies_whole_file fuel fd o nd n fl s r s1 i pos flg src pn :
  negb (Z.land fl AT_EMPTY_PATH =? 0) && null_or_empty o = true ->
  genuine os Slinkat (RealLinkat fd o nd n fl) s = Ret r s1 ->
  r <> 0 -> errno s1 = EXDEV ->
  file_of (disk (kernel s1)) fd = Some (OFile i pos flg) ->
  readable flg = true ->
  inodes (disk (kernel s1)) !! i = Some src ->
  at_path (disk (kernel s1)) nd n = inr pn ->
  match linkat os fuel fd o nd n fl s with
  | Ret r' s' =>
      (r' = 0 ->
       file_at (disk (kernel s')) pn
       = Some (Inode (dev_of (disk (kernel s1)) pn)
                 (created_mode (disk (kernel s1)) (i_mode src)) (i_data src)) /\
       file_of (disk (kernel s')) fd = Some (OFile i pos flg)) /\
      (r' <> 0 -> r' = -1) /\
      (calm s1 -> names (disk (kernel s1)) !! pn = None -> r' = 0)
  | Timeout _ => calm s1 -> (fuel < length (i_data src))%nat
  | Fault _ _ => False
  end.
Proof.
  intros Hfl Hgen Hr He Hfile Hrd Hino Hpn.
  change (linkat os fuel fd o nd n fl s) with (invoke os fuel (CallLinkat fd o nd n fl) s).
  rewrite (entry_after_genuine os fuel (CallLinkat fd o nd n fl) s r s1 Hgen).
  rewrite (passes_through_false r (errno s1) Hr He).
  cbn [fallback_of]. rewrite Hfl.
  rewrite run_path_skeleton. cbn [opens_source removes_dest opens_dest removes_source].
  assert (Hsrc : source_of (Dup fd) (disk (kernel s1)) = Some src).
  { simpl. unfold fd_file. now rewrite Hfile, Hrd. }
  pose proof (link_mem (Dup fd) (Openat nd n excl_flags) nd n (opens_dup fd)
                (fun _ => eq_refl) (fun _ _ _ _ => eq_refl) fuel s1 src pn Hsrc Hpn) as Hlk.
  destruct (copy_skeleton os fuel (Dup fd) None (Openat nd n excl_flags) None s1)
    as [r' s'|c s'|s']; [|assumption|assumption].
  destruct Hlk as (H0 & H1 & H2). split; [|auto].
  intros Hr'. destruct (H0 Hr') as (Hdst & Hkeep). split; [assumption|].
  now apply Hkeep.
Qed.

End Mem.


(** * More on the logs of the copying paths *)

Section Logs.

Context (K : OS).

Lemma closed_fds_app l l' : closed_fds (l ++ l') = closed_fds l ++ closed_fds l'.
Proof. apply flat_map_app. Qed.

Lemma opened_fds_app l l' : opened_fds (l ++ l') = opened_fds l ++ opened_fds l'.
Proof. apply flat_map_app. Qed.

Lemma copy_run_transfers src dst off rem evs res :
  copy_run src dst off rem evs res ->
  evs = transfers dst src off rem (List.map snd evs) /\
  Forall (fun ev => is_sendfile ev = true) evs /\
  (forall bound, rem <= bound ->
     Forall (fun ev => exists o n, fst ev = Sendfile dst src o n /\ 0 < n <= bound) evs) /\
  (res = Some 0 ->
     Forall (fun ev => 0 <= r_ret (snd ev)) evs /\ rem <= returned evs).
Proof.
  induction 1 as [off rem Hrem|off rem Hrem|off rem r Hrem Hr|off rem r evs res Hrem Hr Hrun IH].
  - repeat split; try constructor. unfold returned. simpl. lia.
  - repeat split; try constructor. discriminate.
  - repeat split; try (repeat constructor; fail).
    + intros bound Hb. repeat constructor. exists off, rem. split; [reflexivity|lia].
    + discriminate.
    + discriminate.
  - destruct IH as (IH1 & IH2 & IH3 & IH4). repeat split.
    + simpl. now rewrite <- IH1.
    + constructor; [reflexivity|assumption].
    + intros bound Hb. constructor.
      * exists off, rem. split; [reflexivity|lia].
      * apply IH3. lia.
    + constructor; [assumption|]. now apply IH4.
    + destruct (IH4 H) as (_ & Hsum). unfold returned in *. simpl. lia.
Qed.


Lemma copy_fd_run_shape src dst evs res :
  copy_fd_run src dst evs res ->
  exists st tr,
    evs = (Fstat src, st) :: tr /\
    tr = transfers dst src 0 (st_size (r_stat st)) (List.map snd tr) /\
    Forall (fun ev => is_sendfile ev = true) tr /\
    Forall (fun ev => exists o n, fst ev = Sendfile dst src o n /\
                                  0 < n <= st_size (r_stat st)) tr /\
    (r_ret st <> 0 -> tr = []) /\
    (res = Some 0 ->
       r_ret st = 0 /\ Forall (fun ev => 0 <= r_ret (snd ev)) tr /\
       st_size (r_stat st) <= returned tr).
Proof.
  intros [st Hst|st tr res' Hst Hrun].
  - exists st, []. repeat split; try constructor; discriminate.
  - destruct (copy_run_transfers _ _ _ _ _ _ Hrun) as (H1 & H2 & H3 & H4).
    exists st, tr. split; [reflexivity|]. split; [assumption|]. split; [assumption|].
    split; [apply H3; lia|]. split; [intros H; contradiction|].
    intros Hres. destruct (H4 Hres). auto.
Qed.

(** X1. [copy_fd] asks for what is left: after its status query every call
    it makes is a transfer from the source to the destination descriptor;
    the first is at offset 0 for the size the query reported, each next one
    at the offset the kernel reported for what the transfers so far have
    left; no transfer asks for nothing or for more than the size; and a
    failed query is followed by no transfer. *)
Theorem copy_fd_asks_for_what_is_left fuel src dst s :
  exists st tr,
    trace (final (copy_fd K fuel src dst s)) = trace s ++ (Fstat src, st) :: tr /\
    tr = transfers dst src 0 (st_size (r_stat st)) (List.map snd tr) /\
    Forall (fun ev => exists o n, fst ev = Sendfile dst src o n /\
                                  0 < n <= st_size (r_stat st)) tr /\
    (r_ret st <> 0 -> tr = []).
Proof.
  destruct (copy_fd_sound K fuel src dst s) as (evs & Hrun & Htr & _).
  destruct (copy_fd_run_shape _ _ _ _ Hrun) as (st & tr & -> & H1 & _ & H2 & H3 & _).
  exists st, tr. auto.
Qed.

(** X2. [copy_fd] returns 0 only after a status query that succeeded and
    transfers that all succeeded and moved, in total, at least the size the
    query reported. *)
Theorem copy_fd_success_moved_all fuel src dst s s' :
  copy_fd K fuel src dst s = Ret 0 s' ->
  exists st tr,
    trace s' = trace s ++ (Fstat src, st) :: tr /\
    r_ret st = 0 /\
    Forall (fun ev => 0 <= r_ret (snd ev)) tr /\
    st_size (r_stat st) <= returned tr.
Proof.
  intros H. destruct (copy_fd_sound K fuel src dst s) as (evs & Hrun & Htr & _).
  rewrite H in Hrun, Htr. simpl in Hrun, Htr.
  destruct (copy_fd_run_shape _ _ _ _ Hrun) as (st & tr & -> & _ & _ & _ & _ & H4).
  destruct (H4 eq_refl) as (H5 & H6 & H7). exists st, tr. auto.
Qed.

(** *** The calls of a copying path *)

Lemma copy_fd_run_fds src dst evs res :
  copy_fd_run src dst evs res -> closed_fds evs = [] /\ opened_fds evs = [].
Proof.
  intros H. destruct (copy_fd_run_shape _ _ _ _ H) as (st & tr & -> & _ & Hs & _).
  simpl. clear H. induction Hs as [|[c r] tr Hc _ IH]; [auto|].
  destruct c; try discriminate. simpl. exact IH.
Qed.

Lemma removal_run_fds (p : path) rm :
  removal_run (removes_dest p) rm -> closed_fds rm = [] /\ opened_fds rm = [].
Proof.
  intros [_|c u Hc _]; [auto|]. destruct p; inversion Hc; subst; auto.
Qed.

Lemma finish_run_fds (p : path) src dst e cres tl r e' :
  finish_run (removes_source p) src dst e cres tl (Some r) e' ->
  closed_fds tl = [src; dst] /\ opened_fds tl = [].
Proof.
  intros H. inversion H as [|r0 c1 c2 Hr0|c1 c2 Hcl|c c1 c2 u Hcl]; subst; auto.
  destruct p; inversion Hcl; subst; auto.
Qed.

Lemma path_run_fds p evs r e :
  path_run p evs (Some r) e -> closed_fds evs = opened_fds evs.
Proof.
  unfold path_run. intros H.
  inversion H as [o Ho|o st cl Ho Hst|o st c u cl Ho Hst Hrem Hu He
                 |o st rm d cl Ho Hst Hr Hd
                 |o st rm d cevs cres tl res e' Ho Hst Hr Hd Hc Hfin]; subst; clear H;
    try (destruct (removal_run_fds p rm Hr) as (Hr1 & Hr2));
    try (destruct (copy_fd_run_fds _ _ _ _ Hc) as (Hc1 & Hc2));
    try (destruct (finish_run_fds p _ _ _ _ _ _ _ Hfin) as (Hf1 & Hf2));
    repeat rewrite ?closed_fds_app, ?opened_fds_app;
    rewrite ?Hr1, ?Hr2, ?Hc1, ?Hc2, ?Hf1, ?Hf2;
    destruct p; try discriminate; simpl in *;
    try (inversion Hrem; subst; simpl);
    repeat match goal with
           | |- context [?x <? 0] => destruct (Z.ltb_spec x 0); try lia
           end; reflexivity.
Qed.

(** X3. A copying path that returns has closed the descriptors it obtained:
    the descriptors its log closes are the results of its successful calls
    to [open], [openat] and [dup], in the same order, each once. *)
Theorem descriptors_opened_are_closed fuel (p : path) s r s' :
  run_path K fuel p s = Ret r s' ->
  exists evs, trace s' = trace s ++ evs /\ closed_fds evs = opened_fds evs.
Proof.
  intros H. destruct (run_path_sound K fuel p s) as (evs & Hrun & Htr & _).
  rewrite H in Hrun, Htr. simpl in Hrun, Htr.
  exists evs. split; [assumption|]. eapply path_run_fds; eauto.
Qed.

Lemma copy_fd_run_plain src dst evs res :
  copy_fd_run src dst evs res ->
  Forall (fun ev => is_unlink ev = false /\ is_create ev = false /\ is_close ev = false) evs.
Proof.
  intros H. destruct (copy_fd_run_shape _ _ _ _ H) as (st & tr & -> & _ & Hs & _).
  constructor; [auto|]. clear H. induction Hs as [|[c r] tr Hc _ IH]; constructor; auto.
  destruct c; try discriminate. auto.
Qed.

(** X4. The link paths remove nothing: in every run of
    [fallback_copy_from_path], [fallback_copy_from_fd] and the copy in
    [linkat], whatever its outcome, no call is an [unlink] or [unlinkat]; a
    destination left incomplete by a failed copy stays. *)
Theorem link_paths_never_unlink fuel (p : path) s :
  removes_source p = None ->
  exists evs,
    trace (final (run_path K fuel p s)) = trace s ++ evs /\
    Forall (fun ev => is_unlink ev = false) evs.
Proof.
  intros Hp. destruct (run_path_sound K fuel p s) as (evs & Hrun & Htr & _).
  exists evs. split; [assumption|]. unfold path_run in Hrun.
  assert (Hrd : removes_dest p = None) by (destruct p; try reflexivity; discriminate).
  assert (Hrm : forall rm, removal_run (removes_dest p) rm -> rm = []).
  { intros rm [_|c u Hc _]; [reflexivity|]. rewrite Hrd in Hc. discriminate. }
  inversion Hrun as [o Ho|o st cl Ho Hst|o st c u cl Ho Hst Hrem Hu He
                    |o st rm d cl Ho Hst Hr Hd
                    |o st rm d cevs cres tl res e' Ho Hst Hr Hd Hc Hfin]; subst.
  - repeat constructor. now destruct p.
  - repeat constructor. now destruct p.
  - rewrite Hrd in Hrem. discriminate.
  - rewrite (Hrm _ Hr). simpl. repeat constructor; now destruct p.
  - rewrite (Hrm _ Hr). simpl. repeat constructor; try now destruct p.
    apply Forall_app. split.
    + eapply Forall_impl; [apply (copy_fd_run_plain _ _ _ _ Hc)|]. simpl. intros ev H. apply H.
    + inversion Hfin as [|r0 c1 c2 Hr0|c1 c2 Hcl|c c1 c2 u Hcl]; subst; repeat constructor.
      rewrite Hp in Hcl. discriminate.
Qed.

(** The flags a path creates its destination with. *)
Lemma creates_dest (p : path) m :
  creates (opens_dest p m)
  = Some (match removes_source p with Some _ => trunc_flags | None => excl_flags end, m).
Proof. now destruct p. Qed.

Lemma creates_source (p : path) : creates (opens_source p) = None.
Proof. now destruct p. Qed.

(** X5. A copying path creates at most one file, by the call that opens its
    destination, and asks for permission bits only: in every run, whatever
    its outcome, at most one call carries [O_CREAT]; it is the call that
    opens the destination, its flags are those of an exclusive creation in
    the link paths and of a truncating one in the move paths, and its mode
    has no bit outside 0777 (no set-user-ID, set-group-ID or sticky bit). *)
Theorem creation_once_and_masked fuel (p : path) s :
  exists evs,
    trace (final (run_path K fuel p s)) = trace s ++ evs /\
    (length (List.filter is_create evs) <= 1)%nat /\
    forall c r fl m,
      In (c, r) evs -> creates c = Some (fl, m) ->
      c = opens_dest p m /\
      fl = match removes_source p with Some _ => trunc_flags | None => excl_flags end /\
      Z.land m 511 = m.
Proof.
  destruct (run_path_sound K fuel p s) as (evs & Hrun & Htr & _).
  exists evs. split; [assumption|]. unfold path_run in Hrun.
  assert (Hmask : forall x, Z.land (Z.land x 511) 511 = Z.land x 511).
  { intros x. rewrite <- Z.land_assoc. reflexivity. }
  assert (Hsrc : is_create (opens_source p, reply_of K (opens_source p) s) = false)
    by (unfold is_create; simpl; now rewrite creates_source).
  assert (Hplain : forall o, is_create (opens_source p, o) = false)
    by (intros o; unfold is_create; simpl; now rewrite creates_source).
  assert (Hdst : forall m d, is_create (opens_dest p m, d) = true)
    by (intros m d; unfold is_create; simpl; now rewrite creates_dest).
  assert (Hrm : forall rm, removal_run (removes_dest p) rm ->
                  Forall (fun ev => is_create ev = false) rm).
  { intros rm [_|c u Hc _]; [constructor|]. repeat constructor.
    destruct p; inversion Hc; reflexivity. }
  assert (Hfin : forall src dst e cres tl res e',
             finish_run (removes_source p) src dst e cres tl res e' ->
             Forall (fun ev => is_create ev = false) tl).
  { intros src dst e cres tl res e' H.
    inversion H as [|r0 c1 c2 Hr0|c1 c2 Hcl|c c1 c2 u Hcl]; subst; repeat constructor.
    destruct p; inversion Hcl; reflexivity. }
  assert (Hnone : forall l, Forall (fun ev => is_create ev = false) l ->
                    List.filter is_create l = [] /\
                    forall c r fl m, In (c, r) l -> creates c = Some (fl, m) -> False).
  { intros l Hl. split.
    - induction Hl as [|ev l Hev _ IH]; [reflexivity|]. simpl. now rewrite Hev.
    - intros c r fl m Hin Hc. rewrite List.Forall_forall in Hl. specialize (Hl _ Hin).
      unfold is_create in Hl. simpl in Hl. rewrite Hc in Hl. discriminate. }
  assert (Hone : forall l1 m d l2,
             Forall (fun ev => is_create ev = false) l1 ->
             Forall (fun ev => is_create ev = false) l2 ->
             (length (List.filter is_create (l1 ++ (opens_dest p (Z.land m 511), d) :: l2)) <= 1)%nat /\
             forall c r fl m',
               In (c, r) (l1 ++ (opens_dest p (Z.land m 511), d) :: l2) ->
               creates c = Some (fl, m') ->
               c = opens_dest p m' /\
               fl = match removes_source p with Some _ => trunc_flags | None => excl_flags end /\
               Z.land m' 511 = m').
  { intros l1 m d l2 H1 H2. destruct (Hnone _ H1) as (F1 & N1). destruct (Hnone _ H2) as (F2 & N2).
    split.
    - rewrite List.filter_app. simpl. rewrite Hdst, F1, F2. simpl. lia.
    - intros c r fl m' Hin Hc. apply in_app_or in Hin. destruct Hin as [Hin|[Heq|Hin]].
      + destruct (N1 _ _ _ _ Hin Hc).
      + inversion Heq; subst. rewrite creates_dest in Hc. inversion Hc; subst. auto.
      + destruct (N2 _ _ _ _ Hin Hc). }
  assert (Hzero : forall l, Forall (fun ev => is_create ev = false) l ->
             (length (List.filter is_create l) <= 1)%nat /\
             forall c r fl m,
               In (c, r) l -> creates c = Some (fl, m) ->
               c = opens_dest p m /\
               fl = match removes_source p with Some _ => trunc_flags | None => excl_flags end /\
               Z.land m 511 = m).
  { intros l Hl. destruct (Hnone _ Hl) as (F & N). split; [rewrite F; simpl; lia|].
    intros c r fl m Hin Hc. destruct (N _ _ _ _ Hin Hc). }
  inversion Hrun as [o Ho|o st cl Ho Hst|o st c u cl Ho Hst Hrem Hu He
                    |o st rm d cl Ho Hst Hr Hd
                    |o st rm d cevs cres tl res e' Ho Hst Hr Hd Hc Hf]; subst.
  - apply Hzero. repeat constructor. apply Hplain.
  - apply Hzero. repeat constructor. apply Hplain.
  - apply Hzero. repeat constructor; [apply Hplain|].
    destruct p; inversion Hrem; reflexivity.
  - rewrite app_assoc. apply Hone.
    + apply Forall_app. split; [repeat constructor; apply Hplain|auto].
    + repeat constructor.
  - rewrite app_assoc. apply Hone.
    + apply Forall_app. split; [repeat constructor; apply Hplain|auto].
    + apply Forall_app. split.
      * eapply Forall_impl; [apply (copy_fd_run_plain _ _ _ _ Hc)|]. simpl. intros ev H. apply H.
      * eapply Hfin; eauto.
Qed.

(** X6. A copying path returns 0 only if every step it took succeeded:
    every call in its log other than a [close] returned success, except that
    the removal of the destination may have failed with [ENOENT].  What the
    closes return is not looked at. *)
Theorem success_means_every_step_succeeded fuel (p : path) s s' :
  run_path K fuel p s = Ret 0 s' ->
  exists evs,
    trace s' = trace s ++ evs /\
    Forall (fun ev =>
              is_close ev = true \/ failed ev = false \/
              (Some (fst ev) = removes_dest p /\ r_errno (snd ev) = ENOENT)) evs.
Proof.
  intros H. destruct (run_path_sound K fuel p s) as (evs & Hrun & Htr & _).
  rewrite H in Hrun, Htr. simpl in Hrun, Htr.
  exists evs. split; [assumption|]. unfold path_run in Hrun.
  inversion Hrun as [o Ho|o st cl Ho Hst|o st c u cl Ho Hst Hrem Hu He
                    |o st rm d cl Ho Hst Hr Hd
                    |o st rm d cevs cres tl res e' Ho Hst Hr Hd Hc Hf]; subst.
  assert (Hopen : failed (opens_source p, o) = false).
  { unfold failed. destruct p; simpl; apply Z.ltb_ge; assumption. }
  assert (Hdest : forall m, failed (opens_dest p m, d) = false).
  { intros m. unfold failed. destruct p; simpl; apply Z.ltb_ge; assumption. }
  assert (Hcres : cres = Some 0).
  { inversion Hf; subst; try reflexivity. }
  subst cres.
  destruct (copy_fd_run_shape _ _ _ _ Hc) as (st2 & tr & -> & _ & Hs & _ & _ & H4).
  destruct (H4 eq_refl) as (Hst2 & Hpos & _).
  apply Forall_app. split; [|apply Forall_app; split; [|apply Forall_app; split;
                                                         [|apply Forall_app; split]]].
  - apply Forall_cons; split; [right; left; exact Hopen|].
    apply Forall_cons; split; [|constructor].
    right. left. unfold failed. simpl. now rewrite Hst, Z.eqb_refl.
  - inversion Hr as [_|c u Hc0 [Hu|Hu]]; subst; [constructor| |];
      (apply Forall_cons; split; [|constructor]).
    + right. left. unfold failed. destruct p; inversion Hc0; subst; simpl; now rewrite Hu.
    + right. right. split; [now rewrite Hc0|assumption].
  - apply Forall_cons; split; [|constructor]. right. left. apply Hdest.
  - apply Forall_cons; split.
    + right. left. unfold failed. simpl. now rewrite Hst2, Z.eqb_refl.
    + clear Hc H4. rewrite List.Forall_forall in Hs, Hpos. apply List.Forall_forall.
      intros [c r] Hin.
      specialize (Hs _ Hin). specialize (Hpos _ Hin). right. left.
      unfold failed. destruct c; try discriminate. simpl in *. now apply Z.ltb_ge.
  - inversion Hf as [|r0 c1 c2 Hr0|c1 c2 Hcl|c c1 c2 u Hcl]; subst.
    + apply Forall_cons; split; [left; reflexivity|].
      apply Forall_cons; split; [left; reflexivity|constructor].
    + apply Forall_cons; split; [left; reflexivity|].
      apply Forall_cons; split; [left; reflexivity|].
      apply Forall_cons; split; [|constructor].
      right. left. unfold failed.
      destruct (Z.eqb_spec (r_ret u) 0) as [Hu|Hu]; [|discriminate].
      destruct p; inversion Hcl; subst; simpl; now rewrite Hu.
Qed.

(** *** The status queries of a copying path *)

Lemma copy_fd_run_queries src dst evs res :
  copy_fd_run src dst evs res ->
  exists st tr,
    evs = (Fstat src, st) :: tr /\
    tr = transfers dst src 0 (st_size (r_stat st)) (List.map snd tr) /\
    (r_ret st <> 0 -> tr = []).
Proof.
  intros H. destruct (copy_fd_run_shape _ _ _ _ H) as (st & tr & -> & H1 & _ & _ & H3 & _).
  exists st, tr. auto.
Qed.

Lemma removal_run_plain (p : path) rm :
  removal_run (removes_dest p) rm ->
  Forall (fun ev => is_fstat ev = false /\ is_sendfile ev = false) rm.
Proof.
  intros [_|c u Hc _]; [constructor|]. repeat constructor; destruct p; inversion Hc; reflexivity.
Qed.

Lemma finish_run_plain (p : path) src dst e cres tl res e' :
  finish_run (removes_source p) src dst e cres tl res e' ->
  Forall (fun ev => is_fstat ev = false /\ is_sendfile ev = false) tl.
Proof.
  intros [|r c1 c2 Hr|c1 c2 Hc|c c1 c2 u Hc]; repeat constructor;
    destruct p; inversion Hc; reflexivity.
Qed.

(** C8, amended. A copying path queries the status of the source by two
    separate calls and never more.  The log of every run, whatever its
    outcome, has one of three shapes.  The source was not opened: the log is
    the failed call that opens it, with no status query.  The destination
    was not opened: after the call that opens the source comes one [fstat]
    on the descriptor it returned, and no further status query and no
    transfer; a call that opens the destination, if one was made, failed.
    The destination was opened: the log is the call that opens the source;
    [fstat] on the descriptor it returned, answering [st1]; the removal of
    the destination, in the move paths; the call that creates the
    destination, whose mode is the mode of [st1] masked with 0777; a second
    [fstat] on the source, made by [copy_fd] and answering [st2]; the
    transfers, the first at offset 0 for the size of [st2] and each next one
    for what is left of it (none if the second query failed or the size is
    not positive); and calls that are neither status queries nor
    transfers. *)
Theorem status_queried_twice fuel (p : path) s :
  exists evs,
    trace (final (run_path K fuel p s)) = trace s ++ evs /\
    ((exists o, r_ret o < 0 /\ evs = [(opens_source p, o)])
     \/
     (exists o st1 rest,
        evs = (opens_source p, o) :: (Fstat (r_ret o), st1) :: rest /\
        Forall (fun ev => is_fstat ev = false /\ is_sendfile ev = false) rest /\
        (forall m d, In (opens_dest p m, d) rest -> r_ret d < 0))
     \/
     (exists o st1 rm d st2 tr tl,
        evs = [(opens_source p, o); (Fstat (r_ret o), st1)] ++ rm
              ++ [(opens_dest p (Z.land (st_mode (r_stat st1)) 511), d);
                  (Fstat (r_ret o), st2)] ++ tr ++ tl /\
        removal_run (removes_dest p) rm /\
        r_ret st1 = 0 /\ 0 <= r_ret d /\
        tr = transfers (r_ret d) (r_ret o) 0 (st_size (r_stat st2)) (List.map snd tr) /\
        (r_ret st2 <> 0 -> tr = []) /\
        Forall (fun ev => is_fstat ev = false /\ is_sendfile ev = false) (rm ++ tl))).
Proof.
  destruct (run_path_sound K fuel p s) as (evs & Hrun & Htr & _).
  exists evs. split; [assumption|]. unfold path_run in Hrun.
  inversion Hrun as [o Ho|o st cl Ho Hst|o st c u cl Ho Hst Hrem Hu He
                    |o st rm d cl Ho Hst Hr Hd
                    |o st rm d cevs cres tl res e' Ho Hst Hr Hd Hc Hfin]; subst.
  - left. exists o. auto.
  - right. left. exists o, st, [(Close (r_ret o), cl)].
    split; [reflexivity|]. split; [repeat constructor|].
    intros m d [H|[]]. destruct p; discriminate.
  - right. left. exists o, st, [(c, u); (Close (r_ret o), cl)].
    split; [reflexivity|]. split.
    + repeat constructor; destruct p; inversion Hrem; reflexivity.
    + intros m d [H|[H|[]]]; [|destruct p; discriminate].
      inversion H; subst. destruct p; discriminate.
  - right. left.
    exists o, st, (rm ++ [(opens_dest p (Z.land (st_mode (r_stat st)) 511), d);
                         (Close (r_ret o), cl)]).
    split; [reflexivity|]. split.
    + apply Forall_app. split; [now apply (removal_run_plain p)|].
      repeat constructor; now destruct p.
    + intros m d' Hin. apply in_app_or in Hin. destruct Hin as [Hin|[H|[H|[]]]].
      * destruct Hr as [_|c u Hc _]; [destruct Hin|].
        destruct Hin as [H|[]]. inversion H; subst. destruct p; discriminate.
      * inversion H; subst. assumption.
      * destruct p; discriminate.
  - right. right.
    destruct (copy_fd_run_queries _ _ _ _ Hc) as (st2 & tr & -> & H1 & H2).
    exists o, st, rm, d, st2, tr, tl.
    split; [reflexivity|]. split; [assumption|]. split; [assumption|].
    split; [assumption|]. split; [assumption|]. split; [assumption|].
    apply Forall_app. split; [now apply (removal_run_plain p)|].
    eapply (finish_run_plain p); eauto.
Qed.

(** *** The creation of the destination *)



End Logs.


(** * The entry points on the reference file system *)

Section Entry.
Import MemFS.

Implicit Types (w : fs) (s : state os).

(** ** The genuine calls on the reference file system *)

(** A call the plan does not apply to runs on the files and leaves the plan. *)
Lemma unplanned_mem c s :
  planned c = false ->
  reply_of os c s = fst (run c MAX_RW_COUNT (errno s) (disk (kernel s))) /\
  disk (kernel (next os c s)) = snd (run c MAX_RW_COUNT (errno s) (disk (kernel s))) /\
  plan (kernel (next os c s)) = plan (kernel s).
Proof.
  intros Hp. rewrite reply_of_exec, kernel_next.
  change (exec os c (errno s) (kernel s)) with (step c (errno s) (kernel s)).
  unfold step. rewrite Hp. auto.
Qed.

Lemma dlsym_found name e w :
  In name (symbols w) ->
  r_ret (fst (k_dlsym name e w)) <> 0 /\ snd (k_dlsym name e w) = w.
Proof.
  intros Hin. unfold k_dlsym.
  destruct (list_find (fun n => n = name) (symbols w)) as [[k x]|] eqn:Hf.
  - simpl. split; [lia|reflexivity].
  - apply list_find_None in Hf. rewrite List.Forall_forall in Hf.
    exfalso. apply (Hf name); [assumption|reflexivity].
Qed.

Lemma dlsym_disk name e w : snd (k_dlsym name e w) = w.
Proof.
  unfold k_dlsym. now destruct (list_find (fun n => n = name) (symbols w)) as [[k x]|].
Qed.

Lemma kernel_with_static f p s : kernel (with_static f p s) = kernel s.
Proof. now destruct f. Qed.

Lemma errno_with_static f p s : errno (with_static f p s) = errno s.
Proof. now destruct f. Qed.

(** Resolution changes neither the files nor the plan, and yields a
    non-null pointer when the pointer is cached or the loader finds it. *)
Lemma resolve_mem f s :
  exists p s0,
    resolve os f s = Ret p s0 /\
    disk (kernel s0) = disk (kernel s) /\
    plan (kernel s0) = plan (kernel s) /\
    (resolvable f s -> p <> 0).
Proof.
  rewrite resolve_eq.
  destruct (Z.eqb_spec (static f s) 0) as [Hz|Hnz].
  - destruct (unplanned_mem (Dlsym (sym_name f)) s eq_refl) as (Hr & Hd & Hp).
    eexists _, _. split; [reflexivity|]. rewrite kernel_with_static.
    simpl run in Hr, Hd. rewrite dlsym_disk in Hd.
    split; [assumption|]. split; [assumption|].
    intros [H|H]; [contradiction|]. rewrite Hr. now apply dlsym_found.
  - exists (static f s), s. auto.
Qed.

(** The genuine call of an invocation on the files. *)
Lemma genuine_mem (i : invocation) s :
  resolvable (entry_of i) s ->
  exists s0,
    disk (kernel s0) = disk (kernel s) /\
    plan (kernel s0) = plan (kernel s) /\
    genuine os (entry_of i) (real_of i) s
    = Ret (r_ret (fst (run (real_of i) MAX_RW_COUNT (errno s0) (disk (kernel s)))))
          (next os (real_of i) s0) /\
    errno (next os (real_of i) s0)
    = r_errno (fst (run (real_of i) MAX_RW_COUNT (errno s0) (disk (kernel s)))) /\
    disk (kernel (next os (real_of i) s0))
    = snd (run (real_of i) MAX_RW_COUNT (errno s0) (disk (kernel s))) /\
    plan (kernel (next os (real_of i) s0)) = plan (kernel s).
Proof.
  intros Hres. destruct (resolve_mem (entry_of i) s) as (p & s0 & Hr & Hd & Hp & Hnz).
  specialize (Hnz Hres). exists s0. split; [assumption|]. split; [assumption|].
  assert (Hunp : planned (real_of i) = false) by now destruct i.
  destruct (unplanned_mem (real_of i) s0 Hunp) as (Hr1 & Hd1 & Hp1).
  rewrite Hd in Hr1, Hd1. split; [|split; [|split]].
  - unfold genuine, bind. rewrite Hr. unfold call_real.
    apply Z.eqb_neq in Hnz. rewrite Hnz. unfold bind, ret. rewrite libc_eq.
    now rewrite Hr1.
  - now rewrite errno_next, Hr1.
  - assumption.
  - now rewrite Hp1.
Qed.

(** A genuine rename between two devices fails with [EXDEV]. *)
Lemma renameat2_xdev od o nd n e w po pn :
  at_path w od o = inr po -> at_path w nd n = inr pn ->
  dev_of w po <> dev_of w pn ->
  k_renameat2 od o nd n 0 e w = fail EXDEV w.
Proof.
  intros Ho Hn Hd. unfold k_renameat2. simpl. rewrite Ho, Hn.
  now rewrite bool_decide_eq_false_2.
Qed.

(** A genuine link by name to a free name on another device fails with
    [EXDEV]. *)
Lemma linkat_xdev od o nd n fl e w po pn i :
  has fl AT_EMPTY_PATH && null_or_empty o = false ->
  at_path w od o = inr po -> at_path w nd n = inr pn ->
  names w !! po = Some i -> names w !! pn = None ->
  dev_of w po <> dev_of w pn ->
  k_linkat od o nd n fl e w = fail EXDEV w.
Proof.
  intros Hfl Ho Hn Hi Hnone Hd. unfold k_linkat, link_source.
  rewrite Hfl, Ho, Hi, Hn, Hnone. now rewrite bool_decide_eq_false_2.
Qed.

(** ** The files a copying path leaves *)

Section MoveFiles.

Variables (c_src c_rm c_cl : syscall) (c_dst : Z -> syscall)
          (od : Z) (o : cstr) (nd : Z) (n : cstr).
Hypothesis planned_src : planned c_src = true.
Hypothesis planned_rm : planned c_rm = true.
Hypothesis planned_cl : planned c_cl = true.
Hypothesis planned_dst : forall mode, planned (c_dst mode) = true.
Hypothesis run_src : forall lim e w, run c_src lim e w = k_openat od o rd_flags 0 e w.
Hypothesis run_rm : forall lim e w, run c_rm lim e w = k_unlinkat nd n e w.
Hypothesis run_cl : forall lim e w, run c_cl lim e w = k_unlinkat od o e w.
Hypothesis run_dst :
  forall mode lim e w, run (c_dst mode) lim e w = k_openat nd n trunc_flags mode e w.

Lemma moved_files_same w w' po pn r :
  r <> 0 -> names w' = names w -> inodes w' = inodes w -> moved_files w w' po pn r.
Proof.
  intros Hr Hn Hi. split; [|split].
  - intros i x. now rewrite Hi.
  - intros p _ _. now rewrite Hn.
  - intros H. contradiction.
Qed.

Lemma move_files_mem fuel s po pn :
  at_path (disk (kernel s)) od o = inr po ->
  at_path (disk (kernel s)) nd n = inr pn ->
  po <> pn ->
  match copy_skeleton os fuel c_src (Some c_rm) c_dst (Some c_cl) s with
  | Ret r s' => moved_files (disk (kernel s)) (disk (kernel s')) po pn r
  | _ => True
  end.
Proof.
  intros Hpo Hpn Hne. set (w := disk (kernel s)) in *.
  unfold copy_skeleton. unfold bind at 1. rewrite libc_eq.
  destruct (open_source_mem c_src od o s planned_src run_src)
    as [(Hr & Hd & Hwhy)|(fd1 & a & q & i & src & Hr & Hq & Hn & Hi & Hop & Hsrc)].
  { rewrite Hr. simpl. unfold ret. apply moved_files_same; [lia| |]; now rewrite Hd. }
  fold w in Hq, Hn, Hi, Hop. rewrite Hpo in Hq. inversion Hq; subst q. clear Hq.
  rewrite Hr. destruct (Z.ltb_spec (Z.of_nat fd1) 0) as [?|_]; [lia|].
  set (s1 := next os c_src s) in *. set (w1 := disk (kernel s1)) in *.
  destruct Hop as (Hfd1 & Hn1 & Hi1 & Hset1 & Hk1).
  assert (Hfile : file_at w po = Some src) by (unfold file_at; now rewrite Hn).
  (* the status query *)
  unfold bind at 1. rewrite libc_eq.
  set (s2 := next os (Fstat (Z.of_nat fd1)) s1).
  destruct (libc_mem (Fstat (Z.of_nat fd1)) s1 eq_refl)
    as (_ & [(f & _ & Hr2 & Hd2)|(lim & _ & Hr2 & Hd2)]);
    fold s2 in Hd2.
  { rewrite Hr2. simpl. rewrite close_keeping_errno_eq. cbn [kernel with_errno].
    destruct (close_mem fd1 s2) as (_ & F & HF & _). rewrite HF, Hd2. fold w1.
    apply moved_files_same; [lia|exact Hn1|exact Hi1]. }
  simpl run in Hr2, Hd2. fold w1 in Hr2, Hd2.
  destruct (fstat_sourced w1 fd1 a i (i_data src) (errno s1) Hsrc) as (md & Hfs & dvi & Hino).
  assert (Hmd : md = i_mode src).
  { rewrite Hi1, Hi in Hino. now inversion Hino. }
  subst md. rewrite Hfs in Hr2, Hd2. simpl in Hr2, Hd2. rewrite Hr2.
  cbn [r_ret r_stat st_mode negb Z.eqb].
  (* the removal of the destination *)
  unfold bind at 1. rewrite libc_eq. unfold bind at 1, get_errno.
  set (s3 := next os c_rm s2).
  assert (Hpn2 : at_path (disk (kernel s2)) nd n = inr pn).
  { rewrite Hd2. eapply at_path_keeps; eauto. }
  assert (He3 : errno s3 = r_errno (reply_of os c_rm s2)) by apply errno_next.
  rewrite He3.
  assert (Hcont :
    forall s3' : state os,
      sourced (disk (kernel s3')) fd1 a i (i_data src) ->
      names (disk (kernel s3')) = delete pn (names w) \/
        (names (disk (kernel s3')) = names w /\ names w !! pn = None) ->
      inodes (disk (kernel s3')) = inodes w ->
      same_setup w (disk (kernel s3')) -> keeps w (disk (kernel s3')) ->
      match bind os (libc os (c_dst (Z.land (Z.lor S_IFREG (i_mode src)) 511)))
              (fun d => if r_ret d <? 0 then close_keeping_errno os (Z.of_nat fd1)
                        else copy_and_close os fuel (Z.of_nat fd1) (r_ret d)
                               (bind os (libc os c_cl)
                                  (fun u' => if negb (r_ret u' =? 0) then ret os (-1)
                                             else ret os 0))) s3' with
      | Ret r s' => moved_files w (disk (kernel s')) po pn r
      | _ => True
      end).
  { intros s3' Hsrc3 Hnames3 Hino3 Hset3 Hkeep3.
    assert (Hpn3 : at_path (disk (kernel s3')) nd n = inr pn)
      by (eapply at_path_keeps; eauto).
    assert (Hnone3 : names (disk (kernel s3')) !! pn = None).
    { destruct Hnames3 as [->|[-> ?]]; [apply lookup_delete_eq|assumption]. }
    assert (Hother3 : forall p, p <> pn -> names (disk (kernel s3')) !! p = names w !! p).
    { intros p Hp. destruct Hnames3 as [->|[-> ?]]; [now rewrite lookup_delete_ne|reflexivity]. }
    assert (Hins3 : forall j, <[pn := j]> (names (disk (kernel s3'))) = <[pn := j]> (names w)).
    { intros j. destruct Hnames3 as [->|[-> ?]]; [apply insert_delete_eq|reflexivity]. }
    pose proof (create_phase (c_dst (Z.land (Z.lor S_IFREG (i_mode src)) 511)) nd n
                  trunc_flags (Z.land (Z.lor S_IFREG (i_mode src)) 511)
                  (planned_dst _) (run_dst _) eq_refl eq_refl
                  fd1 a i (i_data src) pn fuel s3'
                  (bind os (libc os c_cl)
                     (fun u' => if negb (r_ret u' =? 0) then ret os (-1) else ret os 0))
                  Hsrc3 Hpn3 Hnone3) as Hcp.
    assert (Hkept : forall w' off',
               copied_to (Z.land (Z.lor S_IFREG (i_mode src)) 511)
                 (disk (kernel s3')) w' fd1 pn (i_data src) off' ->
               exists j,
                 inodes w !! j = None /\
                 names w' = <[pn := j]> (names w) /\
                 inodes w' = <[j := Inode (dev_of w pn) (created_mode w (i_mode src))
                                      (take (Z.to_nat off') (i_data src))]> (inodes w) /\
                 same_setup w w' /\ keeps w w').
    { intros w' off' (j & Hj & Hnm & Hin & Hset & Hkb). exists j.
      rewrite Hino3 in Hj, Hin. rewrite Hins3 in Hnm.
      split; [assumption|]. split; [assumption|]. split; [|split].
      - rewrite Hin. rewrite (dev_of_setup _ _ _ Hset3). destruct Hset3 as (_ & _ & Hum).
        unfold created_mode. now rewrite Hum.
      - eapply same_setup_trans; eauto.
      - eapply keeps_through; eauto. }
    assert (Hframe : forall w' off' r,
               r <> 0 ->
               copied_to (Z.land (Z.lor S_IFREG (i_mode src)) 511)
                 (disk (kernel s3')) w' fd1 pn (i_data src) off' ->
               moved_files w w' po pn r).
    { intros w' off' r Hr0 Hto. destruct (Hkept _ _ Hto) as (j & Hj & Hnm & Hin & _).
      split; [|split].
      - intros i0 x Hx. rewrite Hin, lookup_insert_ne; [assumption|congruence].
      - intros p _ Hp. rewrite Hnm. now rewrite lookup_insert_ne.
      - intros H. contradiction. }
    destruct (bind os (libc os (c_dst _)) _ s3') as [r s'|c s'|s']; [|exact I|exact I].
    destruct Hcp as [(-> & _ & Hnm & Hin)|[(-> & _ & off' & Hto)|(s7 & Hto & _ & Hk)]].
    - split; [|split].
      + intros i0 x. now rewrite Hin, Hino3.
      + intros p _ Hp. rewrite Hnm. now apply Hother3.
      + discriminate.
    - apply (Hframe _ off'); [lia|assumption].
    - destruct (Hkept _ _ Hto) as (j & Hj & Hnm7 & Hin7 & Hset7 & Hkeep7).
      assert (Hat7 : at_path (disk (kernel s7)) od o = inr po)
        by (eapply at_path_keeps; eauto).
      pose proof (cleanup_mem c_cl od o s7 po planned_cl run_cl Hat7) as Hcl.
      rewrite Hk in Hcl. destruct Hcl as [(-> & Hd8)|(-> & Hd8 & _)].
      + rewrite Hd8. unfold moved_files. cbn [names inodes with_names].
        rewrite Nat2Z.id, firstn_all in Hin7.
        split; [|split].
        * intros i0 x Hx. rewrite Hin7, lookup_insert_ne; [assumption|congruence].
        * intros p Hp1 Hp2. rewrite Hnm7, lookup_delete_ne by congruence.
          now rewrite lookup_insert_ne.
        * intros _. exists j, src. rewrite Hnm7. auto.
      + rewrite Hd8. apply (Hframe _ (Z.of_nat (length (i_data src)))); [lia|assumption]. }
  destruct (libc_mem c_rm s2 planned_rm)
    as (_ & [(f & _ & Hr3 & Hd3)|(lim3 & _ & Hr3 & Hd3)]); fold s3 in Hd3.
  { rewrite Hr3. cbn [r_ret r_errno].
    destruct (Z.eqb_spec (errno_of f) ENOENT) as [E|_]; [now apply errno_of_not_ENOENT in E|].
    simpl. rewrite close_keeping_errno_eq. cbn [kernel with_errno].
    destruct (close_mem fd1 s3) as (_ & F & HF & _). rewrite HF, Hd3, Hd2. fold w1.
    apply moved_files_same; [lia|exact Hn1|exact Hi1]. }
  rewrite run_rm in Hr3, Hd3.
  destruct (unlinkat_cases nd n pn (errno s2) (disk (kernel s2)) Hpn2) as [(Hu & Hnone)|Hu];
    rewrite Hu in Hr3, Hd3; rewrite Hr3; cbn [r_ret r_errno fst fail ok];
    simpl in Hd3; rewrite Hd2 in Hd3; fold w1 in Hd3.
  - simpl. apply Hcont.
    + now rewrite Hd3.
    + right. rewrite Hd3, Hn1. split; [reflexivity|].
      rewrite Hd2 in Hnone. fold w1 in Hnone. now rewrite Hn1 in Hnone.
    + now rewrite Hd3.
    + now rewrite Hd3.
    + now rewrite Hd3.
  - simpl. apply Hcont.
    + rewrite Hd3. exact Hsrc.
    + left. rewrite Hd3. simpl. now rewrite Hn1.
    + rewrite Hd3. simpl. exact Hi1.
    + rewrite Hd3. exact Hset1.
    + rewrite Hd3. exact Hk1.
Qed.

End MoveFiles.

Section LinkFiles.

Variables (c_src : syscall) (c_dst : Z -> syscall) (nd : Z) (n : cstr).
Hypothesis opens_src : opens c_src.
Hypothesis planned_dst : forall mode, planned (c_dst mode) = true.
Hypothesis run_dst :
  forall mode lim e w, run (c_dst mode) lim e w = k_openat nd n excl_flags mode e w.

Lemma linked_files_same w w' pn src r :
  r <> 0 -> names w' = names w -> inodes w' = inodes w -> linked_files w w' pn src r.
Proof.
  intros Hr Hn Hi. split; [|split].
  - intros i x. now rewrite Hi.
  - intros p _. now rewrite Hn.
  - intros H. contradiction.
Qed.

Lemma link_files_mem fuel s src pn :
  source_of c_src (disk (kernel s)) = Some src ->
  at_path (disk (kernel s)) nd n = inr pn ->
  match copy_skeleton os fuel c_src None c_dst None s with
  | Ret r s' => linked_files (disk (kernel s)) (disk (kernel s')) pn src r
  | _ => True
  end.
Proof.
  intros Hsome Hpn. set (w := disk (kernel s)) in *.
  destruct (names w !! pn) as [j0|] eqn:Hfree.
  { pose proof (excl_taken_mem c_src c_dst nd n opens_src planned_dst run_dst fuel s pn j0
                  Hpn Hfree) as Hex.
    destruct (copy_skeleton os fuel c_src None c_dst None s) as [r s'|c s'|s']; try exact I.
    destruct Hex as (-> & Hn & Hi & _). apply linked_files_same; [lia|exact Hn|exact Hi]. }
  destruct opens_src as (planned_src & Hopens).
  unfold copy_skeleton. unfold bind at 1. rewrite libc_eq.
  destruct (Hopens s) as [(Hr & Hd & Hwhy)|(fd1 & Hr & Hop & Hsd)].
  { rewrite Hr. simpl. unfold ret. apply linked_files_same; [lia| |]; now rewrite Hd. }
  rewrite Hr. destruct (Z.ltb_spec (Z.of_nat fd1) 0) as [?|_]; [lia|].
  set (s1 := next os c_src s) in *. set (w1 := disk (kernel s1)) in *.
  fold w in Hop, Hsd.
  destruct (Hsd src Hsome) as (a & i & Hino & Hsrc). clear Hsd.
  destruct Hop as (Hfd1 & Hn1 & Hi1 & Hset1 & Hk1).
  unfold bind at 1. rewrite libc_eq.
  set (s2 := next os (Fstat (Z.of_nat fd1)) s1).
  destruct (libc_mem (Fstat (Z.of_nat fd1)) s1 eq_refl)
    as (_ & [(f & _ & Hr2 & Hd2)|(lim & _ & Hr2 & Hd2)]); fold s2 in Hd2.
  { rewrite Hr2. simpl. rewrite close_keeping_errno_eq. cbn [kernel with_errno].
    destruct (close_mem fd1 s2) as (_ & F & HF & _). rewrite HF, Hd2. fold w1.
    apply linked_files_same; [lia|exact Hn1|exact Hi1]. }
  simpl run in Hr2, Hd2. fold w1 in Hr2, Hd2.
  destruct (fstat_sourced w1 fd1 a i (i_data src) (errno s1) Hsrc) as (md & Hfs & dvi & Hino1).
  assert (Hmd : md = i_mode src).
  { rewrite Hi1, Hino in Hino1. now inversion Hino1. }
  subst md. rewrite Hfs in Hr2, Hd2. simpl in Hr2, Hd2. rewrite Hr2.
  cbn [r_ret r_stat st_mode negb Z.eqb].
  set (mode := Z.land (Z.lor S_IFREG (i_mode src)) 511).
  assert (Hpn2 : at_path (disk (kernel s2)) nd n = inr pn).
  { rewrite Hd2. eapply at_path_keeps; eauto. }
  assert (Hj2 : names (disk (kernel s2)) !! pn = None).
  { rewrite Hd2. fold w1. now rewrite Hn1. }
  pose proof (create_phase (c_dst mode) nd n excl_flags mode
                (planned_dst _) (run_dst _) eq_refl eq_refl
                fd1 a i (i_data src) pn fuel s2 (ret os 0)) as Hcp.
  rewrite Hd2 in Hcp. specialize (Hcp Hsrc). rewrite <- Hd2 in Hcp.
  specialize (Hcp Hpn2 Hj2).
  assert (Hkept : forall w' off',
             copied_to mode (disk (kernel s2)) w' fd1 pn (i_data src) off' ->
             exists j,
               inodes w !! j = None /\
               names w' = <[pn := j]> (names w) /\
               inodes w' = <[j := Inode (dev_of w pn) (created_mode w (i_mode src))
                                    (take (Z.to_nat off') (i_data src))]> (inodes w)).
  { intros w' off' (j & Hj & Hnm & Hin & Hset & Hkb). exists j.
    rewrite Hd2 in Hj, Hnm, Hin. fold w1 in Hj, Hnm, Hin. rewrite Hi1 in Hj, Hin.
    rewrite Hn1 in Hnm.
    split; [assumption|]. split; [assumption|].
    rewrite Hin. rewrite (dev_of_setup _ _ _ Hset1). destruct Hset1 as (_ & _ & Hum).
    unfold created_mode, mode. now rewrite Hum. }
  destruct (bind os (libc os (c_dst mode)) _ s2) as [r s'|c s'|s']; try exact I.
  destruct Hcp as [(-> & _ & Hnm & Hin)|[(-> & _ & off' & Hto)|(s7 & Hto & _ & Hk)]].
  - apply linked_files_same; [lia| |].
    + rewrite Hnm, Hd2. exact Hn1.
    + rewrite Hin, Hd2. exact Hi1.
  - destruct (Hkept _ _ Hto) as (j & Hj & Hnm & Hin). split; [|split].
    + intros i0 x Hx. rewrite Hin, lookup_insert_ne; [assumption|congruence].
    + intros p Hp. rewrite Hnm. now rewrite lookup_insert_ne.
    + discriminate.
  - unfold ret in Hk. inversion Hk; subst r s7.
    destruct (Hkept _ _ Hto) as (j & Hj & Hnm & Hin).
    rewrite Nat2Z.id, firstn_all in Hin. split; [|split].
    + intros i0 x Hx. rewrite Hin, lookup_insert_ne; [assumption|congruence].
    + intros p Hp. rewrite Hnm. now rewrite lookup_insert_ne.
    + intros _. exists j. auto.
Qed.

End LinkFiles.

(** The two move paths, from a state in which both names resolve. *)
Lemma move_path_mem fuel (q : path) s po pn :
  removes_source q <> None ->
  old_name q (disk (kernel s)) = Some po ->
  new_name q (disk (kernel s)) = Some pn ->
  po <> pn ->
  match run_path os fuel q s with
  | Ret r s' =>
      moved_files (disk (kernel s)) (disk (kernel s')) po pn r /\
      (r <> 0 -> r = -1) /\
      (calm s -> file_at (disk (kernel s)) po <> None -> r = 0)
  | Timeout _ =>
      calm s ->
      exists src, file_at (disk (kernel s)) po = Some src /\ (fuel < length (i_data src))%nat
  | Fault _ _ => False
  end.
Proof.
  intros Hq Ho Hn Hne. rewrite run_path_skeleton.
  destruct q as [o n|fd nd n|od o nd n|o n|od o nd n]; simpl in Hq; try congruence;
    simpl in Ho, Hn; apply resolved_inr in Ho; apply resolved_inr in Hn;
    cbn [opens_source removes_dest opens_dest removes_source].
  - pose proof (move_mem (Open o rd_flags 0) (Unlink n) (Unlink o) (Open n trunc_flags)
                  AT_FDCWD o AT_FDCWD n eq_refl eq_refl eq_refl (fun _ => eq_refl)
                  (fun _ _ _ => eq_refl) (fun _ _ _ => eq_refl) (fun _ _ _ => eq_refl)
                  (fun _ _ _ _ => eq_refl) fuel s po pn Ho Hn Hne) as H1.
    pose proof (move_files_mem (Open o rd_flags 0) (Unlink n) (Unlink o) (Open n trunc_flags)
                  AT_FDCWD o AT_FDCWD n eq_refl eq_refl eq_refl (fun _ => eq_refl)
                  (fun _ _ _ => eq_refl) (fun _ _ _ => eq_refl) (fun _ _ _ => eq_refl)
                  (fun _ _ _ _ => eq_refl) fuel s po pn Ho Hn Hne) as H2.
    destruct (copy_skeleton os fuel _ _ _ _ s) as [r s'|c s'|s']; try assumption.
    destruct H1 as (_ & H3 & H4). split; [assumption|]. split; [|assumption].
    intros Hr. now destruct (H3 Hr).
  - pose proof (move_mem (Openat od o rd_flags 0) (Unlinkat nd n 0) (Unlinkat od o 0)
                  (Openat nd n trunc_flags)
                  od o nd n eq_refl eq_refl eq_refl (fun _ => eq_refl)
                  (fun _ _ _ => eq_refl) (fun _ _ _ => eq_refl) (fun _ _ _ => eq_refl)
                  (fun _ _ _ _ => eq_refl) fuel s po pn Ho Hn Hne) as H1.
    pose proof (move_files_mem (Openat od o rd_flags 0) (Unlinkat nd n 0) (Unlinkat od o 0)
                  (Openat nd n trunc_flags)
                  od o nd n eq_refl eq_refl eq_refl (fun _ => eq_refl)
                  (fun _ _ _ => eq_refl) (fun _ _ _ => eq_refl) (fun _ _ _ => eq_refl)
                  (fun _ _ _ _ => eq_refl) fuel s po pn Ho Hn Hne) as H2.
    destruct (copy_skeleton os fuel _ _ _ _ s) as [r s'|c s'|s']; try assumption.
    destruct H1 as (_ & H3 & H4). split; [assumption|]. split; [|assumption].
    intros Hr. now destruct (H3 Hr).
Qed.

(** The three link paths, from a state in which the source is a file and
    the destination name resolves. *)
Lemma link_path_mem fuel (q : path) s src pn :
  removes_source q = None ->
  source_of (opens_source q) (disk (kernel s)) = Some src ->
  new_name q (disk (kernel s)) = Some pn ->
  match run_path os fuel q s with
  | Ret r s' =>
      linked_files (disk (kernel s)) (disk (kernel s')) pn src r /\
      (r <> 0 -> r = -1) /\
      (calm s -> names (disk (kernel s)) !! pn = None -> r = 0)
  | Timeout _ => calm s -> (fuel < length (i_data src))%nat
  | Fault _ _ => False
  end.
Proof.
  intros Hq Hsrc Hn.
  destruct (link_paths q Hq) as (nd & n & Hrd & Hnew & Hpl & Hrun).
  rewrite Hnew in Hn. apply resolved_inr in Hn.
  rewrite run_path_skeleton, Hrd, Hq.
  pose proof (link_mem (opens_source q) (opens_dest q) nd n (opens_source_opens q)
                Hpl Hrun fuel s src pn Hsrc Hn) as H1.
  pose proof (link_files_mem (opens_source q) (opens_dest q) nd n (opens_source_opens q)
                Hpl Hrun fuel s src pn Hsrc Hn) as H2.
  destruct (copy_skeleton os fuel (opens_source q) None (opens_dest q) None s)
    as [r s'|c s'|s']; try assumption.
  destruct H1 as (_ & H3 & H4). auto.
Qed.

(** X7. A move path touches two names only.  On the reference file system,
    whatever faults are planned and whatever a move path returns, no file
    that existed has its content, mode or device changed (the file that was
    at the destination included: it is unlinked, not overwritten), and every
    name other than the source and the destination refers to what it
    referred to. *)
Theorem move_path_touches_two_names fuel (q : path) s po pn r s' :
  removes_source q <> None ->
  old_name q (disk (kernel s)) = Some po ->
  new_name q (disk (kernel s)) = Some pn ->
  po <> pn ->
  run_path os fuel q s = Ret r s' ->
  (forall i x, inodes (disk (kernel s)) !! i = Some x ->
               inodes (disk (kernel s')) !! i = Some x) /\
  (forall p, p <> po -> p <> pn ->
             names (disk (kernel s')) !! p = names (disk (kernel s)) !! p).
Proof.
  intros Hq Ho Hn Hne Hrun.
  pose proof (move_path_mem fuel q s po pn Hq Ho Hn Hne) as H. rewrite Hrun in H.
  destruct H as ((H1 & H2 & _) & _). auto.
Qed.

(** X8. A link path touches one name only.  On the reference file system,
    whatever faults are planned and whatever a link path whose source is a
    file returns, no file that existed has its content, mode or device
    changed, the source included, and every name other than the destination
    refers to what it referred to. *)
Theorem link_path_touches_one_name fuel (q : path) s src pn r s' :
  removes_source q = None ->
  source_of (opens_source q) (disk (kernel s)) = Some src ->
  new_name q (disk (kernel s)) = Some pn ->
  run_path os fuel q s = Ret r s' ->
  (forall i x, inodes (disk (kernel s)) !! i = Some x ->
               inodes (disk (kernel s')) !! i = Some x) /\
  (forall p, p <> pn ->
             names (disk (kernel s')) !! p = names (disk (kernel s)) !! p).
Proof.
  intros Hq Hsrc Hn Hrun.
  pose proof (link_path_mem fuel q s src pn Hq Hsrc Hn) as H. rewrite Hrun in H.
  destruct H as ((H1 & H2 & _) & _). auto.
Qed.

(** The genuine call of a rename between two devices. *)
Lemma rename_real (i : invocation) (q : path) w e po pn :
  fallback_of i = Some q -> removes_source q <> None ->
  old_name q w = Some po -> new_name q w = Some pn ->
  dev_of w po <> dev_of w pn ->
  run (real_of i) MAX_RW_COUNT e w = fail EXDEV w.
Proof.
  intros Hf Hq Ho Hn Hd.
  destruct i as [o n|od o nd n fl|o n|od o nd n|od o nd n fl]; simpl in Hf.
  - inversion Hf; subst q. now contradiction Hq.
  - destruct (_ && _); inversion Hf; subst q; now contradiction Hq.
  - inversion Hf; subst q. simpl in Ho, Hn.
    apply resolved_inr in Ho. apply resolved_inr in Hn.
    simpl. eapply renameat2_xdev; eauto.
  - inversion Hf; subst q. simpl in Ho, Hn.
    apply resolved_inr in Ho. apply resolved_inr in Hn.
    simpl. eapply renameat2_xdev; eauto.
  - destruct (Z.eqb_spec fl 0) as [->|Hfl]; simpl in Hf; [|discriminate].
    inversion Hf; subst q. simpl in Ho, Hn.
    apply resolved_inr in Ho. apply resolved_inr in Hn.
    simpl. eapply renameat2_xdev; eauto.
Qed.

(** X9. A rename between two devices succeeds as a move.  On the reference
    file system with no fault planned, [rename], [renameat] and [renameat2]
    without flags, called with a source that is a file and a destination on
    another device, return 0 when the genuine function is there and the
    fuel covers the size of the source; after the call the destination name
    refers to a new file with the content of the source and its permission
    bits masked with 0777 and by the umask, the source name is gone, and
    nothing else has changed among the names and the files. *)
Theorem cross_device_rename_succeeds fuel (i : invocation) (q : path) s po pn src :
  fallback_of i = Some q -> removes_source q <> None ->
  resolvable (entry_of i) s ->
  calm s ->
  old_name q (disk (kernel s)) = Some po ->
  new_name q (disk (kernel s)) = Some pn ->
  dev_of (disk (kernel s)) po <> dev_of (disk (kernel s)) pn ->
  file_at (disk (kernel s)) po = Some src ->
  (length (i_data src) <= fuel)%nat ->
  exists s' j,
    invoke os fuel i s = Ret 0 s' /\
    inodes (disk (kernel s)) !! j = None /\
    inodes (disk (kernel s'))
    = <[j := Inode (dev_of (disk (kernel s)) pn)
                   (created_mode (disk (kernel s)) (i_mode src)) (i_data src)]>
        (inodes (disk (kernel s))) /\
    names (disk (kernel s')) = delete po (<[pn := j]> (names (disk (kernel s)))).
Proof.
  intros Hf Hq Hres Hcalm Ho Hn Hdev Hfile Hfuel.
  assert (Hne : po <> pn) by (intros ->; now apply Hdev).
  destruct (genuine_mem i s Hres) as (s0 & Hd0 & Hp0 & Hgen & He1 & Hd1 & Hp1).
  rewrite (rename_real i q _ (errno s0) po pn Hf Hq Ho Hn Hdev) in Hgen, He1, Hd1.
  simpl in Hgen, He1, Hd1. set (s1 := next os (real_of i) s0) in *.
  rewrite (entry_after_genuine os fuel i s _ _ Hgen), He1. simpl passes_through. rewrite Hf.
  pose proof (move_path_mem fuel q s1 po pn Hq) as H. rewrite Hd1 in H.
  specialize (H Ho Hn Hne).
  assert (Hcalm1 : calm s1) by (unfold calm; now rewrite Hp1).
  destruct (run_path os fuel q s1) as [r s'|c s'|s'].
  - destruct H as (Hfiles & _ & Hr). rewrite (Hr Hcalm1) in * by congruence.
    destruct Hfiles as (_ & _ & H0). destruct (H0 eq_refl) as (j & src0 & Hs0 & Hj & Hi & Hnm).
    rewrite Hfile in Hs0. inversion Hs0; subst src0. exists s', j. auto.
  - contradiction.
  - destruct (H Hcalm1) as (src0 & Hs0 & Hlt). rewrite Hfile in Hs0.
    inversion Hs0; subst src0. lia.
Qed.

(** The genuine call of a link by name to a free name on another device. *)
Lemma link_real (i : invocation) (q : path) w e po pn i0 :
  fallback_of i = Some q -> removes_source q = None ->
  old_name q w = Some po -> new_name q w = Some pn ->
  names w !! po = Some i0 -> names w !! pn = None ->
  dev_of w po <> dev_of w pn ->
  run (real_of i) MAX_RW_COUNT e w = fail EXDEV w.
Proof.
  intros Hf Hq Ho Hn Hi Hfree Hd.
  destruct i as [o n|od o nd n fl|o n|od o nd n|od o nd n fl]; simpl in Hf.
  - inversion Hf; subst q. simpl in Ho, Hn.
    apply resolved_inr in Ho. apply resolved_inr in Hn.
    simpl. eapply linkat_xdev; eauto.
  - destruct (negb (Z.land fl AT_EMPTY_PATH =? 0) && null_or_empty o) eqn:Hfl;
      inversion Hf; subst q; simpl in Ho, Hn; [discriminate|].
    apply resolved_inr in Ho. apply resolved_inr in Hn.
    simpl. eapply linkat_xdev; eauto.
  - inversion Hf; subst q. discriminate.
  - inversion Hf; subst q. discriminate.
  - destruct (negb (fl =? 0)); inversion Hf; subst q. discriminate.
Qed.

Lemma source_by_name (q : path) w po :
  old_name q w = Some po -> source_of (opens_source q) w = file_at w po.
Proof.
  destruct q as [o n|fd nd n|od o nd n|o n|od o nd n]; simpl; try discriminate;
    intros H; apply resolved_inr in H; unfold path_file; now rewrite H.
Qed.

(** X10. A link between two devices succeeds as a copy.  On the reference
    file system with no fault planned, [link] and [linkat] by name, called
    with a source that is a file and a free destination name on another
    device, return 0 when the genuine function is there and the fuel covers
    the size of the source; after the call the destination name refers to a
    new file, not to the file of the source, with the content of the source
    and its permission bits masked with 0777 and by the umask, and nothing
    else has changed among the names and the files. *)
Theorem cross_device_link_succeeds fuel (i : invocation) (q : path) s po pn src :
  fallback_of i = Some q -> removes_source q = None ->
  resolvable (entry_of i) s ->
  calm s ->
  old_name q (disk (kernel s)) = Some po ->
  new_name q (disk (kernel s)) = Some pn ->
  dev_of (disk (kernel s)) po <> dev_of (disk (kernel s)) pn ->
  file_at (disk (kernel s)) po = Some src ->
  names (disk (kernel s)) !! pn = None ->
  (length (i_data src) <= fuel)%nat ->
  exists s' j,
    invoke os fuel i s = Ret 0 s' /\
    inodes (disk (kernel s)) !! j = None /\
    inodes (disk (kernel s'))
    = <[j := Inode (dev_of (disk (kernel s)) pn)
                   (created_mode (disk (kernel s)) (i_mode src)) (i_data src)]>
        (inodes (disk (kernel s))) /\
    names (disk (kernel s')) = <[pn := j]> (names (disk (kernel s))).
Proof.
  intros Hf Hq Hres Hcalm Ho Hn Hdev Hfile Hfree Hfuel.
  destruct (genuine_mem i s Hres) as (s0 & Hd0 & Hp0 & Hgen & He1 & Hd1 & Hp1).
  assert (Hi : exists i0, names (disk (kernel s)) !! po = Some i0).
  { unfold file_at in Hfile. destruct (names (disk (kernel s)) !! po); [eauto|discriminate]. }
  destruct Hi as (i0 & Hi).
  rewrite (link_real i q _ (errno s0) po pn i0 Hf Hq Ho Hn Hi Hfree Hdev) in Hgen, He1, Hd1.
  simpl in Hgen, He1, Hd1. set (s1 := next os (real_of i) s0) in *.
  rewrite (entry_after_genuine os fuel i s _ _ Hgen), He1. simpl passes_through. rewrite Hf.
  pose proof (link_path_mem fuel q s1 src pn Hq) as H. rewrite Hd1 in H.
  rewrite (source_by_name q _ po Ho) in H. specialize (H Hfile Hn).
  assert (Hcalm1 : calm s1) by (unfold calm; now rewrite Hp1).
  destruct (run_path os fuel q s1) as [r s'|c s'|s'].
  - destruct H as (Hfiles & _ & Hr). rewrite (Hr Hcalm1 Hfree) in *.
    destruct Hfiles as (_ & _ & H0). destruct (H0 eq_refl) as (j & Hj & Hin & Hnm).
    exists s', j. auto.
  - contradiction.
  - specialize (H Hcalm1). lia.
Qed.

(** X11. A source that is not there.  On the reference file system, a copying
    path whose source is given by a name that no file has returns -1 and
    leaves the files, the names and the descriptors as they were; [errno] is
    [ENOENT] when no fault is planned. *)
Theorem missing_source_changes_nothing fuel (q : path) s po :
  old_name q (disk (kernel s)) = Some po ->
  names (disk (kernel s)) !! po = None ->
  exists s',
    run_path os fuel q s = Ret (-1) s' /\
    disk (kernel s') = disk (kernel s) /\
    (calm s -> errno s' = ENOENT).
Proof.
  intros Ho Hnone. rewrite run_path_skeleton. unfold copy_skeleton.
  unfold bind at 1. rewrite libc_eq.
  assert (Hpl : planned (opens_source q) = true) by now destruct q.
  assert (Hrun : exists dfd o,
             at_path (disk (kernel s)) dfd o = inr po /\
             forall lim e w, run (opens_source q) lim e w = k_openat dfd o rd_flags 0 e w).
  { destruct q as [o n|fd nd n|od o nd n|o n|od o nd n]; simpl in Ho; try discriminate;
      apply resolved_inr in Ho; eauto. }
  destruct Hrun as (dfd & o & Hat & Hrun).
  assert (He : errno (next os (opens_source q) s)
               = r_errno (reply_of os (opens_source q) s)) by apply errno_next.
  destruct (libc_mem (opens_source q) s Hpl)
    as (_ & [(f & Hnc & Hr & Hd)|(lim & _ & Hr & Hd)]).
  - rewrite Hr. simpl. unfold ret. eexists. split; [reflexivity|]. split; [assumption|].
    intros Hc. contradiction.
  - rewrite Hrun in Hr, Hd. unfold k_openat in Hr, Hd. rewrite Hat, Hnone in Hr, Hd.
    simpl in Hr, Hd. rewrite Hr. simpl. unfold ret.
    eexists. split; [reflexivity|]. split; [assumption|].
    intros _. rewrite He, Hr. reflexivity.
Qed.

(** ** A fault at the creation of the destination *)

(** A planned call under a plan that is not empty. *)
Lemma libc_plan c s d rest :
  planned c = true -> plan (kernel s) = d :: rest ->
  plan (kernel (next os c s)) = rest /\
  match d with
  | Fail f =>
      reply_of os c s = Reply (-1) (errno_of f) (Stat 0 0) 0 /\
      disk (kernel (next os c s)) = disk (kernel s)
  | Normal =>
      reply_of os c s = fst (run c MAX_RW_COUNT (errno s) (disk (kernel s))) /\
      disk (kernel (next os c s)) = snd (run c MAX_RW_COUNT (errno s) (disk (kernel s)))
  | Short k =>
      reply_of os c s = fst (run c k (errno s) (disk (kernel s))) /\
      disk (kernel (next os c s)) = snd (run c k (errno s) (disk (kernel s)))
  end.
Proof.
  intros Hp Hpl. rewrite reply_of_exec, kernel_next.
  change (exec os c (errno s) (kernel s)) with (step c (errno s) (kernel s)).
  unfold step. rewrite Hp, Hpl. destruct d; simpl; auto.
Qed.

Section CreateFault.

Variables (c_src c_rm c_cl : syscall) (c_dst : Z -> syscall)
          (od : Z) (o : cstr) (nd : Z) (n : cstr).
Hypothesis planned_src : planned c_src = true.
Hypothesis planned_rm : planned c_rm = true.
Hypothesis planned_dst : forall mode, planned (c_dst mode) = true.
Hypothesis run_src : forall lim e w, run c_src lim e w = k_openat od o rd_flags 0 e w.
Hypothesis run_rm : forall lim e w, run c_rm lim e w = k_unlinkat nd n e w.

Lemma create_fault_mem fuel s po pn src old f rest :
  at_path (disk (kernel s)) od o = inr po ->
  at_path (disk (kernel s)) nd n = inr pn ->
  file_at (disk (kernel s)) po = Some src ->
  names (disk (kernel s)) !! pn = Some old ->
  plan (kernel s) = Normal :: Normal :: Normal :: Fail f :: rest ->
  exists s',
    copy_skeleton os fuel c_src (Some c_rm) c_dst (Some c_cl) s = Ret (-1) s' /\
    errno s' = errno_of f /\
    names (disk (kernel s')) = delete pn (names (disk (kernel s))) /\
    inodes (disk (kernel s')) = inodes (disk (kernel s)).
Proof.
  intros Hpo Hpn Hfile Hold Hplan. set (w := disk (kernel s)) in *.
  unfold copy_skeleton. unfold bind at 1. rewrite libc_eq.
  (* the source is opened *)
  destruct (libc_plan c_src s _ _ planned_src Hplan) as (Hp1 & Hr1 & Hd1).
  set (s1 := next os c_src s) in *. rewrite run_src in Hr1, Hd1. fold w in Hr1, Hd1.
  destruct (openat_rd_cases od o (errno s) w)
    as [(_ & _ & Hno)|(q & i & x & Hq & Hn & Hi & Hopen)].
  { unfold path_file in Hno. rewrite Hpo in Hno. congruence. }
  rewrite Hpo in Hq. inversion Hq; subst q. clear Hq.
  assert (x = src) by (unfold file_at in Hfile; rewrite Hn, Hi in Hfile; congruence).
  subst x. rewrite Hopen, install_eq in Hr1, Hd1. simpl in Hr1, Hd1.
  set (fd1 := fresh (dom (fds w))) in *. set (a := fresh (dom (ofds w))) in *.
  rewrite Hr1. cbn [r_ret]. destruct (Z.ltb_spec (Z.of_nat fd1) 0) as [?|_]; [lia|].
  (* its status is read *)
  unfold bind at 1. rewrite libc_eq.
  destruct (libc_plan (Fstat (Z.of_nat fd1)) s1 _ _ eq_refl Hp1) as (Hp2 & Hr2 & Hd2).
  set (s2 := next os (Fstat (Z.of_nat fd1)) s1) in *. simpl run in Hr2, Hd2.
  assert (Hfs : k_fstat (Z.of_nat fd1) (errno s1) (disk (kernel s1))
                = (Reply 0 (errno s1)
                     (Stat (Z.of_nat (length (i_data src))) (Z.lor S_IFREG (i_mode src))) 0,
                   disk (kernel s1))).
  { apply fstat_file with (a := a) (i := i) (p := 0) (fl := rd_flags); rewrite Hd1; simpl.
    - apply lookup_insert_eq.
    - apply lookup_insert_eq.
    - assumption. }
  rewrite Hfs in Hr2, Hd2. simpl in Hr2, Hd2. rewrite Hr2.
  cbn [r_ret r_stat st_mode negb Z.eqb].
  (* the destination is removed *)
  unfold bind at 1. rewrite libc_eq. unfold bind at 1, get_errno.
  destruct (libc_plan c_rm s2 _ _ planned_rm Hp2) as (Hp3 & Hr3 & Hd3).
  set (s3 := next os c_rm s2) in *. rewrite run_rm in Hr3, Hd3.
  assert (Hkeep : keeps w (disk (kernel s2))).
  { rewrite Hd2, Hd1. apply keeps_install; [apply fresh_fd|left; apply fresh_ofd]. }
  assert (Hset : same_setup w (disk (kernel s2))) by (rewrite Hd2, Hd1; repeat split).
  assert (Hpn2 : at_path (disk (kernel s2)) nd n = inr pn)
    by (eapply at_path_keeps; eauto).
  assert (Hold2 : names (disk (kernel s2)) !! pn = Some old) by (now rewrite Hd2, Hd1).
  unfold k_unlinkat in Hr3, Hd3. rewrite Hpn2, Hold2 in Hr3, Hd3. simpl in Hr3, Hd3.
  rewrite Hr3. cbn [r_ret negb Z.eqb andb].
  (* the creation fails *)
  unfold bind at 1. rewrite libc_eq.
  destruct (libc_plan (c_dst (Z.land (Z.lor S_IFREG (i_mode src)) 511)) s3 _ _
              (planned_dst _) Hp3) as (_ & Hr4 & Hd4).
  set (s4 := next os (c_dst (Z.land (Z.lor S_IFREG (i_mode src)) 511)) s3) in *.
  assert (He4 : errno s4 = errno_of f).
  { unfold s4. rewrite errno_next, Hr4. reflexivity. }
  rewrite Hr4. simpl. rewrite close_keeping_errno_eq.
  eexists. split; [reflexivity|]. cbn [errno with_errno kernel].
  split; [assumption|].
  destruct (close_mem fd1 s4) as (_ & F & HF & _). rewrite HF, Hd4, Hd3, Hd2, Hd1.
  split; reflexivity.
Qed.

End CreateFault.

(** X12. The move is not atomic.  On the reference file system, when the
    first three calls of a move path run (the source is opened, its status
    read, the destination removed) and the fourth, the creation of the
    destination, fails, the path returns -1 with the [errno] of that failure
    and the destination names no file any more: what was there is no longer
    reachable by that name, while the source is still in place and no file
    has changed. *)
Theorem failed_creation_loses_destination fuel (q : path) s po pn src old f rest :
  removes_source q <> None ->
  old_name q (disk (kernel s)) = Some po ->
  new_name q (disk (kernel s)) = Some pn ->
  po <> pn ->
  file_at (disk (kernel s)) po = Some src ->
  names (disk (kernel s)) !! pn = Some old ->
  plan (kernel s) = Normal :: Normal :: Normal :: Fail f :: rest ->
  exists s',
    run_path os fuel q s = Ret (-1) s' /\
    errno s' = errno_of f /\
    file_at (disk (kernel s')) pn = None /\
    file_at (disk (kernel s')) po = Some src /\
    inodes (disk (kernel s')) = inodes (disk (kernel s)).
Proof.
  intros Hq Ho Hn Hne Hfile Hold Hplan.
  assert (H : exists s',
             run_path os fuel q s = Ret (-1) s' /\ errno s' = errno_of f /\
             names (disk (kernel s')) = delete pn (names (disk (kernel s))) /\
             inodes (disk (kernel s')) = inodes (disk (kernel s))).
  { rewrite run_path_skeleton.
    destruct q as [o n|fd nd n|od o nd n|o n|od o nd n]; simpl in Hq; try congruence;
      simpl in Ho, Hn; apply resolved_inr in Ho; apply resolved_inr in Hn;
      cbn [opens_source removes_dest opens_dest removes_source].
    - apply (create_fault_mem (Open o rd_flags 0) (Unlink n) (Unlink o) (Open n trunc_flags)
               AT_FDCWD o AT_FDCWD n eq_refl eq_refl (fun _ => eq_refl)
               (fun _ _ _ => eq_refl) (fun _ _ _ => eq_refl) fuel s po pn src old f rest);
        assumption.
    - apply (create_fault_mem (Openat od o rd_flags 0) (Unlinkat nd n 0) (Unlinkat od o 0)
               (Openat nd n trunc_flags)
               od o nd n eq_refl eq_refl (fun _ => eq_refl)
               (fun _ _ _ => eq_refl) (fun _ _ _ => eq_refl) fuel s po pn src old f rest);
        assumption. }
  destruct H as (s' & Hrun & He & Hnm & Hin). exists s'.
  split; [assumption|]. split; [assumption|].
  unfold file_at in *. rewrite Hnm, Hin, lookup_delete_eq.
  rewrite lookup_delete_ne by congruence. auto.
Qed.

(** ** Without a genuine [renameat2] *)

Lemma dlsym_missing name e w :
  ~ In name (symbols w) -> k_dlsym name e w = ok 0 e w.
Proof.
  intros Hno. unfold k_dlsym.
  destruct (list_find (fun x => x = name) (symbols w)) as [[k x]|] eqn:Hf; [|reflexivity].
  apply list_find_Some in Hf. destruct Hf as (Hk & -> & _).
  exfalso. apply Hno. apply list_elem_of_In. eapply list_elem_of_lookup_2; eauto.
Qed.

(** X13. Without a genuine [renameat2], a rename between two devices still
    moves the file.  On the reference file system with no fault planned,
    when the loader has no [renameat2] but has [renameat], [renameat2]
    without flags, called with a source that is a file and a destination on
    another device, returns 0 when the fuel covers the size of the source,
    and leaves the files a cross-device [renameat] leaves. *)
Theorem renameat2_missing_still_moves fuel od o nd n s po pn src :
  static Srenameat2 s = 0 ->
  ~ In (sym_name Srenameat2) (symbols (disk (kernel s))) ->
  resolvable Srenameat s ->
  calm s ->
  at_path (disk (kernel s)) od o = inr po ->
  at_path (disk (kernel s)) nd n = inr pn ->
  dev_of (disk (kernel s)) po <> dev_of (disk (kernel s)) pn ->
  file_at (disk (kernel s)) po = Some src ->
  (length (i_data src) <= fuel)%nat ->
  exists s' j,
    renameat2 os fuel od o nd n 0 s = Ret 0 s' /\
    inodes (disk (kernel s)) !! j = None /\
    inodes (disk (kernel s'))
    = <[j := Inode (dev_of (disk (kernel s)) pn)
                   (created_mode (disk (kernel s)) (i_mode src)) (i_data src)]>
        (inodes (disk (kernel s))) /\
    names (disk (kernel s')) = delete po (<[pn := j]> (names (disk (kernel s)))).
Proof.
  intros Hnull Hmiss Hres Hcalm Ho Hn Hdev Hfile Hfuel.
  assert (Hne : po <> pn) by (intros ->; now apply Hdev).
  (* the loader is asked for renameat2 and answers null *)
  destruct (unplanned_mem (Dlsym (sym_name Srenameat2)) s eq_refl) as (Hr0 & Hd0 & Hp0).
  cbn [run] in Hr0, Hd0. rewrite (dlsym_missing _ _ _ Hmiss) in Hr0, Hd0.
  cbn [fst snd ok] in Hr0, Hd0.
  set (s0 := with_static Srenameat2 0 (next os (Dlsym (sym_name Srenameat2)) s)).
  assert (Hres0 : resolve os Srenameat2 s = Ret 0 s0).
  { rewrite resolve_eq, Hnull, Hr0. reflexivity. }
  change (renameat2 os fuel od o nd n 0 s)
    with (invoke os fuel (CallRenameat2 od o nd n 0) s).
  rewrite (invoke_unresolved os fuel (CallRenameat2 od o nd n 0) s s0 Hres0).
  cbn [Z.eqb].
  assert (Hdisk : disk (kernel s0) = disk (kernel s)) by exact Hd0.
  assert (Hplan : plan (kernel s0) = plan (kernel s)) by exact Hp0.
  (* renameat takes over *)
  assert (Hres1 : resolvable (entry_of (CallRenameat od o nd n)) s0).
  { destruct Hres as [H|H]; [left|right].
    - unfold s0. cbn [entry_of].
      rewrite static_with_static_ne by discriminate. now rewrite static_next.
    - now rewrite Hdisk. }
  destruct (genuine_mem (CallRenameat od o nd n) s0 Hres1)
    as (s1 & Hd1 & Hp1 & Hgen & He2 & Hd2 & Hp2).
  rewrite Hdisk in Hgen, He2, Hd2. cbn [real_of run] in Hgen, He2, Hd2, Hp2.
  rewrite (renameat2_xdev od o nd n (errno s1) _ po pn Ho Hn Hdev) in Hgen, He2, Hd2.
  cbn [fst snd fail r_ret r_errno] in Hgen, He2, Hd2. set (s2 := next os (RealRenameat od o nd n) s1) in *.
  change (renameat os fuel od o nd n s0)
    with (invoke os fuel (CallRenameat od o nd n) s0).
  rewrite (entry_after_genuine os fuel (CallRenameat od o nd n) s0 _ _ Hgen), He2.
  simpl passes_through. cbn [fallback_of].
  pose proof (move_path_mem fuel (MoveAt od o nd n) s2 po pn) as H. rewrite Hd2 in H.
  simpl old_name in H. simpl new_name in H. rewrite Ho, Hn in H.
  specialize (H ltac:(discriminate) eq_refl eq_refl Hne).
  assert (Hcalm2 : calm s2) by (unfold calm; rewrite Hp2, Hplan; exact Hcalm).
  destruct (run_path os fuel (MoveAt od o nd n) s2) as [r s'|c s'|s'].
  - destruct H as (Hfiles & _ & Hr). rewrite (Hr Hcalm2) in * by congruence.
    destruct Hfiles as (_ & _ & H0). destruct (H0 eq_refl) as (j & src0 & Hs0 & Hj & Hi & Hnm).
    rewrite Hfile in Hs0. inversion Hs0; subst src0. exists s', j. auto.
  - contradiction.
  - destruct (H Hcalm2) as (src0 & Hs0 & Hlt). rewrite Hfile in Hs0.
    inversion Hs0; subst src0. lia.
Qed.

End Entry.


(** * The move paths, whatever the two names *)

Section MoveAny.
Import MemFS.
Implicit Types (w : fs) (s : state os).

Section MoveSame.

Variables (c_src c_rm c_cl : syscall) (c_dst : Z -> syscall)
          (od : Z) (o : cstr) (nd : Z) (n : cstr).
Hypothesis planned_src : planned c_src = true.
Hypothesis planned_rm : planned c_rm = true.
Hypothesis planned_cl : planned c_cl = true.
Hypothesis planned_dst : forall mode, planned (c_dst mode) = true.
Hypothesis run_src : forall lim e w, run c_src lim e w = k_openat od o rd_flags 0 e w.
Hypothesis run_rm : forall lim e w, run c_rm lim e w = k_unlinkat nd n e w.
Hypothesis run_cl : forall lim e w, run c_cl lim e w = k_unlinkat od o e w.
Hypothesis run_dst :
  forall mode lim e w, run (c_dst mode) lim e w = k_openat nd n trunc_flags mode e w.


End MoveSame.




End MoveAny.


(** * Runs on the sample worlds *)

(** A rename within one device passes through. *)
Lemma passthrough_unchanged_witness :
  invoke MemFS.os 4 (CallRename Demo.f_a Demo.g_a) (MemFS.boot Demo.w0 [])
  = Ret 0 (final (genuine MemFS.os Srename (RealRename Demo.f_a Demo.g_a)
                    (MemFS.boot Demo.w0 []))).
Proof.
  apply (proj1 (passthrough_unchanged MemFS.os 4 (MemFS.boot Demo.w0 []) 0 _
                  (or_introl eq_refl))
           (CallRename Demo.f_a Demo.g_a)).
  apply Ret_final. vm_compute. reflexivity.
Defined.

(** A cross-device [renameat2] with [RENAME_NOREPLACE] returns the genuine
    failure. *)
Lemma renameat2_flags_no_fallback_witness :
  renameat2 MemFS.os 4 AT_FDCWD Demo.f_a AT_FDCWD Demo.g_b MemFS.RENAME_NOREPLACE
    (MemFS.boot Demo.w1 [])
  = Ret (-1) (final (genuine MemFS.os Srenameat2
                (RealRenameat2 AT_FDCWD Demo.f_a AT_FDCWD Demo.g_b MemFS.RENAME_NOREPLACE)
                (MemFS.boot Demo.w1 []))).
Proof.
  refine (proj1 (renameat2_flags_no_fallback MemFS.os 4 AT_FDCWD Demo.f_a AT_FDCWD
                   Demo.g_b MemFS.RENAME_NOREPLACE (MemFS.boot Demo.w1 []) (-1) _ _ _ _) _).
  - apply Ret_final. vm_compute; reflexivity.
  - lia.
  - vm_compute; reflexivity.
  - unfold MemFS.RENAME_NOREPLACE; lia.
Defined.

(** A link fallback onto an existing file fails at the creation of the
    destination. *)
Lemma failing_step_errno_witness :
  exists evs ev,
    trace (final (run_path MemFS.os 4 (CopyFromPath Demo.f_a Demo.old_b)
                    (MemFS.boot Demo.w0 [])))
      = trace (MemFS.boot Demo.w0 []) ++ evs /\
    last_step evs = Some ev /\ failed ev = true /\
    errno (final (run_path MemFS.os 4 (CopyFromPath Demo.f_a Demo.old_b)
                    (MemFS.boot Demo.w0 []))) = r_errno (snd ev).
Proof.
  apply (failing_step_errno MemFS.os 4 (CopyFromPath Demo.f_a Demo.old_b)
           (MemFS.boot Demo.w0 []) (-1)).
  - apply Ret_final. vm_compute; reflexivity.
  - lia.
Defined.

(** Without a genuine [renameat2], a call with flags is refused. *)
Lemma renameat2_unresolved_witness :
  renameat2 MemFS.os 4 AT_FDCWD Demo.f_a AT_FDCWD Demo.g_b MemFS.RENAME_NOREPLACE
    (MemFS.boot Demo.w0 [])
  = Ret (-1) (with_errno ENOSYS (final (resolve MemFS.os Srenameat2 (MemFS.boot Demo.w0 [])))).
Proof.
  refine (proj1 (renameat2_unresolved MemFS.os 4 AT_FDCWD Demo.f_a AT_FDCWD Demo.g_b
                   MemFS.RENAME_NOREPLACE (MemFS.boot Demo.w0 []) _ _) _).
  - apply Ret_final. vm_compute; reflexivity.
  - unfold MemFS.RENAME_NOREPLACE; lia.
Defined.

(** C7, as stated, fails: the loader has no [renameat2], yet a call without
    flags does not signal [ENOSYS]; it renames the file. *)
Lemma renameat2_unresolved_zero_flags_succeeds :
  result (resolve MemFS.os Srenameat2 (MemFS.boot Demo.w0 [])) = Some 0 /\
  result (renameat2 MemFS.os 4 AT_FDCWD Demo.f_a AT_FDCWD Demo.g_a 0
            (MemFS.boot Demo.w0 [])) = Some 0 /\
  errno (final (renameat2 MemFS.os 4 AT_FDCWD Demo.f_a AT_FDCWD Demo.g_a 0
                  (MemFS.boot Demo.w0 []))) <> ENOSYS /\
  MemFS.file_at
    (MemFS.disk (kernel (final (renameat2 MemFS.os 4 AT_FDCWD Demo.f_a AT_FDCWD Demo.g_a 0
                                  (MemFS.boot Demo.w0 [])))))
    "/mnt/a/g" = Some (MemFS.Inode 1 420 Demo.hello).
Proof.
  split; [vm_compute; reflexivity|].
  split; [vm_compute; reflexivity|]. split; [vm_compute; discriminate|].
  vm_compute; reflexivity.
Qed.

(** C9, as stated, fails: the first query for [renameat2] returned null, and
    the second invocation queries the loader again. *)
Lemma renameat2_null_requeried :
  List.map fst
    (trace (final (renameat2 MemFS.os 4 AT_FDCWD Demo.f_a AT_FDCWD Demo.g_b 1
                     (MemFS.boot Demo.w0 []))))
  = [Dlsym "renameat2"] /\
  List.map fst
    (trace (final (renameat2 MemFS.os 4 AT_FDCWD Demo.f_a AT_FDCWD Demo.g_b 1
                     (final (renameat2 MemFS.os 4 AT_FDCWD Demo.f_a AT_FDCWD Demo.g_b 1
                               (MemFS.boot Demo.w0 []))))))
  = [Dlsym "renameat2"; Dlsym "renameat2"].
Proof. split; vm_compute; reflexivity. Qed.

(** C8, as stated, fails: the status query made right after opening the
    source reports 10 bytes, a second query is made, and the loop is sized by
    the 3 bytes the second one reports. *)
Lemma copy_sized_by_second_query :
  List.map fst
    (trace (final (fallback_copy_from_path Scripted.os 8 (Some "a"%string) (Some "b"%string)
                     (Scripted.boot Scripted.shrinking))))
  = [Open (Some "a"%string) rd_flags 0; Fstat 3;
     Open (Some "b"%string) excl_flags 420; Fstat 3;
     Sendfile 4 3 0 3; Close 3; Close 4] /\
  st_size (r_stat (Scripted.shrinking 1)) = 10 /\
  result (fallback_copy_from_path Scripted.os 8 (Some "a"%string) (Some "b"%string)
            (Scripted.boot Scripted.shrinking)) = Some 0.
Proof. repeat split; vm_compute; reflexivity. Qed.

(** A cross-device link onto an existing file. *)
Lemma link_fallback_exclusive_witness :
  match run_path MemFS.os 8 (CopyFromPath Demo.f_a Demo.old_b) (MemFS.boot Demo.w0 []) with
  | Ret r s' =>
      (forall j, MemFS.names Demo.w0 !! "/mnt/b/old"%string = Some j ->
         r = -1 /\
         MemFS.names (MemFS.disk (kernel s')) = MemFS.names Demo.w0 /\
         MemFS.inodes (MemFS.disk (kernel s')) = MemFS.inodes Demo.w0 /\
         (MemFS.calm (MemFS.boot Demo.w0 []) ->
          MemFS.source_of (Open Demo.f_a rd_flags 0) Demo.w0 <> None ->
          MemFS.inodes Demo.w0 !! j <> None -> errno s' = EEXIST)) /\
      (forall src, MemFS.names Demo.w0 !! "/mnt/b/old"%string = None ->
         MemFS.source_of (Open Demo.f_a rd_flags 0) Demo.w0 = Some src ->
         (r = 0 ->
          MemFS.file_at (MemFS.disk (kernel s')) "/mnt/b/old"
          = Some (MemFS.Inode (MemFS.dev_of Demo.w0 "/mnt/b/old")
                    (MemFS.created_mode Demo.w0 (MemFS.i_mode src)) (MemFS.i_data src))) /\
         (r <> 0 -> r = -1) /\
         (MemFS.calm (MemFS.boot Demo.w0 []) -> r = 0))
  | Timeout _ =>
      MemFS.names Demo.w0 !! "/mnt/b/old"%string = None /\
      forall src, MemFS.source_of (Open Demo.f_a rd_flags 0) Demo.w0 = Some src ->
        MemFS.calm (MemFS.boot Demo.w0 []) -> (8 < length (MemFS.i_data src))%nat
  | Fault _ _ => False
  end.
Proof.
  apply (link_fallback_exclusive 8 (CopyFromPath Demo.f_a Demo.old_b) (MemFS.boot Demo.w0 [])
           "/mnt/b/old").
  - reflexivity.
  - reflexivity.
Defined.

(** [linkat] on a descriptor positioned after the third byte of "hello". *)
Lemma linkat_empty_path_copies_whole_file_witness :
  match linkat MemFS.os 8 3 (Some EmptyString) AT_FDCWD Demo.g_b AT_EMPTY_PATH
          (MemFS.boot Demo.w2 []) with
  | Ret r' s' =>
      (r' = 0 ->
       MemFS.file_at (MemFS.disk (kernel s')) "/mnt/b/g"
       = Some (MemFS.Inode
                 (MemFS.dev_of
                    (MemFS.disk (kernel (final (genuine MemFS.os Slinkat
                       (RealLinkat 3 (Some EmptyString) AT_FDCWD Demo.g_b AT_EMPTY_PATH)
                       (MemFS.boot Demo.w2 []))))) "/mnt/b/g")
                 (MemFS.created_mode
                    (MemFS.disk (kernel (final (genuine MemFS.os Slinkat
                       (RealLinkat 3 (Some EmptyString) AT_FDCWD Demo.g_b AT_EMPTY_PATH)
                       (MemFS.boot Demo.w2 []))))) 420)
                 Demo.hello) /\
       MemFS.file_of (MemFS.disk (kernel s')) 3 = Some (MemFS.OFile 1 3 O_RDONLY)) /\
      (r' <> 0 -> r' = -1) /\
      (MemFS.calm (final (genuine MemFS.os Slinkat
                     (RealLinkat 3 (Some EmptyString) AT_FDCWD Demo.g_b AT_EMPTY_PATH)
                     (MemFS.boot Demo.w2 []))) ->
       MemFS.names
         (MemFS.disk (kernel (final (genuine MemFS.os Slinkat
            (RealLinkat 3 (Some EmptyString) AT_FDCWD Demo.g_b AT_EMPTY_PATH)
            (MemFS.boot Demo.w2 []))))) !! "/mnt/b/g"%string = None ->
       r' = 0)
  | Timeout _ =>
      MemFS.calm (final (genuine MemFS.os Slinkat
                    (RealLinkat 3 (Some EmptyString) AT_FDCWD Demo.g_b AT_EMPTY_PATH)
                    (MemFS.boot Demo.w2 []))) ->
      (8 < length Demo.hello)%nat
  | Fault _ _ => False
  end.
Proof.
  apply (linkat_empty_path_copies_whole_file 8 3 (Some EmptyString) AT_FDCWD Demo.g_b
           AT_EMPTY_PATH (MemFS.boot Demo.w2 []) (-1) _ 1%nat 3 O_RDONLY
           (MemFS.Inode 1 420 Demo.hello) "/mnt/b/g").
  - reflexivity.
  - apply Ret_final. vm_compute. reflexivity.
  - lia.
  - vm_compute. reflexivity.
  - vm_compute. reflexivity.
  - reflexivity.
  - vm_compute. reflexivity.
  - vm_compute. reflexivity.
Defined.

(** The three runs, evaluated: [rename] of [/mnt/a/f] onto [/mnt/b/old],
    [link] of [/mnt/a/f] as [/mnt/b/old], and [linkat] of descriptor 3 as
    [/mnt/b/g]. *)
Example cross_device_rename_run :
  let o := invoke MemFS.os 8 (CallRename Demo.f_a Demo.old_b) (MemFS.boot Demo.w0 []) in
  result o = Some 0 /\
  List.map fst (trace (final o))
  = [Dlsym "rename"; RealRename Demo.f_a Demo.old_b;
     Open Demo.f_a rd_flags 0; Fstat 0; Unlink Demo.old_b;
     Open Demo.old_b trunc_flags 420; Fstat 0; Sendfile 1 0 0 5; Close 0; Close 1;
     Unlink Demo.f_a] /\
  MemFS.file_at (MemFS.disk (kernel (final o))) "/mnt/b/old"
  = Some (MemFS.Inode 2 420 Demo.hello) /\
  MemFS.file_at (MemFS.disk (kernel (final o))) "/mnt/a/f" = None.
Proof. repeat split; vm_compute; reflexivity. Qed.

Example cross_device_link_taken_run :
  let o := run_path MemFS.os 8 (CopyFromPath Demo.f_a Demo.old_b) (MemFS.boot Demo.w0 []) in
  result o = Some (-1) /\ errno (final o) = EEXIST /\
  MemFS.file_at (MemFS.disk (kernel (final o))) "/mnt/b/old"
  = Some (MemFS.Inode 2 384 Demo.stale).
Proof. repeat split; vm_compute; reflexivity. Qed.

Example linkat_descriptor_run :
  let o := invoke MemFS.os 8 (CallLinkat 3 (Some EmptyString) AT_FDCWD Demo.g_b AT_EMPTY_PATH)
             (MemFS.boot Demo.w2 []) in
  result o = Some 0 /\
  MemFS.file_at (MemFS.disk (kernel (final o))) "/mnt/b/g"
  = Some (MemFS.Inode 2 420 Demo.hello) /\
  MemFS.file_of (MemFS.disk (kernel (final o))) 3 = Some (MemFS.OFile 1 3 O_RDONLY).
Proof. repeat split; vm_compute; reflexivity. Qed.

(** * Further runs on the sample worlds *)

(** A copy of five bytes in two transfers. *)
Lemma copy_fd_success_moved_all_witness :
  exists st tr,
    trace (final (copy_fd Scripted.os 4 3 4 (Scripted.boot Scripted.two_transfers)))
    = trace (Scripted.boot Scripted.two_transfers) ++ (Fstat 3, st) :: tr /\
    r_ret st = 0 /\
    Forall (fun ev => 0 <= r_ret (snd ev)) tr /\
    st_size (r_stat st) <= returned tr.
Proof.
  apply (copy_fd_success_moved_all Scripted.os 4 3 4 (Scripted.boot Scripted.two_transfers)).
  apply Ret_final. vm_compute. reflexivity.
Defined.

(** The cross-device rename of [/mnt/a/f] onto [/mnt/b/old]. *)
Lemma descriptors_opened_are_closed_witness :
  exists evs,
    trace (final (run_path MemFS.os 8 (MoveFromPath Demo.f_a Demo.old_b)
                    (MemFS.boot Demo.w0 [])))
    = trace (MemFS.boot Demo.w0 []) ++ evs /\
    closed_fds evs = opened_fds evs.
Proof.
  apply (descriptors_opened_are_closed MemFS.os 8 (MoveFromPath Demo.f_a Demo.old_b)
           (MemFS.boot Demo.w0 []) 0).
  apply Ret_final. vm_compute. reflexivity.
Defined.

Lemma link_paths_never_unlink_witness :
  exists evs,
    trace (final (run_path MemFS.os 8 (CopyFromPath Demo.f_a Demo.g_b)
                    (MemFS.boot Demo.w0 [])))
    = trace (MemFS.boot Demo.w0 []) ++ evs /\
    Forall (fun ev => is_unlink ev = false) evs.
Proof.
  apply (link_paths_never_unlink MemFS.os 8 (CopyFromPath Demo.f_a Demo.g_b)
           (MemFS.boot Demo.w0 [])).
  reflexivity.
Defined.

Lemma success_means_every_step_succeeded_witness :
  exists evs,
    trace (final (run_path MemFS.os 8 (MoveFromPath Demo.f_a Demo.g_b)
                    (MemFS.boot Demo.w0 [])))
    = trace (MemFS.boot Demo.w0 []) ++ evs /\
    Forall (fun ev =>
              is_close ev = true \/ failed ev = false \/
              (Some (fst ev) = removes_dest (MoveFromPath Demo.f_a Demo.g_b) /\
               r_errno (snd ev) = ENOENT)) evs.
Proof.
  apply (success_means_every_step_succeeded MemFS.os 8 (MoveFromPath Demo.f_a Demo.g_b)
           (MemFS.boot Demo.w0 [])).
  apply Ret_final. vm_compute. reflexivity.
Defined.

Lemma move_path_touches_two_names_witness :
  (forall i x,
     MemFS.inodes Demo.w0 !! i = Some x ->
     MemFS.inodes
       (MemFS.disk (kernel (final (run_path MemFS.os 8 (MoveFromPath Demo.f_a Demo.old_b)
                                     (MemFS.boot Demo.w0 []))))) !! i = Some x) /\
  (forall p, p <> "/mnt/a/f"%string -> p <> "/mnt/b/old"%string ->
     MemFS.names
       (MemFS.disk (kernel (final (run_path MemFS.os 8 (MoveFromPath Demo.f_a Demo.old_b)
                                     (MemFS.boot Demo.w0 []))))) !! p
     = MemFS.names Demo.w0 !! p).
Proof.
  apply (move_path_touches_two_names 8 (MoveFromPath Demo.f_a Demo.old_b)
           (MemFS.boot Demo.w0 []) "/mnt/a/f" "/mnt/b/old" 0).
  - discriminate.
  - reflexivity.
  - reflexivity.
  - discriminate.
  - apply Ret_final. vm_compute. reflexivity.
Defined.

Lemma link_path_touches_one_name_witness :
  (forall i x,
     MemFS.inodes Demo.w0 !! i = Some x ->
     MemFS.inodes
       (MemFS.disk (kernel (final (run_path MemFS.os 8 (CopyFromPath Demo.f_a Demo.g_b)
                                     (MemFS.boot Demo.w0 []))))) !! i = Some x) /\
  (forall p, p <> "/mnt/b/g"%string ->
     MemFS.names
       (MemFS.disk (kernel (final (run_path MemFS.os 8 (CopyFromPath Demo.f_a Demo.g_b)
                                     (MemFS.boot Demo.w0 []))))) !! p
     = MemFS.names Demo.w0 !! p).
Proof.
  apply (link_path_touches_one_name 8 (CopyFromPath Demo.f_a Demo.g_b)
           (MemFS.boot Demo.w0 []) (MemFS.Inode 1 420 Demo.hello) "/mnt/b/g" 0).
  - reflexivity.
  - vm_compute. reflexivity.
  - reflexivity.
  - apply Ret_final. vm_compute. reflexivity.
Defined.

Lemma cross_device_rename_succeeds_witness :
  exists s' j,
    invoke MemFS.os 8 (CallRename Demo.f_a Demo.old_b) (MemFS.boot Demo.w0 []) = Ret 0 s' /\
    MemFS.inodes Demo.w0 !! j = None /\
    MemFS.inodes (MemFS.disk (kernel s'))
    = <[j := MemFS.Inode (MemFS.dev_of Demo.w0 "/mnt/b/old")
                         (MemFS.created_mode Demo.w0 420) Demo.hello]>
        (MemFS.inodes Demo.w0) /\
    MemFS.names (MemFS.disk (kernel s'))
    = delete "/mnt/a/f"%string (<["/mnt/b/old"%string := j]> (MemFS.names Demo.w0)).
Proof.
  apply (cross_device_rename_succeeds 8 (CallRename Demo.f_a Demo.old_b)
           (MoveFromPath Demo.f_a Demo.old_b) (MemFS.boot Demo.w0 [])
           "/mnt/a/f" "/mnt/b/old" (MemFS.Inode 1 420 Demo.hello)).
  - reflexivity.
  - discriminate.
  - right. simpl. auto.
  - reflexivity.
  - reflexivity.
  - reflexivity.
  - vm_compute. discriminate.
  - vm_compute. reflexivity.
  - vm_compute. lia.
Defined.

Lemma cross_device_link_succeeds_witness :
  exists s' j,
    invoke MemFS.os 8 (CallLink Demo.f_a Demo.g_b) (MemFS.boot Demo.w0 []) = Ret 0 s' /\
    MemFS.inodes Demo.w0 !! j = None /\
    MemFS.inodes (MemFS.disk (kernel s'))
    = <[j := MemFS.Inode (MemFS.dev_of Demo.w0 "/mnt/b/g")
                         (MemFS.created_mode Demo.w0 420) Demo.hello]>
        (MemFS.inodes Demo.w0) /\
    MemFS.names (MemFS.disk (kernel s')) = <["/mnt/b/g"%string := j]> (MemFS.names Demo.w0).
Proof.
  apply (cross_device_link_succeeds 8 (CallLink Demo.f_a Demo.g_b)
           (CopyFromPath Demo.f_a Demo.g_b) (MemFS.boot Demo.w0 [])
           "/mnt/a/f" "/mnt/b/g" (MemFS.Inode 1 420 Demo.hello)).
  - reflexivity.
  - reflexivity.
  - right. simpl. auto.
  - reflexivity.
  - reflexivity.
  - reflexivity.
  - vm_compute. discriminate.
  - vm_compute. reflexivity.
  - vm_compute. reflexivity.
  - vm_compute. lia.
Defined.

(** The move of [/mnt/a/g], which is not there. *)
Lemma missing_source_changes_nothing_witness :
  exists s',
    run_path MemFS.os 8 (MoveFromPath Demo.g_a Demo.old_b) (MemFS.boot Demo.w0 [])
    = Ret (-1) s' /\
    MemFS.disk (kernel s') = Demo.w0 /\
    (MemFS.calm (MemFS.boot Demo.w0 []) -> errno s' = ENOENT).
Proof.
  apply (missing_source_changes_nothing 8 (MoveFromPath Demo.g_a Demo.old_b)
           (MemFS.boot Demo.w0 []) "/mnt/a/g").
  - reflexivity.
  - vm_compute. reflexivity.
Defined.

(** The rename of [/mnt/a/f] onto [/mnt/b/old] when the process is out of
    descriptors at the creation of the destination. *)
Lemma failed_creation_loses_destination_witness :
  exists s',
    run_path MemFS.os 8 (MoveFromPath Demo.f_a Demo.old_b)
      (MemFS.boot Demo.w0
         [MemFS.Normal; MemFS.Normal; MemFS.Normal; MemFS.Fail MemFS.Fmfile])
    = Ret (-1) s' /\
    errno s' = MemFS.errno_of MemFS.Fmfile /\
    MemFS.file_at (MemFS.disk (kernel s')) "/mnt/b/old" = None /\
    MemFS.file_at (MemFS.disk (kernel s')) "/mnt/a/f" = Some (MemFS.Inode 1 420 Demo.hello) /\
    MemFS.inodes (MemFS.disk (kernel s')) = MemFS.inodes Demo.w0.
Proof.
  apply (failed_creation_loses_destination 8 (MoveFromPath Demo.f_a Demo.old_b)
           (MemFS.boot Demo.w0
              [MemFS.Normal; MemFS.Normal; MemFS.Normal; MemFS.Fail MemFS.Fmfile])
           "/mnt/a/f" "/mnt/b/old" (MemFS.Inode 1 420 Demo.hello) 2%nat MemFS.Fmfile []).
  - discriminate.
  - reflexivity.
  - reflexivity.
  - discriminate.
  - vm_compute. reflexivity.
  - vm_compute. reflexivity.
  - reflexivity.
Defined.

(** [renameat2] without flags behind a C library that has no [renameat2]. *)
Lemma renameat2_missing_still_moves_witness :
  exists s' j,
    renameat2 MemFS.os 8 AT_FDCWD Demo.f_a AT_FDCWD Demo.old_b 0 (MemFS.boot Demo.w0 [])
    = Ret 0 s' /\
    MemFS.inodes Demo.w0 !! j = None /\
    MemFS.inodes (MemFS.disk (kernel s'))
    = <[j := MemFS.Inode (MemFS.dev_of Demo.w0 "/mnt/b/old")
                         (MemFS.created_mode Demo.w0 420) Demo.hello]>
        (MemFS.inodes Demo.w0) /\
    MemFS.names (MemFS.disk (kernel s'))
    = delete "/mnt/a/f"%string (<["/mnt/b/old"%string := j]> (MemFS.names Demo.w0)).
Proof.
  apply (renameat2_missing_still_moves 8 AT_FDCWD Demo.f_a AT_FDCWD Demo.old_b
           (MemFS.boot Demo.w0 []) "/mnt/a/f" "/mnt/b/old" (MemFS.Inode 1 420 Demo.hello)).
  - reflexivity.
  - simpl. intros [H|[H|[H|[H|[]]]]]; discriminate H.
  - right. simpl. auto.
  - reflexivity.
  - reflexivity.
  - reflexivity.
  - vm_compute. discriminate.
  - vm_compute. reflexivity.
  - vm_compute. lia.
Defined.

(** * More runs of the move paths *)


